(** * Bird Buddy API client: a shallow embedding of [birdbuddy/client.py]

    The client is a stateful object talking to one GraphQL endpoint.  The
    embedding is a state-and-exception monad over the client's attributes and
    an explicit world (requests sent so far, diagnostic output, clock).  The
    GraphQL executor, the query documents and the value classes that live in
    other modules of the package are collected in an environment record. *)

From Stdlib Require Import String Ascii List ZArith Bool Lia.
Import ListNotations.
Local Open Scope string_scope.
Local Open Scope Z_scope.

(* ===================================================================== *)
(** ** Python values *)
(* ===================================================================== *)

(** Values that travel through the client: parsed JSON bodies plus the
    [datetime] objects the client stamps into them.  A JSON object is kept
    as an association list in insertion order, as Python dicts are; keys of
    JSON objects are strings.  Numbers are the integers; no method of the
    client computes with a number. *)
#[warnings="-register-all"]
Inductive pyval : Type :=
| PNone
| PBool (b : bool)
| PInt (z : Z)
| PStr (s : string)
| PDatetime (t : Z)
| PList (l : list pyval)
| PDict (d : list (string * pyval)).

(** Python truthiness ([bool(v)], [if v:], [not v]). *)
Definition truthy (v : pyval) : bool :=
  match v with
  | PNone => false
  | PBool b => b
  | PInt z => negb (z =? 0)
  | PStr s => negb (String.eqb s "")
  | PDatetime _ => true
  | PList l => match l with [] => false | _ :: _ => true end
  | PDict d => match d with [] => false | _ :: _ => true end
  end.

Definition is_None (v : pyval) : bool :=
  match v with PNone => true | _ => false end.

Definition isinstance_dict (v : pyval) : bool :=
  match v with PDict _ => true | _ => false end.

(** [v == s] for a string literal [s]: only an equal [str] compares equal. *)
Definition eq_str (v : pyval) (s : string) : bool :=
  match v with PStr s' => String.eqb s' s | _ => false end.

(** *** Dictionaries *)

Fixpoint dict_get {V : Type} (d : list (string * V)) (k : string) : option V :=
  match d with
  | [] => None
  | (k', v) :: d' => if String.eqb k' k then Some v else dict_get d' k
  end.

(** [d[k] = v]: replaces the value in place, or appends a new item. *)
Fixpoint dict_set {V : Type} (d : list (string * V)) (k : string) (v : V)
  : list (string * V) :=
  match d with
  | [] => [(k, v)]
  | (k', v') :: d' =>
      if String.eqb k' k then (k', v) :: d' else (k', v') :: dict_set d' k v
  end.

(** *** Hashable keys

    The entity caches are Python dicts keyed by whatever the remote record
    carries under ["id"].  Lists and dicts are unhashable; [True == 1] and
    [False == 0] as keys. *)
Definition hashable (v : pyval) : bool :=
  match v with PList _ | PDict _ => false | _ => true end.

Definition key_eqb (a b : pyval) : bool :=
  match a, b with
  | PNone, PNone => true
  | PBool x, PBool y => Bool.eqb x y
  | PInt x, PInt y => x =? y
  | PBool x, PInt y | PInt y, PBool x => (if x then 1 else 0) =? y
  | PStr x, PStr y => String.eqb x y
  | PDatetime x, PDatetime y => x =? y
  | _, _ => false
  end.

Fixpoint cache_get {V : Type} (m : list (pyval * V)) (k : pyval) : option V :=
  match m with
  | [] => None
  | (k', v) :: m' => if key_eqb k' k then Some v else cache_get m' k
  end.

Fixpoint cache_set {V : Type} (m : list (pyval * V)) (k : pyval) (v : V)
  : list (pyval * V) :=
  match m with
  | [] => [(k, v)]
  | (k', v') :: m' =>
      if key_eqb k' k then (k', v) :: m' else (k', v') :: cache_set m' k v
  end.

(** [m.update(other)] *)
Definition cache_update {V : Type} (m other : list (pyval * V))
  : list (pyval * V) :=
  fold_left (fun acc kv => cache_set acc (fst kv) (snd kv)) other m.

(** *** Strings *)

(** [s.partition("\n")[0]] *)
Fixpoint first_line (s : string) : string :=
  match s with
  | EmptyString => EmptyString
  | String c s' =>
      if Ascii.eqb c "010"%char then EmptyString else String c (first_line s')
  end.

Definition upper_ascii (c : ascii) : ascii :=
  let n := nat_of_ascii c in
  if (Nat.leb 97 n && Nat.leb n 122)%bool then ascii_of_nat (n - 32) else c.

Definition lower_ascii (c : ascii) : ascii :=
  let n := nat_of_ascii c in
  if (Nat.leb 65 n && Nat.leb n 90)%bool then ascii_of_nat (n + 32) else c.

Fixpoint lower (s : string) : string :=
  match s with
  | EmptyString => EmptyString
  | String c s' => String (lower_ascii c) (lower s')
  end.

(** [s.capitalize()] on ASCII text: first character upper-cased, the rest
    lower-cased. *)
Definition capitalize_ascii (s : string) : string :=
  match s with
  | EmptyString => EmptyString
  | String c s' => String (upper_ascii c) (lower s')
  end.

(** Text is held as a sequence of bytes; it is ASCII when every byte is
    below 128. *)
Fixpoint is_ascii (s : string) : bool :=
  match s with
  | EmptyString => true
  | String c s' => Nat.ltb (nat_of_ascii c) 128 && is_ascii s'
  end.

(* ===================================================================== *)
(** ** Exceptions and results *)
(* ===================================================================== *)

Inductive exn : Type :=
| NoResponseError
| UnexpectedResponseError (response : pyval)
| GraphqlError (errors : pyval)
| AuthTokenExpiredError (errors : pyval)
| AuthenticationFailedError (cause : exn)
| TransportFault (detail : string)
| KeyError (key : string)
| TypeError
| AttributeError
| AssertionError
| UnboundLocalError (name : string)
| RecursionError.

Inductive result (A : Type) : Type :=
| Ok (a : A)
| Raise (e : exn).
Arguments Ok {A} a.
Arguments Raise {A} e.

(** [o[k]] for a string key. *)
Definition py_getitem (o : pyval) (k : string) : result pyval :=
  match o with
  | PDict d =>
      match dict_get d k with
      | Some v => Ok v
      | None => Raise (KeyError k)
      end
  | _ => Raise TypeError
  end.

(** [o.get(k, default)]: only dicts have the method. *)
Definition py_get (o : pyval) (k : string) (default : pyval) : result pyval :=
  match o with
  | PDict d =>
      match dict_get d k with
      | Some v => Ok v
      | None => Ok default
      end
  | _ => Raise AttributeError
  end.

(** [o[k] = v] for a string key. *)
Definition py_setitem (o : pyval) (k : string) (v : pyval) : result pyval :=
  match o with
  | PDict d => Ok (PDict (dict_set d k v))
  | _ => Raise TypeError
  end.

Fixpoint chars (s : string) : list pyval :=
  match s with
  | EmptyString => []
  | String c s' => PStr (String c EmptyString) :: chars s'
  end.

(** The items a [for] loop or a comprehension visits. *)
Definition py_iter (o : pyval) : result (list pyval) :=
  match o with
  | PList l => Ok l
  | PDict d => Ok (map (fun kv => PStr (fst kv)) d)
  | PStr s => Ok (chars s)
  | _ => Raise TypeError
  end.

(* ===================================================================== *)
(** ** Value classes of the other modules *)
(* ===================================================================== *)

(** Modelled from the spec: [FeedNode] ([feed.py] is not part of the source
    at hand): [id], [type] (enumerated, e.g. "NewPostcard"),
    [createdAt : timestamp], opaque payload. *)
Record FeedNode : Type := mkFeedNode {
  node_id : pyval;
  node_type : string;
  created_at : option Z;
  node_payload : pyval
}.

(** Modelled from the spec: the feed node type tag of a postcard. *)
Definition NewPostcard : string := "NewPostcard".

(** Modelled from the spec: [SightingFinishStrategy] ([birds.py] is not part
    of the source at hand): [enum{Recognized, ManualSelection,
    ...other-unsupported}]. *)
Inductive SightingFinishStrategy : Type :=
| RECOGNIZED
| MANUAL_SELECTION
| UNSUPPORTED (tag : string).

Definition strategy_eqb (a b : SightingFinishStrategy) : bool :=
  match a, b with
  | RECOGNIZED, RECOGNIZED => true
  | MANUAL_SELECTION, MANUAL_SELECTION => true
  | UNSUPPORTED x, UNSUPPORTED y => String.eqb x y
  | _, _ => false
  end.

(** Modelled from the spec: [Sighting]: [coverMediaId], [isUnlocked : bool]. *)
Record Sighting : Type := mkSighting {
  cover_media : pyval;
  is_unlocked : bool
}.

(** Modelled from the spec: the sighting report of a [PostcardSighting]:
    [reportToken], [finishingStrategy], [sightings : ordered list]. *)
Record SightingReport : Type := mkReport {
  token : pyval;
  finishing_strategy : SightingFinishStrategy;
  sightings : list Sighting
}.

(** The originating postcard kept by [with_postcard]: a raw feed item id
    (a plain value) or a feed node. *)
Inductive postcard_ref : Type :=
| RefValue (v : pyval)
| RefNode (n : FeedNode).

(** Modelled from the spec: [PostcardSighting]: the report plus an optional
    back-reference to the originating postcard. *)
Record PostcardSighting : Type := mkPostcardSighting {
  report : SightingReport;
  postcard : option postcard_ref
}.

Definition with_postcard (p : PostcardSighting) (r : option postcard_ref)
  : PostcardSighting :=
  {| report := report p; postcard := r |}.

(** Modelled from the spec: [Collection] ([media.py] is not part of the
    source at hand): identified by [id], and carrying the remote type tag
    used for filtering.  The object wraps the remote record. *)
Record Collection : Type := mkCollection {
  collection_record : pyval
}.

Definition collection_id (c : Collection) : result pyval :=
  py_getitem (collection_record c) "id".

Definition collection_typename (c : Collection) : result pyval :=
  py_getitem (collection_record c) "__typename".

(** Arguments of the public methods are dynamically typed: a caller can
    pass a plain value, a feed node or a postcard sighting. *)
Inductive pyobj : Type :=
| Val (v : pyval)
| ObjFeedNode (n : FeedNode)
| ObjPostcardSighting (p : PostcardSighting).

(** The back-reference to a postcard argument.  A [PostcardSighting] passed
    as postcard never reaches [with_postcard]. *)
Definition ref_of (o : pyobj) : option postcard_ref :=
  match o with
  | Val v => Some (RefValue v)
  | ObjFeedNode n => Some (RefNode n)
  | ObjPostcardSighting _ => None
  end.

Definition isinstance_str (o : pyobj) : bool :=
  match o with Val (PStr _) => true | _ => false end.

Definition isinstance_FeedNode (o : pyobj) : bool :=
  match o with ObjFeedNode _ => true | _ => false end.

Definition isinstance_PostcardSighting (o : pyobj) : bool :=
  match o with ObjPostcardSighting _ => true | _ => false end.

(* ===================================================================== *)
(** ** Requests, diagnostic output, the world *)
(* ===================================================================== *)

(** The headers of a request: none, or [{"Authorization": f"Bearer {tok}"}]
    with the interpolated attribute kept as a value. *)
Inductive headers : Type :=
| NoHeaders
| Authorization_Bearer (tok : pyval).

Record Request : Type := mkRequest {
  rq_query : string;
  rq_variables : pyval;
  rq_headers : headers
}.

(** What [execute_async] gives back: a parsed body, or a transport fault. *)
Inductive exec_result : Type :=
| Body (response : pyval)
| Fault (detail : string).

(** How [GraphqlError.raise_errors] classifies the error list of a body. *)
Inductive remote_error : Type :=
| TokenExpired
| RemoteOperationError.

Inductive log_level : Type := DEBUG | VERBOSE | INFO | WARNING | ERROR.

Inductive log_arg : Type :=
| LVal (v : pyval)
| LExn (e : exn)
| LObj (o : pyobj)
| LReport (r : SightingReport)
| LDate (d : option Z).

Record log_record : Type := mkLog {
  lg_level : log_level;
  lg_format : string;
  lg_args : list log_arg
}.

(** The world outside the client object.  [sent] and [output] list the most
    recent entry first. *)
Record World : Type := mkWorld {
  sent : list Request;
  output : list log_record;
  ticks : nat
}.

(* ===================================================================== *)
(** ** The environment of the client *)
(* ===================================================================== *)

(** What [client.py] imports: the query documents ([queries]), the GraphQL
    executor ([python_graphql_client]), the error classifier of
    [exceptions.py], the clock, and the value classes [Feeder], [Feed] and
    [Media].  The executor answers a request knowing the requests sent
    before it (most recent first), which covers any remote that is a
    function of the conversation so far.  [str_capitalize] is Python's
    [str.capitalize] on text beyond ASCII, where it follows the case tables
    of Unicode. *)
Record Env : Type := mkEnv {
  SIGN_IN : string;
  REFRESH_AUTH_TOKEN : string;
  ME : string;
  FEED : string;
  POSTCARD_TO_SIGHTING : string;
  FINISH_SIGHTING : string;
  COLLECTIONS : string;
  COLLECTIONS_MEDIA : string;
  DUMP_SCHEMA : string;
  execute_async : list Request -> Request -> exec_result;
  raise_errors : pyval -> option remote_error;
  (** whether [AuthTokenExpiredError] derives from [GraphqlError] *)
  expired_is_GraphqlError : bool;
  now : nat -> Z;
  Feeder : Type;
  Feeder_new : pyval -> Feeder;
  Feeder_update : Feeder -> pyval -> Feeder;
  Feed : Type;
  Feed_new : pyval -> Feed;
  newest_created_at : Feed -> result (option Z);
  filter_newer_than : Feed -> option Z -> result (list FeedNode);
  filter_of_type : Feed -> string -> result (list FeedNode);
  parse_datetime : string -> result Z;
  PostcardSighting_new : pyval -> result PostcardSighting;
  Media : Type;
  Media_new : pyval -> Media;
  str_capitalize : string -> string
}.

(** [s.capitalize()]: computed on ASCII text, taken from the environment
    on any other. *)
Definition capitalize (E : Env) (s : string) : string :=
  if is_ascii s then capitalize_ascii s else str_capitalize E s.

Section Client.

Variable E : Env.

(** The attributes of a [BirdBuddy] instance ([graphql] is the executor of
    the environment). *)
Record Client : Type := mkClient {
  _email : string;
  _password : string;
  _access_token : pyval;
  _refresh_token : pyval;
  _me : pyval;
  _last_feed_date : option Z;
  _feeders : list (pyval * Feeder E);
  _collections : list (pyval * Collection)
}.

(** [BirdBuddy.__init__] *)
Definition __init__ (email password : string) : Client :=
  {| _email := email;
     _password := password;
     _access_token := PNone;
     _refresh_token := PNone;
     _me := PNone;
     _last_feed_date := None;
     _feeders := [];
     _collections := [] |}.

Definition with_access_token (c : Client) (v : pyval) : Client :=
  {| _email := _email c; _password := _password c;
     _access_token := v; _refresh_token := _refresh_token c;
     _me := _me c; _last_feed_date := _last_feed_date c;
     _feeders := _feeders c; _collections := _collections c |}.

Definition with_refresh_token (c : Client) (v : pyval) : Client :=
  {| _email := _email c; _password := _password c;
     _access_token := _access_token c; _refresh_token := v;
     _me := _me c; _last_feed_date := _last_feed_date c;
     _feeders := _feeders c; _collections := _collections c |}.

Definition with_me (c : Client) (v : pyval) : Client :=
  {| _email := _email c; _password := _password c;
     _access_token := _access_token c; _refresh_token := _refresh_token c;
     _me := v; _last_feed_date := _last_feed_date c;
     _feeders := _feeders c; _collections := _collections c |}.

Definition with_last_feed_date (c : Client) (d : option Z) : Client :=
  {| _email := _email c; _password := _password c;
     _access_token := _access_token c; _refresh_token := _refresh_token c;
     _me := _me c; _last_feed_date := d;
     _feeders := _feeders c; _collections := _collections c |}.

Definition with_feeders (c : Client) (m : list (pyval * Feeder E)) : Client :=
  {| _email := _email c; _password := _password c;
     _access_token := _access_token c; _refresh_token := _refresh_token c;
     _me := _me c; _last_feed_date := _last_feed_date c;
     _feeders := m; _collections := _collections c |}.

Definition with_collections (c : Client) (m : list (pyval * Collection))
  : Client :=
  {| _email := _email c; _password := _password c;
     _access_token := _access_token c; _refresh_token := _refresh_token c;
     _me := _me c; _last_feed_date := _last_feed_date c;
     _feeders := _feeders c; _collections := m |}.

(** *** The monad of client methods *)

Definition M (A : Type) : Type := Client -> World -> result A * Client * World.

Definition ret {A} (a : A) : M A := fun c w => (Ok a, c, w).

Definition raise {A} (e : exn) : M A := fun c w => (Raise e, c, w).

Definition bind {A B} (m : M A) (k : A -> M B) : M B :=
  fun c w =>
    match m c w with
    | (Ok a, c', w') => k a c' w'
    | (Raise e, c', w') => (Raise e, c', w')
    end.

Definition lift {A} (r : result A) : M A := fun c w => (r, c, w).

(** [try: m  except <catches> as e: handler e] *)
Definition try_except {A} (m : M A) (catches : exn -> bool) (handler : exn -> M A)
  : M A :=
  fun c w =>
    match m c w with
    | (Ok a, c', w') => (Ok a, c', w')
    | (Raise e, c', w') =>
        if catches e then handler e c' w' else (Raise e, c', w')
    end.

Definition getattr {A} (f : Client -> A) : M A := fun c w => (Ok (f c), c, w).

Definition setattr {A} (upd : Client -> A -> Client) (a : A) : M unit :=
  fun c w => (Ok tt, upd c a, w).

(** [assert b] *)
Definition assert (b : bool) : M unit :=
  if b then ret tt else raise AssertionError.

(** A call to [LOGGER] at the given level. *)
Definition LOGGER (lvl : log_level) (fmt : string) (args : list log_arg)
  : M unit :=
  fun c w =>
    (Ok tt, c,
     {| sent := sent w;
        output := mkLog lvl fmt args :: output w;
        ticks := ticks w |}).

(** [datetime.now()] *)
Definition datetime_now : M Z :=
  fun c w =>
    (Ok (now E (ticks w)), c,
     {| sent := sent w; output := output w; ticks := S (ticks w) |}).

(** [self.graphql.execute_async(query, variables, headers)] *)
Definition graphql_execute_async (rq : Request) : M pyval :=
  fun c w =>
    let w' := {| sent := rq :: sent w; output := output w; ticks := ticks w |} in
    match execute_async E (sent w) rq with
    | Body response => (Ok response, c, w')
    | Fault detail => (Raise (TransportFault detail), c, w')
    end.

Fixpoint for_each {A} (l : list A) (body : A -> M unit) : M unit :=
  match l with
  | [] => ret tt
  | x :: l' => bind (body x) (fun _ => for_each l' body)
  end.

End Client.

Arguments ret {E A} a.
Arguments raise {E A} e.
Arguments bind {E A B} m k.
Arguments lift {E A} r.
Arguments try_except {E A} m catches handler.
Arguments getattr {E A} f.
Arguments setattr {E A} upd a.
Arguments assert {E} b.
Arguments LOGGER {E} lvl fmt args.
Arguments for_each {E A} l body.
Arguments _email {E} c.
Arguments _password {E} c.
Arguments _access_token {E} c.
Arguments _refresh_token {E} c.
Arguments _me {E} c.
Arguments _last_feed_date {E} c.
Arguments _feeders {E} c.
Arguments _collections {E} c.
Arguments with_access_token {E} c v.
Arguments with_refresh_token {E} c v.
Arguments with_me {E} c v.
Arguments with_last_feed_date {E} c d.
Arguments with_feeders {E} c m.
Arguments with_collections {E} c m.

Declare Scope client_scope.
Delimit Scope client_scope with client.
Notation "x <- m ;; k" := (bind m (fun x => k))
  (at level 61, m at next level, right associativity) : client_scope.
Notation "m ;; k" := (bind m (fun _ => k))
  (at level 61, right associativity) : client_scope.
Local Open Scope client_scope.

(* ===================================================================== *)
(** ** Session management and the request pipeline *)
(* ===================================================================== *)

(** [_redact(data, redacted)] *)
Definition _redact (data : pyval) (redacted : bool) : pyval :=
  if redacted then PStr "**REDACTED**" else data.

(** [except GraphqlError]: the class itself and, when the environment says
    so, its token-expiry subclass. *)
Definition isinstance_GraphqlError (E : Env) (e : exn) : bool :=
  match e with
  | GraphqlError _ => true
  | AuthTokenExpiredError _ => expired_is_GraphqlError E
  | _ => false
  end.

(** [except AuthTokenExpiredError] *)
Definition isinstance_AuthTokenExpiredError (e : exn) : bool :=
  match e with AuthTokenExpiredError _ => true | _ => false end.

(** [GraphqlError.raise_errors(errors)] *)
Definition GraphqlError_raise_errors (E : Env) (errors : pyval) : result unit :=
  match raise_errors E errors with
  | None => Ok tt
  | Some TokenExpired => Raise (AuthTokenExpiredError errors)
  | Some RemoteOperationError => Raise (GraphqlError errors)
  end.

Section Session.

Variable E : Env.

Definition _needs_login (c : Client E) : bool := is_None (_refresh_token c).

Definition _needs_refresh (c : Client E) : bool := is_None (_access_token c).

Definition _headers (c : Client E) : headers :=
  Authorization_Bearer (_access_token c).

Definition _clear : M E unit :=
  setattr with_access_token PNone ;;
  setattr with_refresh_token PNone ;;
  setattr with_me PNone.

(** One turn of the loop of [_save_me].  [f["id"]] is read once here; the
    source reads it again for the store, with the same outcome. *)
Definition save_feeder (f : pyval) : M E unit :=
  fid <- lift (py_getitem f "id") ;;
  (if hashable fid then ret tt else raise TypeError) ;;
  cache <- getattr _feeders ;;
  match cache_get cache fid with
  | Some old =>
      setattr with_feeders (cache_set cache fid (Feeder_update E old f))
  | None =>
      setattr with_feeders (cache_set cache fid (Feeder_new E f))
  end.

Definition _save_me (me_data : pyval) : M E bool :=
  if negb (truthy me_data) then ret false
  else
    stamp <- datetime_now E ;;
    me_data <- lift (py_setitem me_data "__last_updated" (PDatetime stamp)) ;;
    setattr with_me me_data ;;
    feeders <- lift (py_get me_data "feeders" (PList [])) ;;
    fs <- lift (py_iter feeders) ;;
    for_each fs save_feeder ;;
    ret true.

(** The methods below call [self._make_request]; [self_make_request] is
    that method as seen from inside its own body. *)
Variable self_make_request : string -> pyval -> bool -> bool -> M E pyval.

Definition _login_with : M E bool :=
  email <- getattr _email ;;
  password <- getattr _password ;;
  assert (truthy (PStr email) && truthy (PStr password)) ;;
  let variables :=
    PDict [("emailSignInInput",
            PDict [("email", PStr email); ("password", PStr password)])] in
  data <- try_except
            (self_make_request (SIGN_IN E) variables false true)
            (isinstance_GraphqlError E)
            (fun err =>
               LOGGER ERROR "Error logging in: %s" [LExn err] ;;
               raise (AuthenticationFailedError err)) ;;
  result <- lift (py_getitem data "authEmailSignIn") ;;
  access <- lift (py_getitem result "accessToken") ;;
  setattr with_access_token access ;;
  refresh <- lift (py_getitem result "refreshToken") ;;
  setattr with_refresh_token refresh ;;
  me <- lift (py_getitem result "me") ;;
  _save_me me.

Definition _refresh_access_token_with : M E bool :=
  tok <- getattr _refresh_token ;;
  assert (truthy tok) ;;
  let variables := PDict [("refreshTokenInput", PDict [("token", tok)])] in
  data <- try_except
            (self_make_request (REFRESH_AUTH_TOKEN E) variables false true)
            (isinstance_GraphqlError E)
            (fun exc =>
               LOGGER ERROR "Error refreshing access token: %s" [LExn exc] ;;
               setattr with_refresh_token PNone ;;
               raise (AuthenticationFailedError exc)) ;;
  tokens <- lift (py_getitem data "authRefreshToken") ;;
  access <- lift (py_get tokens "accessToken" PNone) ;;
  setattr with_access_token access ;;
  refresh <- lift (py_get tokens "refreshToken" PNone) ;;
  setattr with_refresh_token refresh ;;
  LOGGER INFO "Access token refreshed" [] ;;
  nr <- getattr _needs_refresh ;;
  ret (negb nr).

Definition _check_auth_with : M E bool :=
  nl <- getattr _needs_login ;;
  if nl then
    LOGGER DEBUG "Login required" [] ;;
    _login_with
  else
    nr <- getattr _needs_refresh ;;
    (if nr then
       LOGGER DEBUG "Access token needs to be refreshed" [] ;;
       _refresh_access_token_with ;;
       ret tt
     else ret tt) ;;
    nl' <- getattr _needs_login ;;
    ret (negb nl').

(** [query in [queries.auth.REFRESH_AUTH_TOKEN, queries.auth.SIGN_IN]] *)
Definition should_redact (query : string) : bool :=
  String.eqb query (REFRESH_AUTH_TOKEN E) || String.eqb query (SIGN_IN E).

(** The body of [_make_request].  The [return] inside the [except] clause
    leaves the method: the handler yields [Some] of the retried call's
    result, and the rest of the body runs only after [None]. *)
Definition _make_request_body
  (query : string) (variables : pyval) (auth reauth : bool) : M E pyval :=
  hdrs <- (if auth then
             _check_auth_with ;;
             getattr _headers
           else ret NoHeaders) ;;
  LOGGER DEBUG "> GraphQL %s, vars=%s"
    [LVal (PStr (first_line query));
     LVal (_redact variables (should_redact query))] ;;
  response <- graphql_execute_async E
                {| rq_query := query;
                   rq_variables := variables;
                   rq_headers := hdrs |} ;;
  (if negb (truthy response) || negb (isinstance_dict response)
   then raise NoResponseError else ret tt) ;;
  errors <- lift (py_get response "errors" (PList [])) ;;
  returned <- try_except
                (lift (GraphqlError_raise_errors E errors) ;; ret None)
                isinstance_AuthTokenExpiredError
                (fun e =>
                   setattr with_access_token PNone ;;
                   if auth && reauth then
                     r <- self_make_request query variables auth false ;;
                     ret (Some r)
                   else raise e) ;;
  match returned with
  | Some r => ret r
  | None =>
      result <- lift (py_get response "data" PNone) ;;
      (if negb (isinstance_dict result)
       then raise (UnexpectedResponseError response) else ret tt) ;;
      LOGGER VERBOSE "< response: %s"
        [LVal (_redact result (should_redact query))] ;;
      ret result
  end.

End Session.

(** Python runs the recursion of [_make_request] on its call stack and
    raises [RecursionError] when the stack is exhausted.  The method calls
    itself with [auth=False] (from login and refresh) or with
    [reauth=False] (the retry), so three frames are all it ever uses:
    see [_make_request_unfold] and [_make_request_unique] below. *)
Fixpoint _make_request_depth (E : Env) (frames : nat)
  (query : string) (variables : pyval) (auth reauth : bool) : M E pyval :=
  match frames with
  | O => raise RecursionError
  | S n =>
      _make_request_body E (_make_request_depth E n) query variables auth reauth
  end.

Definition _make_request (E : Env) := _make_request_depth E 3.

Definition _login (E : Env) : M E bool := _login_with E (_make_request E).

Definition _refresh_access_token (E : Env) : M E bool :=
  _refresh_access_token_with E (_make_request E).

Definition _check_auth (E : Env) : M E bool :=
  _check_auth_with E (_make_request E).

(* ===================================================================== *)
(** ** The public methods *)
(* ===================================================================== *)

Definition rbind {A B} (r : result A) (k : A -> result B) : result B :=
  match r with
  | Ok a => k a
  | Raise e => Raise e
  end.

(** The [since] argument of [refresh_feed]: the sentinel default, an
    explicit [None], a [datetime] or a [str]. *)
Inductive since_arg : Type :=
| _NO_VALUE
| SinceNone
| SinceDatetime (t : Z)
| SinceStr (s : string).

Definition since_of_date (d : option Z) : since_arg :=
  match d with
  | Some t => SinceDatetime t
  | None => SinceNone
  end.

Definition option_Z_eqb (a b : option Z) : bool :=
  match a, b with
  | Some x, Some y => x =? y
  | None, None => true
  | _, _ => false
  end.

(** Reading a local variable that may not have been assigned yet. *)
Definition read_local {E A} (name : string) (v : option A) : M E A :=
  match v with
  | Some a => ret a
  | None => raise (UnboundLocalError name)
  end.

(** The dict comprehension of [refresh_collections]; a later record with
    the id of an earlier one replaces its value. *)
Fixpoint collections_of_type (typename : string) (records : list pyval)
  (acc : list (pyval * Collection)) : result (list (pyval * Collection)) :=
  match records with
  | [] => Ok acc
  | d :: records' =>
      rbind (py_getitem d "__typename") (fun t =>
        if eq_str t typename then
          let c := mkCollection d in
          rbind (collection_id c) (fun k =>
            if hashable k
            then collections_of_type typename records' (cache_set acc k c)
            else Raise TypeError)
        else collections_of_type typename records' acc)
  end.

Section Api.

Variable E : Env.

Definition dump_schema : M E pyval :=
  _make_request E (DUMP_SCHEMA E) PNone false true.

Definition refresh : M E bool :=
  data <- _make_request E (ME E) PNone true true ;;
  LOGGER DEBUG "Feeder data refreshed successfully: %s" [LVal data] ;;
  me <- lift (py_getitem data "me") ;;
  _save_me E me.

(** [last] and [before] are accepted and not forwarded. *)
Definition feed (first after last before : pyval) : M E (Feed E) :=
  let variables := [("first", first)] in
  let variables :=
    if truthy after then dict_set variables "after" after else variables in
  data <- _make_request E (FEED E) (PDict variables) true true ;;
  me <- lift (py_getitem data "me") ;;
  fd <- lift (py_getitem me "feed") ;;
  ret (Feed_new E fd).

Definition refresh_feed (since : since_arg) : M E (list FeedNode) :=
  since <- match since with
           | _NO_VALUE =>
               d <- getattr _last_feed_date ;;
               ret (since_of_date d)
           | _ => ret since
           end ;;
  since <- match since with
           | SinceStr s =>
               t <- lift (parse_datetime E s) ;;
               ret (Some t)
           | SinceDatetime t => ret (Some t)
           | _ => ret None
           end ;;
  fd <- feed (PInt 20) PNone PNone PNone ;;
  newest_date <- lift (newest_created_at E fd) ;;
  last <- getattr _last_feed_date ;;
  (if negb (option_Z_eqb newest_date last) then
     LOGGER DEBUG "Updating latest seen Feed timestamp: %s -> %s"
       [LDate last; LDate newest_date] ;;
     setattr with_last_feed_date newest_date
   else ret tt) ;;
  lift (filter_newer_than E fd since).

Definition feed_nodes (node_type : string) : M E (list FeedNode) :=
  fd <- feed (PInt 20) PNone PNone PNone ;;
  lift (filter_of_type E fd node_type).

Definition new_postcards : M E (list FeedNode) := feed_nodes NewPostcard.

Definition sighting_from_postcard (postcard : pyobj) : M E PostcardSighting :=
  assigned <- match postcard with
              | Val (PStr s) => ret (Some (PStr s))
              | ObjFeedNode n =>
                  assert (String.eqb (node_type n) NewPostcard) ;;
                  ret (Some (node_id n))
              | _ => ret None
              end ;;
  postcard_id <- read_local "postcard_id" assigned ;;
  let variables :=
    PDict [("sightingCreateFromPostcardInput",
            PDict [("feedItemId", postcard_id)])] in
  result <- _make_request E (POSTCARD_TO_SIGHTING E) variables true true ;;
  data <- lift (py_getitem result "sightingCreateFromPostcard") ;;
  sighting <- lift (PostcardSighting_new E data) ;;
  ret (with_postcard sighting (ref_of postcard)).

(** The variables of the finish mutation. *)
Definition finish_variables (feed_item_id : pyval) (r : SightingReport) : pyval :=
  PDict [("sightingReportPostcardFinishInput",
          PDict [("feedItemId", feed_item_id);
                 ("defaultCoverMedia",
                  PList (map cover_media (filter is_unlocked (sightings r))));
                 ("notSelectedMediaIds", PList []);
                 ("reportToken", token r)])].

Definition finish_postcard (feed_item_id : pyval) (sighting_result : pyobj)
  : M E bool :=
  match sighting_result with
  | ObjPostcardSighting p =>
      let rep := report p in
      let strategy := finishing_strategy rep in
      if negb (strategy_eqb strategy RECOGNIZED) then
        LOGGER WARNING "Requires manual selection: %s" [LReport rep] ;;
        ret false
      else
        data <- _make_request E (FINISH_SIGHTING E)
                  (finish_variables feed_item_id rep) true true ;;
        fin <- lift (py_getitem data "sightingReportPostcardFinish") ;;
        success <- lift (py_getitem fin "success") ;;
        ret (truthy success)
  | _ =>
      LOGGER WARNING "Unexpected sighting result: %s" [LObj sighting_result] ;;
      ret false
  end.

Definition refresh_collections (of_type : string)
  : M E (list (pyval * Collection)) :=
  data <- _make_request E (COLLECTIONS E) PNone true true ;;
  me <- lift (py_getitem data "me") ;;
  records <- lift (py_getitem me "collections") ;;
  records <- lift (py_iter records) ;;
  collections <- lift (collections_of_type
                         ("Collection" ++ capitalize E of_type) records []) ;;
  cache <- getattr _collections ;;
  setattr with_collections (cache_update cache collections) ;;
  getattr _collections.

(** The [collections] property. *)
Definition collections : M E (list (pyval * Collection)) :=
  nl <- getattr (_needs_login E) ;;
  if nl then
    LOGGER WARNING
      "BirdBuddy is not logged in. Call refresh_collections() first" [] ;;
    ret []
  else getattr _collections.

(** The dict comprehension of [collection]. *)
Fixpoint media_of_edges (edges : list pyval) (acc : list (pyval * Media E))
  : result (list (pyval * Media E)) :=
  match edges with
  | [] => Ok acc
  | edge :: edges' =>
      rbind (py_getitem edge "node") (fun n =>
      rbind (py_getitem n "media") (fun node =>
      rbind (py_getitem node "id") (fun k =>
        if hashable k
        then media_of_edges edges' (cache_set acc k (Media_new E node))
        else Raise TypeError)))
  end.

Definition collection (collection_id : pyval) : M E (list (pyval * Media E)) :=
  let variables := PDict [("collectionId", collection_id)] in
  data <- _make_request E (COLLECTIONS_MEDIA E) variables true true ;;
  col <- lift (py_getitem data "collection") ;;
  media <- lift (py_getitem col "media") ;;
  edges <- lift (py_getitem media "edges") ;;
  edges <- lift (py_iter edges) ;;
  lift (media_of_edges edges []).

(** The [feeders] property. *)
Definition feeders : M E (list (pyval * Feeder E)) :=
  nl <- getattr (_needs_login E) ;;
  if nl then
    LOGGER WARNING "BirdBuddy is not logged in. Call refresh() first" [] ;;
    ret []
  else getattr _feeders.

End Api.

(* ===================================================================== *)
(** ** A sample environment *)
(* ===================================================================== *)

(** A concrete environment on which the methods run by computation: a
    remote that answers from a script, and simple stand-ins for the value
    classes of the other modules. *)
Module Sample.

(** The remote answers the [n]-th request of a conversation with the
    [n]-th entry of the script. *)
Definition scripted (script : list exec_result)
  (history : list Request) (rq : Request) : exec_result :=
  nth (length history) script (Fault "connection closed").

(** Modelled from the spec: the error list of a body is a list of
    [{message, extensions?}]; an empty or absent list is no error.  The
    sample classifier reads the code of the first error. *)
Definition sample_raise_errors (errors : pyval) : option remote_error :=
  match errors with
  | PList (err :: _) =>
      match rbind (py_getitem err "extensions")
                  (fun x => py_getitem x "code") with
      | Ok code =>
          if eq_str code "AUTH_TOKEN_EXPIRED_ERROR"
          then Some TokenExpired else Some RemoteOperationError
      | Raise _ => Some RemoteOperationError
      end
  | _ => None
  end.

(** Modelled from the spec: updating a cached feeder overwrites the fields
    provided and retains the absent ones. *)
Definition sample_Feeder_update (old f : pyval) : pyval :=
  match old, f with
  | PDict a, PDict b =>
      PDict (fold_left (fun acc kv => dict_set acc (fst kv) (snd kv)) b a)
  | _, _ => old
  end.

Definition node_of_edge (edge : pyval) : result FeedNode :=
  rbind (py_getitem edge "node") (fun n =>
  rbind (py_getitem n "id") (fun i =>
  rbind (py_getitem n "__typename") (fun t =>
  rbind (py_getitem n "createdAt") (fun d =>
    Ok {| node_id := i;
          node_type := match t with PStr s => s | _ => "" end;
          created_at := match d with PInt z => Some z | _ => None end;
          node_payload := n |})))).

Fixpoint nodes_of_edges (edges : list pyval) : result (list FeedNode) :=
  match edges with
  | [] => Ok []
  | e :: edges' =>
      rbind (node_of_edge e) (fun n =>
      rbind (nodes_of_edges edges') (fun ns => Ok (n :: ns)))
  end.

Definition sample_nodes (fd : pyval) : result (list FeedNode) :=
  rbind (py_getitem fd "edges") (fun es =>
  rbind (py_iter es) nodes_of_edges).

(** Modelled from the spec: feed nodes are delivered newest-first, so the
    newest edge of a page is its first one.  Timestamps of the sample feed
    are integers. *)
Definition sample_newest_created_at (fd : pyval) : result (option Z) :=
  rbind (sample_nodes fd) (fun ns =>
    match ns with
    | n :: _ => Ok (created_at n)
    | [] => Raise AttributeError
    end).

Definition newer_than (since : option Z) (n : FeedNode) : bool :=
  match since, created_at n with
  | Some s, Some t => s <? t
  | None, _ => true
  | Some _, None => false
  end.

Definition sample_filter_newer_than (fd : pyval) (since : option Z)
  : result (list FeedNode) :=
  rbind (sample_nodes fd) (fun ns => Ok (filter (newer_than since) ns)).

Definition sample_filter_of_type (fd : pyval) (ty : string)
  : result (list FeedNode) :=
  rbind (sample_nodes fd) (fun ns =>
    Ok (filter (fun n => String.eqb (node_type n) ty) ns)).

Definition digit_of (c : ascii) : option Z :=
  let n := nat_of_ascii c in
  if (Nat.leb 48 n && Nat.leb n 57)%bool then Some (Z.of_nat (n - 48)) else None.

Fixpoint parse_digits (s : string) (acc : Z) : result Z :=
  match s with
  | EmptyString => Ok acc
  | String c s' =>
      match digit_of c with
      | Some d => parse_digits s' (10 * acc + d)
      | None => Raise TypeError
      end
  end.

Definition sample_sighting (s : pyval) : result Sighting :=
  rbind (py_getitem s "coverMedia") (fun m =>
  rbind (py_getitem s "isUnlocked") (fun u =>
    Ok {| cover_media := m; is_unlocked := truthy u |})).

Fixpoint sample_sightings (l : list pyval) : result (list Sighting) :=
  match l with
  | [] => Ok []
  | s :: l' =>
      rbind (sample_sighting s) (fun x =>
      rbind (sample_sightings l') (fun xs => Ok (x :: xs)))
  end.

Definition sample_strategy (v : pyval) : SightingFinishStrategy :=
  match v with
  | PStr s =>
      if String.eqb s "RECOGNIZED" then RECOGNIZED
      else if String.eqb s "MANUAL_SELECTION" then MANUAL_SELECTION
      else UNSUPPORTED s
  | _ => UNSUPPORTED ""
  end.

Definition sample_PostcardSighting_new (data : pyval) : result PostcardSighting :=
  rbind (py_getitem data "reportToken") (fun tok =>
  rbind (py_getitem data "finishingStrategy") (fun st =>
  rbind (py_getitem data "sightings") (fun ss =>
  rbind (py_iter ss) (fun l =>
  rbind (sample_sightings l) (fun xs =>
    Ok {| report := {| token := tok;
                       finishing_strategy := sample_strategy st;
                       sightings := xs |};
          postcard := None |}))))).

Definition env (script : list exec_result) : Env :=
  {| SIGN_IN := "mutation authEmailSignIn";
     REFRESH_AUTH_TOKEN := "mutation authRefreshToken";
     ME := "query me";
     FEED := "query meFeed";
     POSTCARD_TO_SIGHTING := "mutation sightingCreateFromPostcard";
     FINISH_SIGHTING := "mutation sightingReportPostcardFinish";
     COLLECTIONS := "query meCollections";
     COLLECTIONS_MEDIA := "query collectionsMedia";
     DUMP_SCHEMA := "query IntrospectionQuery";
     execute_async := scripted script;
     raise_errors := sample_raise_errors;
     expired_is_GraphqlError := true;
     now := fun n => 1000 + Z.of_nat n;
     Feeder := pyval;
     Feeder_new := fun f => f;
     Feeder_update := sample_Feeder_update;
     Feed := pyval;
     Feed_new := fun fd => fd;
     newest_created_at := sample_newest_created_at;
     filter_newer_than := sample_filter_newer_than;
     filter_of_type := sample_filter_of_type;
     parse_datetime := fun s => parse_digits s 0;
     PostcardSighting_new := sample_PostcardSighting_new;
     Media := pyval;
     Media_new := fun node => node;
     str_capitalize := fun s => s |}.

Definition world0 : World := {| sent := []; output := []; ticks := 0 |}.

(** Bodies the sample remote sends. *)
Definition data_body (data : list (string * pyval)) : exec_result :=
  Body (PDict [("data", PDict data)]).

Definition expired_body : exec_result :=
  Body (PDict [("errors",
                PList [PDict [("message", PStr "Access token expired");
                              ("extensions",
                               PDict [("code",
                                       PStr "AUTH_TOKEN_EXPIRED_ERROR")])]])]).

Definition sign_in_body (access refresh me : pyval) : exec_result :=
  data_body [("authEmailSignIn",
              PDict [("accessToken", access);
                     ("refreshToken", refresh);
                     ("me", me)])].

Definition refresh_body (access refresh : pyval) : exec_result :=
  data_body [("authRefreshToken",
              PDict [("accessToken", access); ("refreshToken", refresh)])].

Definition profile : pyval :=
  PDict [("name", PStr "u");
         ("feeders", PList [PDict [("id", PStr "f1"); ("name", PStr "Garden")]])].

(** A client that has logged in. *)
Definition active (E : Env) : Client E :=
  with_refresh_token
    (with_access_token (__init__ E "u@x.com" "pw") (PStr "AT1")) (PStr "RT1").

End Sample.


(* ===================================================================== *)
(** ** Vocabulary of the properties *)
(* ===================================================================== *)

(** Two methods are the same when they run alike from every state. *)
Definition meq {E A} (m m' : M E A) : Prop := forall c w, m c w = m' c w.

Definition method (E : Env) : Type := string -> pyval -> bool -> bool -> M E pyval.

(** Two candidates for [self._make_request] that agree on the calls with
    [auth=False]. *)
Definition agree_noauth {E} (f g : method E) : Prop :=
  forall q v r, meq (f q v false r) (g q v false r).

(** ... and on the calls with [auth=True, reauth=False]. *)
Definition agree_noreauth {E} (f g : method E) : Prop :=
  forall q v, meq (f q v true false) (g q v true false).

(** Hoare triples over the monad of methods; the postcondition sees the
    result. *)
Definition hoare {E A} (P : Client E -> World -> Prop) (m : M E A)
  (Q : result A -> Client E -> World -> Prop) : Prop :=
  forall c w, P c w ->
    match m c w with
    | (r, c', w') => Q r c' w'
    end.

(** An assertion that survives a method, however it ends. *)
Definition preserves {E A} (I : Client E -> World -> Prop) (m : M E A) : Prop :=
  hoare I m (fun _ => I).

(** *** Outcomes of runs *)

Definition result_of {E A} (out : result A * Client E * World) : result A :=
  fst (fst out).

Definition client_of {E A} (out : result A * Client E * World) : Client E :=
  snd (fst out).

Definition world_of {E A} (out : result A * Client E * World) : World :=
  snd out.

(** *** One exchange with the remote *)

(** What one exchange with the remote amounts to for [_make_request]. *)
Inductive exchange : Type :=
| TransportFailed (detail : string)
| NoResponse
| Expired (errors : pyval)
| Rejected (errors : pyval)
| Unexpected (response : pyval)
| Success (data : pyval).

Definition classify (E : Env) (x : exec_result) : exchange :=
  match x with
  | Fault detail => TransportFailed detail
  | Body (PDict d) =>
      match d with
      | [] => NoResponse
      | _ :: _ =>
          let errors :=
            match dict_get d "errors" with Some e => e | None => PList [] end in
          match raise_errors E errors with
          | Some TokenExpired => Expired errors
          | Some RemoteOperationError => Rejected errors
          | None =>
              match dict_get d "data" with
              | Some (PDict data) => Success (PDict data)
              | _ => Unexpected (PDict d)
              end
          end
      end
  | Body _ => NoResponse
  end.

(** The record the pipeline logs before sending a request ... *)
Definition request_record (E : Env) (query : string) (variables : pyval)
  : log_record :=
  mkLog DEBUG "> GraphQL %s, vars=%s"
    [LVal (PStr (first_line query));
     LVal (if String.eqb query (REFRESH_AUTH_TOKEN E)
              || String.eqb query (SIGN_IN E)
           then PStr "**REDACTED**" else variables)].

(** ... and the one it logs before returning the data of a response. *)
Definition response_record (E : Env) (query : string) (data : pyval)
  : log_record :=
  mkLog VERBOSE "< response: %s"
    [LVal (if String.eqb query (REFRESH_AUTH_TOKEN E)
              || String.eqb query (SIGN_IN E)
           then PStr "**REDACTED**" else data)].

Definition sent_and_logged (E : Env) (rq : Request) (w : World) : World :=
  {| sent := rq :: sent w;
     output := request_record E (rq_query rq) (rq_variables rq) :: output w;
     ticks := ticks w |}.

Definition logged (rec : log_record) (w : World) : World :=
  {| sent := sent w; output := rec :: output w; ticks := ticks w |}.

(** The part of [_make_request] after the headers are built: log, send,
    classify.  [on_expired] is what the [except] clause goes on with once
    the access token is cleared. *)
Definition send_phase (E : Env) (query : string) (variables : pyval)
  (hdrs : headers) (on_expired : exn -> M E pyval) : M E pyval :=
  fun c w =>
    let rq := {| rq_query := query; rq_variables := variables;
                 rq_headers := hdrs |} in
    let w1 := sent_and_logged E rq w in
    match classify E (execute_async E (sent w) rq) with
    | TransportFailed detail => (Raise (TransportFault detail), c, w1)
    | NoResponse => (Raise NoResponseError, c, w1)
    | Expired errors =>
        on_expired (AuthTokenExpiredError errors) (with_access_token c PNone) w1
    | Rejected errors => (Raise (GraphqlError errors), c, w1)
    | Unexpected response => (Raise (UnexpectedResponseError response), c, w1)
    | Success data => (Ok data, c, logged (response_record E query data) w1)
    end.

(** *** Error kinds *)

(** The error kinds the package documents for its callers. *)
Definition documented_error (e : exn) : bool :=
  match e with
  | NoResponseError | UnexpectedResponseError _ | GraphqlError _
  | AuthTokenExpiredError _ | AuthenticationFailedError _ => true
  | _ => false
  end.

(** *** The entity cache *)

(** No two entries of a cache have the same key. *)
Inductive distinct_keys {V : Type} : list (pyval * V) -> Prop :=
| distinct_nil : distinct_keys []
| distinct_cons k v m :
    cache_get m k = None -> distinct_keys m -> distinct_keys ((k, v) :: m).

(** What the spec says of one feeder record of a profile: merged into the
    cached feeder of the same id, or inserted as a new feeder. *)
Definition merge_feeder (E : Env) (cache : list (pyval * Feeder E)) (f : pyval)
  : list (pyval * Feeder E) :=
  match py_getitem f "id" with
  | Ok k =>
      match cache_get cache k with
      | Some old => cache_set cache k (Feeder_update E old f)
      | None => cache_set cache k (Feeder_new E f)
      end
  | Raise _ => cache
  end.

Definition merge_feeders (E : Env) (fs : list pyval)
  (cache : list (pyval * Feeder E)) : list (pyval * Feeder E) :=
  fold_left (merge_feeder E) fs cache.

(** A feeder record with a usable id. *)
Definition has_id (f : pyval) : Prop :=
  exists k, py_getitem f "id" = Ok k /\ hashable k = true.

(** The feeder records of a profile: none for an empty or absent profile,
    the items under ["feeders"] (none when the key is absent) otherwise. *)
Definition profile_feeders (me : pyval) : result (list pyval) :=
  if truthy me then
    rbind (py_get me "feeders" (PList [])) py_iter
  else Ok [].

(** The profile with its last-updated stamp. *)
Definition stamped (me : pyval) (t : Z) : pyval :=
  match me with
  | PDict d => PDict (dict_set d "__last_updated" (PDatetime t))
  | _ => me
  end.

Definition tick (w : World) : World :=
  {| sent := sent w; output := output w; ticks := S (ticks w) |}.

(** Every entry of a collections mapping carries the type tag of birds. *)
Definition only_bird_entries (m : list (pyval * Collection)) : Prop :=
  forall k col, In (k, col) m ->
    collection_typename col = Ok (PStr "CollectionBird").

(** The collections the sample remote reports: one of birds, one of places. *)
Definition sample_collections : exec_result :=
  Sample.data_body
    [("me",
      PDict [("collections",
              PList [PDict [("id", PStr "c1");
                            ("__typename", PStr "CollectionBird")];
                     PDict [("id", PStr "c2");
                            ("__typename", PStr "CollectionPlace")]])])].

(** A conversation in which the places are fetched before the birds: log
    in and fetch the collections of type "place", then those of type
    "bird". *)
Module CollectionsScenario.

Definition E : Env :=
  Sample.env [Sample.sign_in_body (PStr "AT1") (PStr "RT1") Sample.profile;
              sample_collections;
              sample_collections].

Definition first_call :=
  refresh_collections E "place" (__init__ E "u@x.com" "pw") Sample.world0.

Definition second_call :=
  refresh_collections E "bird" (client_of first_call) (world_of first_call).

End CollectionsScenario.

(** *** The feed watermark *)

(** Order of watermarks: an unset watermark is before every timestamp. *)
Definition date_le (a b : option Z) : Prop :=
  match a, b with
  | None, _ => True
  | Some _, None => False
  | Some x, Some y => x <= y
  end.

(** A feed page of the sample remote with one node created at [t]. *)
Definition sample_feed_page (t : Z) : exec_result :=
  Sample.data_body
    [("me",
      PDict [("feed",
              PDict [("edges",
                      PList [PDict [("node",
                                     PDict [("id", PStr "n");
                                            ("__typename", PStr "NewPostcard");
                                            ("createdAt", PInt t)])]])])])].

(** A conversation in which the newest node of the second feed page is
    older than that of the first: log in, fetch a page whose newest node
    was created at 10, fetch a page whose newest node was created at 5. *)
Module WatermarkScenario.

Definition E : Env :=
  Sample.env [Sample.sign_in_body (PStr "AT1") (PStr "RT1") Sample.profile;
              sample_feed_page 10;
              sample_feed_page 5].

Definition first_call :=
  refresh_feed E _NO_VALUE (__init__ E "u@x.com" "pw") Sample.world0.

Definition second_call :=
  refresh_feed E _NO_VALUE (client_of first_call) (world_of first_call).

End WatermarkScenario.

(** *** The session *)

(** The variables of the sign-in mutation. *)
Definition login_variables {E} (c : Client E) : pyval :=
  PDict [("emailSignInInput",
          PDict [("email", PStr (_email c)); ("password", PStr (_password c))])].

(** The session holds both tokens. *)
Definition usable {E} (c : Client E) : Prop :=
  _access_token c <> PNone /\ _refresh_token c <> PNone.

(** A sign-in that returns both tokens and an empty profile. *)
Module EmptyProfileScenario.

Definition E : Env :=
  Sample.env [Sample.sign_in_body (PStr "AT1") (PStr "RT1") (PDict [])].

Definition call := _check_auth E (__init__ E "u@x.com" "pw") Sample.world0.

End EmptyProfileScenario.

(** The session invariant: an access token is never held without a refresh
    token. *)
Definition session_invariant {E} (c : Client E) : Prop :=
  _access_token c <> PNone -> _refresh_token c <> PNone.

(** A token pair as the remote returns it: when it carries an access token
    it carries a refresh token too. *)
Definition token_pair_ok (pair : pyval) : bool :=
  match py_get pair "accessToken" PNone with
  | Ok access =>
      if is_None access then true
      else
        match py_get pair "refreshToken" PNone with
        | Ok refresh => negb (is_None refresh)
        | Raise _ => true
        end
  | Raise _ => true
  end.

(** The remote never answers a sign-in or a token refresh with an access
    token and no refresh token. *)
Definition paired_tokens (E : Env) : Prop :=
  forall history rq response data pair,
    execute_async E history rq = Body response ->
    py_get response "data" PNone = Ok data ->
    (rq_query rq = SIGN_IN E /\ py_getitem data "authEmailSignIn" = Ok pair) \/
    (rq_query rq = REFRESH_AUTH_TOKEN E /\
     py_getitem data "authRefreshToken" = Ok pair) ->
    token_pair_ok pair = true.

(** The operations of a client: its public methods and properties, the
    session methods [_clear], [_check_auth], [_login] and
    [_refresh_access_token], the pipeline [_make_request] with any
    arguments, and [_save_me] on any value. *)
Inductive api_call : Type :=
| Call_dump_schema
| Call_refresh
| Call_feed (first after last before : pyval)
| Call_refresh_feed (since : since_arg)
| Call_feed_nodes (node_type : string)
| Call_new_postcards
| Call_sighting_from_postcard (postcard : pyobj)
| Call_finish_postcard (feed_item_id : pyval) (sighting_result : pyobj)
| Call_refresh_collections (of_type : string)
| Call_collections
| Call_collection (collection_id : pyval)
| Call_feeders
| Call__clear
| Call__check_auth
| Call__login
| Call__refresh_access_token
| Call__make_request (query : string) (variables : pyval) (auth reauth : bool)
| Call__save_me (me_data : pyval).

Definition ignore {E A} (m : M E A) : M E unit := _ <- m ;; ret tt.

Definition run_call (E : Env) (call : api_call) : M E unit :=
  match call with
  | Call_dump_schema => ignore (dump_schema E)
  | Call_refresh => ignore (refresh E)
  | Call_feed first after last before => ignore (feed E first after last before)
  | Call_refresh_feed since => ignore (refresh_feed E since)
  | Call_feed_nodes node_type => ignore (feed_nodes E node_type)
  | Call_new_postcards => ignore (new_postcards E)
  | Call_sighting_from_postcard postcard =>
      ignore (sighting_from_postcard E postcard)
  | Call_finish_postcard feed_item_id sighting_result =>
      ignore (finish_postcard E feed_item_id sighting_result)
  | Call_refresh_collections of_type => ignore (refresh_collections E of_type)
  | Call_collections => ignore (collections E)
  | Call_collection collection_id => ignore (collection E collection_id)
  | Call_feeders => ignore (feeders E)
  | Call__clear => _clear E
  | Call__check_auth => ignore (_check_auth E)
  | Call__login => ignore (_login E)
  | Call__refresh_access_token => ignore (_refresh_access_token E)
  | Call__make_request query variables auth reauth =>
      ignore (_make_request E query variables auth reauth)
  | Call__save_me me_data => ignore (_save_me E me_data)
  end.

(** The states a client can be in: as constructed, or after one more
    operation, however that operation ended. *)
Inductive reachable (E : Env) : Client E -> World -> Prop :=
| reachable_init email password w :
    reachable E (__init__ E email password) w
| reachable_call c w call :
    reachable E c w ->
    reachable E (client_of (run_call E call c w))
                (world_of (run_call E call c w)).

(** The token refresh is run as the client itself runs it: in a session
    that holds no access token.  Any other operation is run at any time. *)
Definition refresh_due {E} (call : api_call) (c : Client E) : Prop :=
  call = Call__refresh_access_token -> _access_token c = PNone.

(** The states reached by operations of which the token refresh is due
    whenever it is run. *)
Inductive reachable_in_order (E : Env) : Client E -> World -> Prop :=
| in_order_init email password w :
    reachable_in_order E (__init__ E email password) w
| in_order_call c w call :
    reachable_in_order E c w ->
    refresh_due call c ->
    reachable_in_order E (client_of (run_call E call c w))
                         (world_of (run_call E call c w)).

(** A sign-in that returns an access token and no refresh token. *)
Module UnpairedScenario.

Definition E : Env :=
  Sample.env [Sample.sign_in_body (PStr "AT1") PNone Sample.profile].

Definition call :=
  run_call E Call_refresh (__init__ E "u@x.com" "pw") Sample.world0.

End UnpairedScenario.

(** A conversation of well-formed answers: sign-in, an expired token, a
    token refresh, a profile. *)
Module PairedScenario.

Definition script : list exec_result :=
  [Sample.sign_in_body (PStr "AT1") (PStr "RT1") Sample.profile;
   Sample.expired_body;
   Sample.refresh_body (PStr "AT2") (PStr "RT2");
   Sample.data_body [("me", Sample.profile)]].

Definition E : Env := Sample.env script.

Definition call :=
  run_call E Call_refresh (__init__ E "u@x.com" "pw") Sample.world0.

End PairedScenario.

(** *** Traces *)

(** A request that carries the bearer header: an attempt of an
    authenticated call, as opposed to a sign-in or a token refresh. *)
Definition bearer (rq : Request) : bool :=
  match rq_headers rq with
  | Authorization_Bearer _ => true
  | NoHeaders => false
  end.

Definition attempts (l : list Request) : nat := length (filter bearer l).

(** The requests the session sends on its own behalf. *)
Definition session_request (E : Env) (rq : Request) : Prop :=
  rq_headers rq = NoHeaders /\
  (rq_query rq = SIGN_IN E \/ rq_query rq = REFRESH_AUTH_TOKEN E).

Definition is_request_record (rec : log_record) : bool :=
  String.eqb (lg_format rec) "> GraphQL %s, vars=%s".

Definition record_of (E : Env) (rq : Request) : log_record :=
  request_record E (rq_query rq) (rq_variables rq).

(** The world has moved on from a point where [S] had been sent and [O]
    logged: the requests sent since then are [ok], at most [n] of them carry
    the bearer header, and each of them has its record in the output, in
    the same order. *)
Definition extends (E : Env) (S : list Request) (O : list log_record)
  (ok : Request -> Prop) (n : nat) : Client E -> World -> Prop :=
  fun _ w =>
    exists ns no,
      sent w = (ns ++ S)%list /\
      output w = (no ++ O)%list /\
      filter is_request_record no = map (record_of E) ns /\
      (attempts ns <= n)%nat /\
      Forall ok ns.

(** The remote answers a request with a body that reports token expiry. *)
Definition reports_expiry (E : Env) (history : list Request) (rq : Request)
  (errors : pyval) : Prop :=
  exists response,
    execute_async E history rq = Body response /\
    truthy response = true /\
    isinstance_dict response = true /\
    py_get response "errors" (PList []) = Ok errors /\
    raise_errors E errors = Some TokenExpired.

(** The remote answers a request with a body free of errors that carries
    the data mapping [data]. *)
Definition answers (E : Env) (history : list Request) (rq : Request)
  (data : pyval) : Prop :=
  exists response,
    execute_async E history rq = Body response /\
    py_get response "data" PNone = Ok data /\
    raise_errors E (match py_get response "errors" (PList []) with
                    | Ok errors => errors
                    | Raise _ => PNone
                    end) = None /\
    isinstance_dict data = true.

(** A conversation in which the access token has expired and the fresh
    one is refused as expired too: an attempt, a token refresh, the retry. *)
Module ExpiryScenario.

Definition E : Env :=
  Sample.env [Sample.expired_body;
              Sample.refresh_body (PStr "AT2") (PStr "RT2");
              Sample.expired_body].

Definition c0 : Client E := Sample.active E.

Definition after_first_attempt : World :=
  sent_and_logged E (mkRequest "query me" PNone (_headers E c0)) Sample.world0.

Definition call := _make_request E "query me" PNone true true c0 Sample.world0.

Definition errors : pyval :=
  PList [PDict [("message", PStr "Access token expired");
                ("extensions",
                 PDict [("code", PStr "AUTH_TOKEN_EXPIRED_ERROR")])]].

End ExpiryScenario.

(** The scenario of the spec: a recognized report with two sightings, one
    of them unlocked with cover media "m1"; the remote reports success. *)
Module FinishScenario.

Definition E : Env :=
  Sample.env
    [Sample.data_body
       [("sightingReportPostcardFinish", PDict [("success", PBool true)])]].

Definition sighting : PostcardSighting :=
  {| report := {| token := PStr "tok";
                  finishing_strategy := RECOGNIZED;
                  sightings := [ {| cover_media := PStr "m1";
                                    is_unlocked := true |};
                                 {| cover_media := PStr "m2";
                                    is_unlocked := false |} ] |};
     postcard := Some (RefValue (PStr "item-42")) |}.

Definition call :=
  finish_postcard E (PStr "item-42") (ObjPostcardSighting sighting)
    (Sample.active E) Sample.world0.

End FinishScenario.

(* ===================================================================== *)
(** ** Vocabulary of further properties *)
(* ===================================================================== *)

(** *** Answers of the remote *)

(** Where a call stands once its headers are built: after the auth check
    when [auth] is set, where it started otherwise. *)
Definition after_auth (E : Env) (auth : bool) (c : Client E) (w : World)
  (c1 : Client E) (w1 : World) (h : headers) : Prop :=
  if auth then
    (exists b, _check_auth E c w = (Ok b, c1, w1)) /\ h = _headers E c1
  else c1 = c /\ w1 = w /\ h = NoHeaders.

(** The remote answers a request with a body that reports an error other
    than token expiry. *)
Definition reports_error (E : Env) (history : list Request) (rq : Request)
  (errors : pyval) : Prop :=
  exists response,
    execute_async E history rq = Body response /\
    truthy response = true /\
    isinstance_dict response = true /\
    py_get response "errors" (PList []) = Ok errors /\
    raise_errors E errors = Some RemoteOperationError.

(** The remote answers a request with nothing, or with something that is
    not a mapping. *)
Definition answers_nothing (E : Env) (history : list Request) (rq : Request)
  : Prop :=
  exists response,
    execute_async E history rq = Body response /\
    (truthy response = false \/ isinstance_dict response = false).

(** The remote answers a request with a body free of errors whose data is
    missing or not a mapping. *)
Definition answers_without_data (E : Env) (history : list Request)
  (rq : Request) (response : pyval) : Prop :=
  execute_async E history rq = Body response /\
  truthy response = true /\
  isinstance_dict response = true /\
  (exists errors,
      py_get response "errors" (PList []) = Ok errors /\
      raise_errors E errors = None) /\
  (exists data,
      py_get response "data" PNone = Ok data /\ isinstance_dict data = false).

(** A remote that reports an error without a code, and one that answers a
    call with a body that has no data. *)
Module FailureScenario.

Definition errors : pyval := PList [PDict [("message", PStr "Not Implemented")]].

Definition rejecting : Env := Sample.env [Body (PDict [("errors", errors)])].

Definition silent : Env := Sample.env [Body PNone].

Definition dataless : Env := Sample.env [Body (PDict [("extensions", PDict [])])].

Definition answering : Env :=
  Sample.env [Sample.data_body [("me", Sample.profile)]].

End FailureScenario.

(** *** Sign-in and token refresh *)

(** The variables of the token-refresh mutation. *)
Definition refresh_variables {E} (c : Client E) : pyval :=
  PDict [("refreshTokenInput", PDict [("token", _refresh_token c)])].

(** Both credentials are non-empty. *)
Definition has_credentials {E} (c : Client E) : Prop :=
  _email c <> "" /\ _password c <> "".

Module SessionScenario.

(** A client that holds a refresh token and no access token. *)
Definition expired (E : Env) : Client E :=
  with_refresh_token (__init__ E "u@x.com" "pw") (PStr "RT1").

Definition refreshing : Env :=
  Sample.env [Sample.refresh_body (PStr "AT2") (PStr "RT2")].

Definition signing_in : Env :=
  Sample.env [Sample.sign_in_body (PStr "AT1") (PStr "RT1") Sample.profile].

(** A sign-in answered with an access token only. *)
Definition half_pair : Env :=
  Sample.env
    [Sample.data_body [("authEmailSignIn", PDict [("accessToken", PStr "AT1")])]].

End SessionScenario.

(** *** Lookups after a merge *)

(** What a lookup of [k] finds among the incoming collection records: the
    last record of the wanted type whose id is [k]. *)
Fixpoint incoming_of_type (typename : string) (records : list pyval)
  (k : pyval) (found : option Collection) : option Collection :=
  match records with
  | [] => found
  | d :: records' =>
      incoming_of_type typename records' k
        (match py_getitem d "__typename", py_getitem d "id" with
         | Ok t, Ok i =>
             if eq_str t typename && key_eqb i k
             then Some (mkCollection d) else found
         | _, _ => found
         end)
  end.

(** What is wrong with the id of a feeder record, if anything: the error of
    reading it, or the id being unhashable. *)
Definition feeder_id_error (f : pyval) : option exn :=
  match py_getitem f "id" with
  | Raise e => Some e
  | Ok k => if hashable k then None else Some TypeError
  end.

Module MergeScenario.

(** Collections of which the second lacks its type tag. *)
Definition untagged : Env :=
  Sample.env
    [Sample.data_body
       [("me",
         PDict [("collections",
                 PList [PDict [("id", PStr "c1");
                               ("__typename", PStr "CollectionBird")];
                        PDict [("id", PStr "c3")]])])]].

Definition collecting : Env := Sample.env [sample_collections].

Definition garden : pyval := PDict [("id", PStr "f1"); ("name", PStr "Garden")].

(** A profile whose second feeder record has no id. *)
Definition profile_with_bad_feeder : pyval :=
  PDict [("feeders", PList [garden; PDict [("name", PStr "Porch")]])].

End MergeScenario.

(** *** The public methods *)

(** The feed item id that [sighting_from_postcard] sends for a postcard: the
    string itself, or the id of a feed node of type [NewPostcard]. *)
Definition postcard_id_of (postcard : pyobj) : option pyval :=
  match postcard with
  | Val (PStr s) => Some (PStr s)
  | ObjFeedNode n =>
      if String.eqb (node_type n) NewPostcard then Some (node_id n) else None
  | _ => None
  end.

(** The bound that [refresh_feed] filters by, as the first lines of the
    method resolve it. *)
Definition resolve_since (E : Env) (c : Client E) (since : since_arg)
  : result (option Z) :=
  match since with
  | _NO_VALUE => Ok (_last_feed_date c)
  | SinceNone => Ok None
  | SinceDatetime t => Ok (Some t)
  | SinceStr s => rbind (parse_datetime E s) (fun t => Ok (Some t))
  end.

(** The list of edges in the data of a collection media response. *)
Definition media_edges (data : pyval) : result (list pyval) :=
  rbind (py_getitem data "collection") (fun col =>
  rbind (py_getitem col "media") (fun media =>
  rbind (py_getitem media "edges") py_iter)).

(** What a lookup of [k] finds among the edges: the media record of the
    last edge whose media id is [k]. *)
Fixpoint media_of_id (edges : list pyval) (k : pyval) (found : option pyval)
  : option pyval :=
  match edges with
  | [] => found
  | edge :: edges' =>
      media_of_id edges' k
        (match rbind (py_getitem edge "node")
                 (fun n => py_getitem n "media") with
         | Ok node =>
             match py_getitem node "id" with
             | Ok i => if key_eqb i k then Some node else found
             | Raise _ => found
             end
         | Raise _ => found
         end)
  end.

Module PublicScenario.

(** A feed node that is not a postcard. *)
Definition feeder_node : FeedNode :=
  {| node_id := PStr "n7";
     node_type := "NewFeeder";
     created_at := Some 7;
     node_payload := PDict [] |}.

(** The remote turns the postcard into a recognized sighting. *)
Definition converting : Env :=
  Sample.env
    [Sample.data_body
       [("sightingCreateFromPostcard",
         PDict [("reportToken", PStr "tok");
                ("finishingStrategy", PStr "RECOGNIZED");
                ("sightings", PList [])])]].

(** One feed page whose only node was created at 10. *)
Definition paging : Env := Sample.env [sample_feed_page 10].

Definition photo (id : string) : pyval :=
  PDict [("node", PDict [("media", PDict [("id", PStr id)])])].

(** A collection with two media. *)
Definition showing : Env :=
  Sample.env
    [Sample.data_body
       [("collection",
         PDict [("media", PDict [("edges", PList [photo "m1"; photo "m2"])])])]].

End PublicScenario.

(** *** The diagnostic output *)



(* ===================================================================== *)
(** ** Reasoning about methods *)
(* ===================================================================== *)

Lemma meq_refl {E A} (m : M E A) : meq m m.
Proof. intros c w; reflexivity. Qed.

Lemma meq_sym {E A} (m m' : M E A) : meq m m' -> meq m' m.
Proof. intros H c w; symmetry; apply H. Qed.

Lemma meq_trans {E A} (m1 m2 m3 : M E A) : meq m1 m2 -> meq m2 m3 -> meq m1 m3.
Proof. intros H1 H2 c w; rewrite H1; apply H2. Qed.

Lemma bind_ext {E A B} (m m' : M E A) (k k' : A -> M E B) :
  meq m m' -> (forall a, meq (k a) (k' a)) -> meq (bind m k) (bind m' k').
Proof.
  intros Hm Hk c w. unfold bind. rewrite Hm.
  destruct (m' c w) as [[[a|e] c1] w1]; [apply Hk | reflexivity].
Qed.

Lemma try_except_ext {E A} (m m' : M E A) catches (h h' : exn -> M E A) :
  meq m m' -> (forall e, meq (h e) (h' e)) ->
  meq (try_except m catches h) (try_except m' catches h').
Proof.
  intros Hm Hh c w. unfold try_except. rewrite Hm.
  destruct (m' c w) as [[[a|e] c1] w1]; [reflexivity|].
  destruct (catches e); [apply Hh | reflexivity].
Qed.

Lemma if_ext {E A} (b : bool) (m1 m1' m2 m2' : M E A) :
  meq m1 m1' -> meq m2 m2' ->
  meq (if b then m1 else m2) (if b then m1' else m2').
Proof. destruct b; auto. Qed.

Ltac meq_step :=
  first
    [ apply meq_refl
    | assumption
    | apply bind_ext; [| intro]
    | apply try_except_ext; [| intro]
    | apply if_ext ].

(** *** The recursion of [_make_request] *)

Section Recursion.

Variable E : Env.

Lemma body_noauth (f g : method E) :
  agree_noauth (_make_request_body E f) (_make_request_body E g).
Proof. intros q v r c w. reflexivity. Qed.

Lemma _login_with_ext (f g : method E) :
  agree_noauth f g -> meq (_login_with E f) (_login_with E g).
Proof.
  intros H. unfold _login_with.
  repeat meq_step. apply H.
Qed.

Lemma _refresh_access_token_with_ext (f g : method E) :
  agree_noauth f g ->
  meq (_refresh_access_token_with E f) (_refresh_access_token_with E g).
Proof.
  intros H. unfold _refresh_access_token_with.
  repeat meq_step. apply H.
Qed.

Lemma _check_auth_with_ext (f g : method E) :
  agree_noauth f g -> meq (_check_auth_with E f) (_check_auth_with E g).
Proof.
  intros H. unfold _check_auth_with.
  pose proof (_login_with_ext _ _ H).
  pose proof (_refresh_access_token_with_ext _ _ H).
  repeat meq_step.
Qed.

Lemma body_noreauth (f g : method E) :
  agree_noauth f g ->
  agree_noreauth (_make_request_body E f) (_make_request_body E g).
Proof.
  intros H q v. unfold _make_request_body.
  pose proof (_check_auth_with_ext _ _ H).
  repeat meq_step.
Qed.

Lemma body_reauth (f g : method E) :
  agree_noauth f g -> agree_noreauth f g ->
  forall q v,
    meq (_make_request_body E f q v true true)
        (_make_request_body E g q v true true).
Proof.
  intros H H1 q v. unfold _make_request_body.
  pose proof (_check_auth_with_ext _ _ H).
  repeat meq_step. simpl. repeat meq_step. apply H1.
Qed.

(** Three frames are enough, whatever lies beyond them. *)
Lemma three_frames (f : method E) q v auth reauth :
  meq (_make_request_body E (_make_request_body E (_make_request_body E f))
         q v auth reauth)
      (_make_request E q v auth reauth).
Proof.
  unfold _make_request. simpl _make_request_depth.
  destruct auth.
  - destruct reauth.
    + apply body_reauth.
      * apply body_noauth.
      * apply body_noreauth, body_noauth.
    + apply body_noreauth, body_noauth.
  - apply body_noauth.
Qed.

(** [_make_request] satisfies the recursive definition of the source. *)
Lemma _make_request_unfold q v auth reauth :
  meq (_make_request E q v auth reauth)
      (_make_request_body E (_make_request E) q v auth reauth).
Proof.
  apply meq_sym. unfold _make_request at 1.
  change (_make_request_depth E 3)
    with (_make_request_body E (_make_request_depth E 2)).
  change (_make_request_depth E 2)
    with (_make_request_body E (_make_request_depth E 1)).
  apply three_frames.
Qed.

(** ... and it is the only method that does. *)
Lemma _make_request_unique (f : method E) :
  (forall q v auth reauth,
      meq (f q v auth reauth) (_make_request_body E f q v auth reauth)) ->
  forall q v auth reauth,
    meq (f q v auth reauth) (_make_request E q v auth reauth).
Proof.
  intros Hf.
  assert (H0 : agree_noauth f (_make_request_body E f)) by (intros q v r; apply Hf).
  assert (H1 : agree_noauth f (_make_request_body E (_make_request_body E f))).
  { intros q v r. eapply meq_trans; [apply Hf|]. apply body_noauth. }
  assert (H2 : agree_noreauth f (_make_request_body E (_make_request_body E f))).
  { intros q v. eapply meq_trans; [apply Hf|]. apply body_noreauth, H0. }
  intros q v auth reauth.
  eapply meq_trans; [| apply three_frames with (f := f)].
  eapply meq_trans; [apply Hf|].
  destruct auth; [destruct reauth|].
  - apply body_reauth; assumption.
  - apply body_noreauth; assumption.
  - apply body_noauth.
Qed.

(** More frames change nothing. *)
Lemma _make_request_depth_stable n q v auth reauth :
  meq (_make_request_depth E (3 + n) q v auth reauth)
      (_make_request E q v auth reauth).
Proof.
  change (_make_request_depth E (3 + n))
    with (_make_request_body E (_make_request_body E
            (_make_request_body E (_make_request_depth E n)))).
  apply three_frames.
Qed.

(** *** The pipeline in closed form *)

(** What follows the auth check in the body of [_make_request]. *)
Lemma body_send (f : method E) q v reauth c w :
  _make_request_body E f q v false reauth c w
  = send_phase E q v NoHeaders raise c w.
Proof.
  unfold _make_request_body, send_phase, sent_and_logged, request_record,
    logged, response_record, should_redact, _redact, bind, LOGGER,
    graphql_execute_async, try_except, lift, ret, raise, setattr.
  cbn.
  destruct (execute_async E (sent w) _) as [resp|detail]; cbn; [|reflexivity].
  destruct resp as [ |b|z|s|t|l|d]; cbn; try reflexivity.
  { destruct b; reflexivity. }
  { destruct (z =? 0); reflexivity. }
  { destruct (s =? "")%string; reflexivity. }
  { destruct l; reflexivity. }
  unfold GraphqlError_raise_errors.
  generalize (dict_get d "errors"), (dict_get d "data"). intros oe od.
  destruct d as [|kv d]; cbn; [reflexivity|].
  destruct oe; cbn;
    (destruct (raise_errors E _) as [[|]|]; cbn; try reflexivity);
    (destruct od as [[ | | | | | | ]|]; cbn; reflexivity).
Qed.

Lemma body_auth (f : method E) q v reauth c w :
  _make_request_body E f q v true reauth c w
  = match _check_auth_with E f c w with
    | (Ok _, c1, w1) =>
        send_phase E q v (_headers E c1)
          (if reauth then fun _ => f q v true false else raise) c1 w1
    | (Raise e, c1, w1) => (Raise e, c1, w1)
    end.
Proof.
  unfold _make_request_body. unfold bind at 1. unfold bind at 1.
  destruct (_check_auth_with E f c w) as [[[ok|e] c1] w1]; [|reflexivity].
  unfold send_phase, sent_and_logged, request_record,
    logged, response_record, should_redact, _redact, bind, LOGGER,
    graphql_execute_async, try_except, lift, ret, raise, setattr, getattr.
  cbn.
  destruct (execute_async E (sent w1) _) as [resp|detail]; cbn; [|reflexivity].
  destruct resp as [ |b|z|s|t|l|d]; cbn; try reflexivity.
  { destruct b; reflexivity. }
  { destruct (z =? 0); reflexivity. }
  { destruct (s =? "")%string; reflexivity. }
  { destruct l; reflexivity. }
  unfold GraphqlError_raise_errors.
  generalize (dict_get d "errors"), (dict_get d "data"). intros oe od.
  destruct d as [|kv d]; cbn; [reflexivity|].
  destruct oe; cbn;
    (destruct (raise_errors E _) as [[|]|]; cbn; try reflexivity);
    try (destruct od as [[ | | | | | | ]|]; cbn; reflexivity);
    (destruct reauth; cbn; [|reflexivity]);
    match goal with
    | |- context [f ?a ?b ?x ?y ?z ?t] =>
        destruct (f a b x y z t) as [[[?|?] ?] ?]; reflexivity
    end.
Qed.

Lemma _make_request_noauth q v reauth c w :
  _make_request E q v false reauth c w = send_phase E q v NoHeaders raise c w.
Proof. rewrite _make_request_unfold. apply body_send. Qed.

Lemma _make_request_auth q v reauth c w :
  _make_request E q v true reauth c w
  = match _check_auth E c w with
    | (Ok _, c1, w1) =>
        send_phase E q v (_headers E c1)
          (if reauth then fun _ => _make_request E q v true false else raise)
          c1 w1
    | (Raise e, c1, w1) => (Raise e, c1, w1)
    end.
Proof. rewrite _make_request_unfold. apply body_auth. Qed.

End Recursion.

(* ===================================================================== *)
(** ** Assertions that survive methods *)
(* ===================================================================== *)

Section Hoare.

Variable E : Env.

Lemma hoare_bind {A B} P (m : M E A) (k : A -> M E B) (R : A -> _) Q :
  hoare P m (fun r c w =>
               match r with
               | Ok a => R a c w
               | Raise e => Q (Raise e) c w
               end) ->
  (forall a, hoare (R a) (k a) Q) ->
  hoare P (bind m k) Q.
Proof.
  intros Hm Hk c w HP. specialize (Hm c w HP). unfold bind.
  destruct (m c w) as [[[a|e] c1] w1]; [apply Hk, Hm | exact Hm].
Qed.

Lemma hoare_conseq {A} (P P' : Client E -> World -> Prop) (m : M E A)
  (Q Q' : result A -> Client E -> World -> Prop) :
  (forall c w, P' c w -> P c w) ->
  (forall r c w, Q r c w -> Q' r c w) ->
  hoare P m Q -> hoare P' m Q'.
Proof.
  intros HP HQ H c w HP'. specialize (H c w (HP c w HP')).
  destruct (m c w) as [[r c1] w1]. auto.
Qed.

Lemma preserves_meq {A} I (m m' : M E A) :
  meq m m' -> preserves I m' -> preserves I m.
Proof. intros Heq H c w HI. rewrite Heq. apply H, HI. Qed.

Lemma preserves_ret {A} I (a : A) : preserves I (@ret E A a).
Proof. intros c w HI. exact HI. Qed.

Lemma preserves_raise {A} I e : preserves I (@raise E A e).
Proof. intros c w HI. exact HI. Qed.

Lemma preserves_lift {A} I (r : result A) : preserves I (@lift E A r).
Proof. intros c w HI. exact HI. Qed.

Lemma preserves_getattr {A} I (f : Client E -> A) : preserves I (getattr f).
Proof. intros c w HI. exact HI. Qed.

Lemma preserves_assert I b : preserves I (@assert E b).
Proof. destruct b; intros c w HI; exact HI. Qed.

Lemma preserves_read_local {A} I name (v : option A) :
  preserves I (@read_local E A name v).
Proof. destruct v; intros c w HI; exact HI. Qed.

Lemma preserves_bind {A B} I (m : M E A) (k : A -> M E B) :
  preserves I m -> (forall a, preserves I (k a)) -> preserves I (bind m k).
Proof.
  intros Hm Hk c w HI. specialize (Hm c w HI). unfold bind.
  destruct (m c w) as [[[a|e] c1] w1]; [apply Hk, Hm | exact Hm].
Qed.

Lemma preserves_try_except {A} I (m : M E A) catches h :
  preserves I m -> (forall e, preserves I (h e)) ->
  preserves I (try_except m catches h).
Proof.
  intros Hm Hh c w HI. specialize (Hm c w HI). unfold try_except.
  destruct (m c w) as [[[a|e] c1] w1]; [exact Hm|].
  destruct (catches e); [apply Hh, Hm | exact Hm].
Qed.

Lemma preserves_for_each {A} I (l : list A) body :
  (forall x, preserves I (body x)) -> preserves I (@for_each E A l body).
Proof.
  intros Hb. induction l as [|x l IH]; cbn [for_each].
  - apply preserves_ret.
  - apply preserves_bind; [apply Hb | intros _; exact IH].
Qed.

Lemma preserves_setattr {A} (I : Client E -> World -> Prop)
  (upd : Client E -> A -> Client E) a :
  (forall c w, I c w -> I (upd c a) w) -> preserves I (setattr upd a).
Proof. intros H c w HI. apply H, HI. Qed.

Lemma preserves_LOGGER (I : Client E -> World -> Prop) lvl fmt args :
  (forall c w, I c w -> I c (logged (mkLog lvl fmt args) w)) ->
  preserves I (LOGGER lvl fmt args).
Proof. intros H c w HI. apply H, HI. Qed.

Lemma preserves_datetime_now (I : Client E -> World -> Prop) :
  (forall c w, I c w ->
     I c {| sent := sent w; output := output w; ticks := S (ticks w) |}) ->
  preserves I (datetime_now E).
Proof. intros H c w HI. apply H, HI. Qed.

End Hoare.

(** Splits a [preserves] goal along the structure of the method; what is
    left are the methods called and the attribute updates. *)
Ltac pres_step :=
  match goal with
  | |- preserves _ (bind _ _) => apply preserves_bind; [| intro]
  | |- preserves _ (ret _) => apply preserves_ret
  | |- preserves _ (raise _) => apply preserves_raise
  | |- preserves _ (lift _) => apply preserves_lift
  | |- preserves _ (getattr _) => apply preserves_getattr
  | |- preserves _ (assert _) => apply preserves_assert
  | |- preserves _ (read_local _ _) => apply preserves_read_local
  | |- preserves _ (try_except _ _ _) => apply preserves_try_except; [| intro]
  | |- preserves _ (for_each _ _) => apply preserves_for_each; intro
  | |- preserves _ (setattr _ _) => apply preserves_setattr
  | |- preserves _ (LOGGER _ _ _) => apply preserves_LOGGER
  | |- preserves _ (datetime_now _) => apply preserves_datetime_now
  | |- preserves _ (if ?b then _ else _) => destruct b
  | |- preserves _ (match ?x with _ => _ end) => destruct x
  end.

(** *** Attributes the session code leaves alone *)

Section Frames.

Variable E : Env.
Variable J : Client E -> Prop.

Hypothesis J_me : forall c v, J c -> J (with_me c v).
Hypothesis J_feeders : forall c m, J c -> J (with_feeders c m).

Lemma _save_me_frame me : preserves (fun c _ => J c) (_save_me E me).
Proof.
  unfold _save_me, save_feeder.
  repeat pres_step; intros; auto.
Qed.

Hypothesis J_access : forall c v, J c -> J (with_access_token c v).
Hypothesis J_refresh : forall c v, J c -> J (with_refresh_token c v).

Lemma send_phase_frame q v h on_expired :
  (forall e, preserves (fun c _ => J c) (on_expired e)) ->
  preserves (fun c _ => J c) (send_phase E q v h on_expired).
Proof.
  intros Hexp c w HJ. unfold send_phase.
  destruct (classify E _); auto.
  apply Hexp. auto.
Qed.

Lemma _make_request_noauth_frame q v r :
  preserves (fun c _ => J c) (_make_request E q v false r).
Proof.
  eapply preserves_meq; [intros c w; apply _make_request_noauth|].
  apply send_phase_frame. intros e. apply preserves_raise.
Qed.

Lemma _login_frame : preserves (fun c _ => J c) (_login E).
Proof.
  unfold _login, _login_with.
  pose proof _make_request_noauth_frame. pose proof _save_me_frame.
  repeat first [pres_step | solve [auto]]; intros; auto.
Qed.

Lemma _refresh_access_token_frame :
  preserves (fun c _ => J c) (_refresh_access_token E).
Proof.
  unfold _refresh_access_token, _refresh_access_token_with.
  pose proof _make_request_noauth_frame.
  repeat first [pres_step | solve [auto]]; intros; auto.
Qed.

Lemma _check_auth_frame : preserves (fun c _ => J c) (_check_auth E).
Proof.
  unfold _check_auth, _check_auth_with.
  pose proof _login_frame. pose proof _refresh_access_token_frame.
  repeat first [solve [auto] | pres_step]; intros; auto.
Qed.

Lemma _make_request_frame q v auth reauth :
  preserves (fun c _ => J c) (_make_request E q v auth reauth).
Proof.
  assert (Hno : forall q v, preserves (fun c _ => J c)
                              (_make_request E q v true false)).
  { intros q0 v0 c w HJ. rewrite _make_request_auth.
    pose proof (_check_auth_frame c w HJ) as H.
    destruct (_check_auth E c w) as [[[ok|e] c1] w1]; [|exact H].
    apply send_phase_frame; [|exact H]. intros e. apply preserves_raise. }
  destruct auth; [|apply _make_request_noauth_frame].
  intros c w HJ. rewrite _make_request_auth.
  pose proof (_check_auth_frame c w HJ) as H.
  destruct (_check_auth E c w) as [[[ok|e] c1] w1]; [|exact H].
  apply send_phase_frame; [|exact H].
  intros e. destruct reauth; [apply Hno | apply preserves_raise].
Qed.

End Frames.

(* ===================================================================== *)
(** ** Following a run step by step *)
(* ===================================================================== *)

Section Inversion.

Variable E : Env.

Lemma bind_Ok_inv {A B} (m : M E A) (k : A -> M E B) c w b c' w' :
  bind m k c w = (Ok b, c', w') ->
  exists a c1 w1, m c w = (Ok a, c1, w1) /\ k a c1 w1 = (Ok b, c', w').
Proof.
  unfold bind. destruct (m c w) as [[[a|e] c1] w1]; [|discriminate].
  intros H. exists a, c1, w1. auto.
Qed.

Lemma try_except_Ok_inv {A} (m : M E A) catches h c w b c' w' :
  try_except m catches h c w = (Ok b, c', w') ->
  m c w = (Ok b, c', w') \/
  exists e c1 w1, m c w = (Raise e, c1, w1) /\ catches e = true /\
                  h e c1 w1 = (Ok b, c', w').
Proof.
  unfold try_except. destruct (m c w) as [[[a|e] c1] w1]; [auto|].
  destruct (catches e) eqn:Hc; [|discriminate].
  intros H. right. exists e, c1, w1. auto.
Qed.

Lemma assert_Ok_inv b (c : Client E) w u c' w' :
  assert b c w = (Ok u, c', w') -> b = true /\ c' = c /\ w' = w.
Proof. destruct b; cbn; intros H; inversion H; auto. Qed.

End Inversion.

(** [step H] follows a run [H : (x <- m ;; k) c w = (Ok b, c', w')] one
    statement further. *)
Ltac prim_inv H :=
  first
    [ apply assert_Ok_inv in H; destruct H as (? & ? & ?); subst
    | apply try_except_Ok_inv in H
    | progress (cbv [getattr setattr lift ret LOGGER datetime_now] in H);
      inversion H; subst; clear H
    | idtac ].

Ltac step H :=
  let a := fresh "a" in
  let c := fresh "c" in
  let w := fresh "w" in
  let H0 := fresh "H" in
  apply bind_Ok_inv in H; destruct H as (a & c & w & H0 & H);
  prim_inv H0.

(* ===================================================================== *)
(** ** Runs of the sample environment *)
(* ===================================================================== *)

Example capitalize_bird (E : Env) : capitalize E "bird" = "Bird".
Proof. reflexivity. Qed.

Example capitalize_lowers_the_rest (E : Env) : capitalize E "bIRD" = "Bird".
Proof. reflexivity. Qed.

Example first_line_of_query :
  first_line ("query me {" ++ String "010"%char "  me { id } }") = "query me {".
Proof. reflexivity. Qed.

(** Logging in installs both tokens and fills the feeder cache. *)
Example login_installs_tokens :
  let E := Sample.env [Sample.sign_in_body (PStr "AT1") (PStr "RT1")
                         Sample.profile] in
  let out := _login E (__init__ E "u@x.com" "pw") Sample.world0 in
  result_of out = Ok true /\
  _access_token (client_of out) = PStr "AT1" /\
  _refresh_token (client_of out) = PStr "RT1" /\
  map fst (_feeders (client_of out)) = [PStr "f1"].
Proof. vm_compute. auto. Qed.

(** A rejected sign-in raises the authentication failure and leaves the
    client without tokens. *)
Example login_rejected :
  let errors := PList [PDict [("message", PStr "Bad credentials")]] in
  let E := Sample.env [Body (PDict [("errors", errors)])] in
  let out := _login E (__init__ E "u@x.com" "pw") Sample.world0 in
  result_of out = Raise (AuthenticationFailedError (GraphqlError errors)) /\
  _access_token (client_of out) = PNone /\
  _refresh_token (client_of out) = PNone.
Proof. vm_compute. auto. Qed.

(** An expired access token is refreshed and the call made again. *)
Example expired_token_recovered :
  let E := Sample.env [Sample.expired_body;
                       Sample.refresh_body (PStr "AT2") (PStr "RT2");
                       Sample.data_body [("me", Sample.profile)]] in
  let out := _make_request E (ME E) PNone true true (Sample.active E)
               Sample.world0 in
  result_of out = Ok (PDict [("me", Sample.profile)]) /\
  _access_token (client_of out) = PStr "AT2" /\
  map rq_headers (sent (world_of out))
  = [Authorization_Bearer (PStr "AT2"); NoHeaders;
     Authorization_Bearer (PStr "AT1")].
Proof. vm_compute. auto. Qed.

(** A second [refresh_feed] over an unchanged feed returns nothing new. *)
Example refresh_feed_twice :
  let E := Sample.env [sample_feed_page 10; sample_feed_page 10] in
  let first := refresh_feed E _NO_VALUE (Sample.active E) Sample.world0 in
  let second := refresh_feed E _NO_VALUE (client_of first) (world_of first) in
  option_map (@length FeedNode)
    (match result_of first with Ok l => Some l | Raise _ => None end) = Some 1%nat /\
  _last_feed_date (client_of first) = Some 10 /\
  result_of second = Ok [].
Proof. vm_compute. auto. Qed.

#[local] Arguments _make_request : simpl never.
#[local] Arguments _check_auth : simpl never.
#[local] Arguments _login : simpl never.
#[local] Arguments _refresh_access_token : simpl never.
#[local] Arguments _save_me : simpl never.
#[local] Arguments feed : simpl never.

(* ===================================================================== *)
(** ** The session invariant *)
(* ===================================================================== *)

Section SessionInvariant.

Variable E : Env.

Lemma classify_Success history rq data :
  classify E (execute_async E history rq) = Success data ->
  exists response,
    execute_async E history rq = Body response /\
    py_get response "data" PNone = Ok data /\
    raise_errors E (match py_get response "errors" (PList []) with
                    | Ok errors => errors
                    | Raise _ => PNone
                    end) = None /\
    isinstance_dict data = true.
Proof.
  unfold classify.
  destruct (execute_async E history rq) as [resp|]; [|discriminate].
  destruct resp as [ | | | | | |d]; try discriminate.
  destruct d as [|kv d]; [discriminate|].
  destruct (raise_errors E _) as [[|]|] eqn:Herr; try discriminate.
  destruct (dict_get (kv :: d) "data") as [[ | | | | | |x]|] eqn:Hd;
    try discriminate.
  intros H. inversion H; subst. exists (PDict (kv :: d)).
  cbn [py_get]. rewrite Hd.
  destruct (dict_get (kv :: d) "errors"); auto.
Qed.

Lemma token_pair_getitem pair access :
  token_pair_ok pair = true ->
  py_getitem pair "accessToken" = Ok access ->
  access <> PNone ->
  exists refresh,
    py_getitem pair "refreshToken" = Ok refresh /\ refresh <> PNone.
Proof.
  unfold token_pair_ok. destruct pair as [ | | | | | |d]; try discriminate.
  cbn [py_get py_getitem].
  destruct (dict_get d "accessToken") as [a|]; [|discriminate].
  intros Hok Ha Hne. inversion Ha; subst.
  destruct access; try congruence;
    (cbn [is_None] in Hok;
     destruct (dict_get d "refreshToken") as [r|];
     [exists r; split; [reflexivity|]; destruct r; cbn in Hok; congruence
     | cbn in Hok; discriminate]).
Qed.

Lemma token_pair_get pair access refresh :
  token_pair_ok pair = true ->
  py_get pair "accessToken" PNone = Ok access ->
  py_get pair "refreshToken" PNone = Ok refresh ->
  access <> PNone -> refresh <> PNone.
Proof.
  unfold token_pair_ok. intros Hok Ha Hr Hne. rewrite Ha, Hr in Hok.
  destruct access; try congruence; destruct refresh; cbn in Hok; congruence.
Qed.

Lemma py_get_total pair k d k' d' v :
  py_get pair k d = Ok v -> exists v', py_get pair k' d' = Ok v'.
Proof.
  destruct pair; try discriminate. cbn [py_get]. intros _.
  destruct (dict_get _ k'); eauto.
Qed.

Lemma _save_me_invariant me :
  preserves (fun c _ => session_invariant c) (_save_me E me).
Proof. apply _save_me_frame; intros c v H; exact H. Qed.

(** The pipeline touches the session only by clearing the access token. *)
Lemma send_phase_invariant q v h on_expired :
  (forall e, preserves (fun c _ => session_invariant c) (on_expired e)) ->
  preserves (fun c _ => session_invariant c) (send_phase E q v h on_expired).
Proof.
  intros Hexp c w HJ. unfold send_phase.
  destruct (classify E _); auto.
  apply Hexp. intros H. cbn in H. congruence.
Qed.

Hypothesis Hpaired : paired_tokens E.

Lemma _login_invariant :
  preserves (fun c _ => session_invariant c) (_login E).
Proof.
  intros c w Hinv. unfold _login, _login_with.
  unfold bind at 1. unfold getattr at 1.
  unfold bind at 1. unfold getattr at 1.
  unfold bind at 1. unfold assert.
  destruct (truthy (PStr (_email c)) && truthy (PStr (_password c)));
    cbn [ret raise]; [|exact Hinv].
  unfold bind at 1. unfold try_except. rewrite _make_request_noauth.
  unfold send_phase.
  destruct (classify E _) eqn:Hcl; cbn [isinstance_GraphqlError raise];
    try exact Hinv.
  - destruct (expired_is_GraphqlError E); cbn; intros H; cbn in H; congruence.
  - apply classify_Success in Hcl. destruct Hcl as (resp & Hex & Hdata & _).
    unfold bind, lift, setattr.
    destruct (py_getitem data "authEmailSignIn") as [pair|e] eqn:Hpair;
      [|exact Hinv].
    pose proof (Hpaired _ _ _ _ pair Hex Hdata (or_introl (conj eq_refl Hpair)))
      as Hok.
    destruct (py_getitem pair "accessToken") as [access|e] eqn:Ha; [|exact Hinv].
    assert (Hset : forall refresh,
               py_getitem pair "refreshToken" = Ok refresh ->
               session_invariant
                 (with_refresh_token (with_access_token c access) refresh)).
    { intros refresh Hr Hacc. cbn in Hacc |- *.
      destruct (token_pair_getitem _ _ Hok Ha Hacc) as (r & Hr' & Hne).
      congruence. }
    destruct (py_getitem pair "refreshToken") as [refresh|e] eqn:Hr.
    + destruct (py_getitem pair "me") as [me|e].
      * apply _save_me_invariant. apply Hset. reflexivity.
      * apply Hset. reflexivity.
    + intros Hacc. cbn in Hacc.
      destruct (token_pair_getitem _ _ Hok Ha Hacc) as (r & Hr' & Hne).
      congruence.
Qed.

Lemma _refresh_access_token_invariant :
  hoare (fun c _ => _access_token c = PNone) (_refresh_access_token E)
        (fun _ c _ => session_invariant c).
Proof.
  assert (Hnone : forall c : Client E,
             _access_token c = PNone -> session_invariant c).
  { intros c Hc Hacc. congruence. }
  intros c w Hacc. unfold _refresh_access_token, _refresh_access_token_with.
  unfold bind at 1. unfold getattr at 1.
  unfold bind at 1. unfold assert.
  destruct (truthy (_refresh_token c)); cbn [ret raise]; [|auto].
  unfold bind at 1. unfold try_except. rewrite _make_request_noauth.
  unfold send_phase.
  destruct (classify E _) eqn:Hcl; cbn [isinstance_GraphqlError raise]; auto.
  - destruct (expired_is_GraphqlError E); cbn; apply Hnone; reflexivity.
  - cbn. apply Hnone. exact Hacc.
  - apply classify_Success in Hcl. destruct Hcl as (resp & Hex & Hdata & _).
    unfold bind, lift, setattr, getattr, LOGGER, ret.
    destruct (py_getitem data "authRefreshToken") as [pair|e] eqn:Hpair;
      [|auto].
    pose proof (Hpaired _ _ _ _ pair Hex Hdata (or_intror (conj eq_refl Hpair)))
      as Hok.
    destruct (py_get pair "accessToken" PNone) as [access|e] eqn:Ha; [|auto].
    destruct (py_get_total _ _ _ "refreshToken" PNone _ Ha) as (refresh & Hr).
    rewrite Hr. intros Hacc'. cbn in Hacc' |- *.
    eapply token_pair_get; eassumption.
Qed.

Lemma _check_auth_invariant :
  preserves (fun c _ => session_invariant c) (_check_auth E).
Proof.
  intros c w Hinv. unfold _check_auth, _check_auth_with.
  unfold bind at 1. unfold getattr at 1.
  destruct (_needs_login E c).
  - unfold bind at 1. unfold LOGGER at 1.
    apply _login_invariant. exact Hinv.
  - unfold bind at 1. unfold getattr at 1. unfold bind at 1.
    destruct (_needs_refresh E c) eqn:Hnr.
    + unfold bind at 1. unfold LOGGER at 1. unfold bind at 1.
      pose proof (_refresh_access_token_invariant c
                    (logged (mkLog DEBUG "Access token needs to be refreshed" [])
                            w)) as Href.
      fold (_refresh_access_token E).
      unfold logged in Href.
      destruct (_refresh_access_token E c _) as [[[ok|e] c1] w1];
        cbn; apply Href;
        unfold _needs_refresh in Hnr; destruct (_access_token c);
        try discriminate; reflexivity.
    + cbn. exact Hinv.
Qed.

Lemma _make_request_invariant q v auth reauth :
  preserves (fun c _ => session_invariant c) (_make_request E q v auth reauth).
Proof.
  assert (Hno : forall q v, preserves (fun c _ => session_invariant c)
                              (_make_request E q v true false)).
  { intros q0 v0 c w HJ. rewrite _make_request_auth.
    pose proof (_check_auth_invariant c w HJ) as H.
    destruct (_check_auth E c w) as [[[ok|e] c1] w1]; [|exact H].
    apply send_phase_invariant; [|exact H]. intros e. apply preserves_raise. }
  destruct auth.
  - intros c w HJ. rewrite _make_request_auth.
    pose proof (_check_auth_invariant c w HJ) as H.
    destruct (_check_auth E c w) as [[[ok|e] c1] w1]; [|exact H].
    apply send_phase_invariant; [|exact H].
    intros e. destruct reauth; [apply Hno | apply preserves_raise].
  - intros c w HJ. rewrite _make_request_noauth.
    apply send_phase_invariant; [|exact HJ]. intros e. apply preserves_raise.
Qed.

Lemma run_call_invariant call :
  hoare (fun c _ => session_invariant c /\ refresh_due call c)
        (run_call E call)
        (fun _ c _ => session_invariant c).
Proof.
  pose proof _make_request_invariant as Hmr.
  pose proof _save_me_invariant as Hsm.
  pose proof _check_auth_invariant as Hca.
  pose proof _login_invariant as Hlg.
  assert (Hweak : forall m : M E unit,
             preserves (fun c _ => session_invariant c) m ->
             hoare (fun c _ => session_invariant c /\ refresh_due call c) m
                   (fun _ c _ => session_invariant c)).
  { intros m Hm c w [Hinv _]. apply Hm, Hinv. }
  destruct call; cbn [run_call]; unfold ignore.
  all: try solve [
    apply Hweak;
    unfold dump_schema, refresh, feed, refresh_feed, feed_nodes, new_postcards,
      feed_nodes, feed, sighting_from_postcard, finish_postcard,
      refresh_collections, collections, collection, feeders;
    repeat first [solve [auto] | pres_step]; intros; auto ].
  - apply Hweak. intros c w Hinv. cbn. intros H. cbn in H. congruence.
  - intros c w [_ Hdue]. unfold bind, ret.
    pose proof (_refresh_access_token_invariant c w (Hdue eq_refl)) as H.
    destruct (_refresh_access_token E c w) as [[[b|e] c1] w1]; exact H.
Qed.

(** A token refresh that ends in [AuthenticationFailedError] around an
    error of the remote has dropped the refresh token and kept the access
    token. *)
Lemma _refresh_access_token_rejected c w errors :
  result_of (_refresh_access_token E c w)
  = Raise (AuthenticationFailedError (GraphqlError errors)) ->
  _access_token (client_of (_refresh_access_token E c w)) = _access_token c /\
  _refresh_token (client_of (_refresh_access_token E c w)) = PNone.
Proof.
  unfold result_of, client_of.
  destruct (_refresh_access_token E c w) as [[r c'] w'] eqn:Hrun.
  cbn [fst snd]. intros ->. revert Hrun.
  unfold _refresh_access_token, _refresh_access_token_with.
  unfold bind at 1. unfold getattr at 1.
  unfold bind at 1. unfold assert.
  destruct (truthy (_refresh_token c)); cbn [ret raise]; [|discriminate].
  unfold bind at 1. unfold try_except. rewrite _make_request_noauth.
  unfold send_phase.
  destruct (classify E _) eqn:Hcl; cbn [isinstance_GraphqlError raise];
    try discriminate.
  - destruct (expired_is_GraphqlError E); cbn; discriminate.
  - cbn. intros H. inversion H; subst. auto.
  - unfold bind, lift, setattr, getattr, LOGGER, ret.
    destruct (py_getitem data "authRefreshToken") as [pair|e] eqn:Hpair.
    2:{ intros H. inversion H; subst. revert Hpair. clear.
        unfold py_getitem. destruct data; try discriminate.
        destruct (dict_get _ _); discriminate. }
    destruct (py_get pair "accessToken" PNone) as [access|e] eqn:Ha.
    2:{ intros H. inversion H; subst. revert Ha. clear.
        unfold py_get. destruct pair; try discriminate.
        destruct (dict_get _ _); discriminate. }
    destruct (py_get pair "refreshToken" PNone) as [refresh|e] eqn:Hr.
    + cbn. discriminate.
    + intros H. inversion H; subst. revert Hr. clear.
      unfold py_get. destruct pair; try discriminate.
      destruct (dict_get _ _); discriminate.
Qed.

(** C3 (amended): the session invariant holds for a client as constructed
    and is preserved by every operation, the token refresh being run when
    it is due, provided the remote never answers a sign-in or a token
    refresh with an access token and no refresh token; so it holds in every
    state reached by such operations.  The pipeline's expiry handling and
    the session clearing keep it by themselves; login and token refresh
    install the pair the remote returns.  A token refresh that the remote
    rejects drops the refresh token and keeps the access token: run on a
    session that holds an access token, it breaks the invariant. *)
Theorem session_invariant_reachable :
  (forall email password, session_invariant (__init__ E email password)) /\
  (forall call (c : Client E) w,
      session_invariant c ->
      refresh_due call c ->
      session_invariant (client_of (run_call E call c w))) /\
  (forall (c : Client E) w, reachable_in_order E c w -> session_invariant c) /\
  (forall (c : Client E) w errors,
      _access_token c <> PNone ->
      result_of (_refresh_access_token E c w)
      = Raise (AuthenticationFailedError (GraphqlError errors)) ->
      ~ session_invariant
          (client_of (run_call E Call__refresh_access_token c w))).
Proof.
  assert (Hinit : forall email password,
             session_invariant (__init__ E email password)).
  { intros email password H. cbn in H. congruence. }
  assert (Hstep : forall call (c : Client E) w,
             session_invariant c ->
             refresh_due call c ->
             session_invariant (client_of (run_call E call c w))).
  { intros call c w Hinv Hdue.
    pose proof (run_call_invariant call c w (conj Hinv Hdue)) as H.
    unfold client_of. destruct (run_call E call c w) as [[r c'] w'].
    exact H. }
  split; [exact Hinit|]. split; [exact Hstep|]. split.
  - induction 1 as [email password w | c w call Hreach IH Hdue].
    + apply Hinit.
    + apply Hstep; assumption.
  - intros c w errors Hacc Hres Hinv.
    destruct (_refresh_access_token_rejected c w errors Hres) as [Ha Hr].
    assert (Hc : client_of (run_call E Call__refresh_access_token c w)
                 = client_of (_refresh_access_token E c w)).
    { cbn [run_call]. unfold ignore, bind, ret, client_of.
      destruct (_refresh_access_token E c w) as [[[b|e] c1] w1]; reflexivity. }
    rewrite Hc in Hinv. apply Hinv; congruence.
Qed.

End SessionInvariant.

Lemma paired_tokens_sample : paired_tokens PairedScenario.E.
Proof.
  intros history rq response data pair Hex Hdata Hor.
  unfold PairedScenario.E, Sample.env, execute_async, Sample.scripted in Hex.
  destruct (length history) as [|[|[|[|n]]]]; cbn in Hex;
    try (destruct n; discriminate Hex);
    inversion Hex; subst; cbn in Hdata; inversion Hdata; subst;
    destruct Hor as [[_ H]|[_ H]]; cbn in H; inversion H; reflexivity.
Defined.

Lemma paired_tokens_rejecting : paired_tokens FailureScenario.rejecting.
Proof.
  intros history rq response data pair Hex Hdata Hor.
  unfold FailureScenario.rejecting, Sample.env, execute_async, Sample.scripted
    in Hex.
  destruct (length history) as [|n]; cbn in Hex;
    try (destruct n; discriminate Hex).
  inversion Hex; subst. cbn in Hdata. inversion Hdata; subst.
  destruct Hor as [[_ H]|[_ H]]; cbn in H; discriminate H.
Defined.

Lemma session_invariant_reachable_witness :
  (paired_tokens PairedScenario.E /\
   reachable_in_order PairedScenario.E
     (client_of PairedScenario.call) (world_of PairedScenario.call) /\
   session_invariant (client_of PairedScenario.call)) /\
  (paired_tokens FailureScenario.rejecting /\
   _access_token (Sample.active FailureScenario.rejecting) <> PNone /\
   result_of (_refresh_access_token FailureScenario.rejecting
                (Sample.active FailureScenario.rejecting) Sample.world0)
   = Raise (AuthenticationFailedError (GraphqlError FailureScenario.errors)) /\
   ~ session_invariant
       (client_of (run_call FailureScenario.rejecting
                     Call__refresh_access_token
                     (Sample.active FailureScenario.rejecting)
                     Sample.world0))).
Proof.
  split.
  - split; [exact paired_tokens_sample|].
    assert (H : reachable_in_order PairedScenario.E
                  (client_of PairedScenario.call)
                  (world_of PairedScenario.call)).
    { apply in_order_call; [apply in_order_init | discriminate]. }
    split; [exact H|].
    exact (proj1 (proj2 (proj2
             (session_invariant_reachable PairedScenario.E
                paired_tokens_sample))) _ _ H).
  - split; [exact paired_tokens_rejecting|].
    assert (Ha : _access_token (Sample.active FailureScenario.rejecting)
                 <> PNone) by (vm_compute; discriminate).
    assert (Hr : result_of (_refresh_access_token FailureScenario.rejecting
                              (Sample.active FailureScenario.rejecting)
                              Sample.world0)
                 = Raise (AuthenticationFailedError
                            (GraphqlError FailureScenario.errors)))
      by (vm_compute; reflexivity).
    split; [exact Ha|]. split; [exact Hr|].
    exact (proj2 (proj2 (proj2
             (session_invariant_reachable FailureScenario.rejecting
                paired_tokens_rejecting))) _ _ _ Ha Hr).
Defined.

(** C3 as stated fails: a sign-in answered with an access token and no
    refresh token leaves the client with the former and without the latter
    after [refresh()]. *)
Lemma session_invariant_broken_by_unpaired_sign_in :
  reachable UnpairedScenario.E
    (client_of UnpairedScenario.call) (world_of UnpairedScenario.call) /\
  _access_token (client_of UnpairedScenario.call) = PStr "AT1" /\
  _refresh_token (client_of UnpairedScenario.call) = PNone /\
  ~ session_invariant (client_of UnpairedScenario.call).
Proof.
  split; [apply reachable_call, reachable_init|].
  split; [vm_compute; reflexivity|]. split; [vm_compute; reflexivity|].
  intros H. apply H; vm_compute; [discriminate | reflexivity].
Qed.

(* ===================================================================== *)
(** ** Traces of the pipeline *)
(* ===================================================================== *)

Section Traces.

Variable E : Env.
Variable S : list Request.
Variable O : list log_record.
Variable ok : Request -> Prop.

Hypothesis ok_session : forall rq, session_request E rq -> ok rq.

Lemma extends_client n (c c' : Client E) w :
  extends E S O ok n c w -> extends E S O ok n c' w.
Proof. exact (fun H => H). Qed.

Lemma extends_mono n n' (c : Client E) w :
  (n <= n')%nat -> extends E S O ok n c w -> extends E S O ok n' c w.
Proof.
  intros Hle (ns & no & H1 & H2 & H3 & H4 & H5).
  exists ns, no. repeat split; auto. lia.
Qed.

Lemma extends_logged n rec (c : Client E) w :
  is_request_record rec = false ->
  extends E S O ok n c w -> extends E S O ok n c (logged rec w).
Proof.
  intros Hrec (ns & no & H1 & H2 & H3 & H4 & H5).
  exists ns, (rec :: no). cbn [logged sent output]. repeat split; auto.
  - rewrite H2. reflexivity.
  - cbn [filter]. rewrite Hrec. exact H3.
Qed.

Lemma extends_tick n (c : Client E) w :
  extends E S O ok n c w ->
  extends E S O ok n c
    {| sent := sent w; output := output w; ticks := Datatypes.S (ticks w) |}.
Proof. exact (fun H => H). Qed.

Lemma extends_sent n rq (c : Client E) w :
  ok rq ->
  extends E S O ok n c w ->
  extends E S O ok (n + (if bearer rq then 1 else 0)) c (sent_and_logged E rq w).
Proof.
  intros Hok (ns & no & H1 & H2 & H3 & H4 & H5).
  exists (rq :: ns), (record_of E rq :: no).
  cbn [sent_and_logged sent output]. repeat split.
  - rewrite H1. reflexivity.
  - rewrite H2. reflexivity.
  - cbn [filter map].
    replace (is_request_record (record_of E rq)) with true by reflexivity.
    rewrite H3. reflexivity.
  - unfold attempts in *. cbn [filter].
    destruct (bearer rq); cbn [length]; lia.
  - constructor; assumption.
Qed.

(** One exchange: the request is sent and logged; a response record is
    not a request record. *)
Lemma send_phase_extends n k q v h on_expired :
  ok {| rq_query := q; rq_variables := v; rq_headers := h |} ->
  (forall e,
      hoare (extends E S O ok (n + (if bearer (mkRequest q v h) then 1 else 0)))
            (on_expired e)
            (fun _ => extends E S O ok k)) ->
  (n + (if bearer (mkRequest q v h) then 1 else 0) <= k)%nat ->
  hoare (extends E S O ok n) (send_phase E q v h on_expired)
        (fun _ => extends E S O ok k).
Proof.
  intros Hok Hexp Hle c w Hext. unfold send_phase.
  pose proof (extends_sent n (mkRequest q v h) c w Hok Hext) as H1.
  destruct (classify E _);
    try (eapply extends_mono; [exact Hle | exact H1]).
  - apply Hexp. exact H1.
  - eapply extends_mono; [exact Hle|].
    apply extends_logged; [reflexivity | exact H1].
Qed.

Lemma _make_request_noauth_extends n q v r :
  ok {| rq_query := q; rq_variables := v; rq_headers := NoHeaders |} ->
  preserves (extends E S O ok n) (_make_request E q v false r).
Proof.
  intros Hok. eapply preserves_meq; [intros c w; apply _make_request_noauth|].
  apply send_phase_extends with (n := n) (k := n); auto.
  - intros e c w H. cbn in H |- *. rewrite Nat.add_0_r in H. exact H.
  - cbn. lia.
Qed.

Ltac trace_side :=
  first
    [ solve [auto]
    | intros; apply extends_logged; [reflexivity | assumption]
    | intros; assumption ].

Lemma _save_me_extends n me : preserves (extends E S O ok n) (_save_me E me).
Proof.
  unfold _save_me, save_feeder.
  repeat pres_step; trace_side.
Qed.

Lemma _login_extends n : preserves (extends E S O ok n) (_login E).
Proof.
  unfold _login, _login_with.
  pose proof (_save_me_extends n).
  assert (forall v, preserves (extends E S O ok n)
                      (_make_request E (SIGN_IN E) v false true)).
  { intros v. apply _make_request_noauth_extends, ok_session.
    split; [reflexivity | left; reflexivity]. }
  repeat first [solve [auto] | pres_step]; trace_side.
Qed.

Lemma _refresh_access_token_extends n :
  preserves (extends E S O ok n) (_refresh_access_token E).
Proof.
  unfold _refresh_access_token, _refresh_access_token_with.
  assert (forall v, preserves (extends E S O ok n)
                      (_make_request E (REFRESH_AUTH_TOKEN E) v false true)).
  { intros v. apply _make_request_noauth_extends, ok_session.
    split; [reflexivity | right; reflexivity]. }
  repeat first [solve [auto] | pres_step]; trace_side.
Qed.

Lemma _check_auth_extends n : preserves (extends E S O ok n) (_check_auth E).
Proof.
  unfold _check_auth, _check_auth_with.
  pose proof (_login_extends n). pose proof (_refresh_access_token_extends n).
  repeat first [solve [auto] | pres_step]; trace_side.
Qed.

Lemma _make_request_noreauth_extends n q v :
  (forall tok, ok (mkRequest q v (Authorization_Bearer tok))) ->
  hoare (extends E S O ok n) (_make_request E q v true false)
        (fun _ => extends E S O ok (n + 1)).
Proof.
  intros Hok c w Hext. rewrite _make_request_auth.
  pose proof (_check_auth_extends n c w Hext) as H.
  destruct (_check_auth E c w) as [[[b|e] c1] w1].
  - apply send_phase_extends with (n := n); auto.
    + apply Hok.
    + intros e c2 w2 H2. exact H2.
  - eapply extends_mono; [|exact H]. lia.
Qed.

Lemma _make_request_reauth_extends n q v :
  (forall tok, ok (mkRequest q v (Authorization_Bearer tok))) ->
  hoare (extends E S O ok n) (_make_request E q v true true)
        (fun _ => extends E S O ok (n + 2)).
Proof.
  intros Hok c w Hext. rewrite _make_request_auth.
  pose proof (_check_auth_extends n c w Hext) as H.
  destruct (_check_auth E c w) as [[[b|e] c1] w1].
  - apply send_phase_extends with (n := n); auto.
    + apply Hok.
    + intros e c2 w2 H2.
      pose proof (_make_request_noreauth_extends (n + 1) q v Hok c2 w2 H2)
        as H3.
      destruct (_make_request E q v true false c2 w2) as [[r3 c3] w3].
      replace (n + 2)%nat with (n + 1 + 1)%nat by lia. exact H3.
    + cbn. lia.
  - eapply extends_mono; [|exact H]. lia.
Qed.

End Traces.

Lemma extends_start (E : Env) ok (c : Client E) w :
  extends E (sent w) (output w) ok 0 c w.
Proof.
  exists [], []. repeat split; auto.
Qed.

(* ===================================================================== *)
(** ** Token expiry *)
(* ===================================================================== *)

Section Expiry.

Variable E : Env.

Lemma classify_Expired history rq errors :
  reports_expiry E history rq errors ->
  classify E (execute_async E history rq) = Expired errors.
Proof.
  intros (response & Hex & Htruthy & Hdict & Herrors & Hexp).
  rewrite Hex. destruct response as [ | | | | | |d]; try discriminate Hdict.
  destruct d as [|kv d]; [discriminate Htruthy|].
  cbn [classify]. cbn [py_get] in Herrors.
  destruct (dict_get (kv :: d) "errors"); inversion Herrors; subst;
    rewrite Hexp; reflexivity.
Qed.

(** A call that returns has just sent its request, logged it, received a
    body free of errors and logged the data of that body. *)
Lemma _make_request_Ok q v auth reauth c w data c' w' :
  _make_request E q v auth reauth c w = (Ok data, c', w') ->
  exists h w0,
    sent w' = mkRequest q v h :: sent w0 /\
    output w' = response_record E q data :: request_record E q v :: output w0 /\
    answers E (sent w0) (mkRequest q v h) data /\
    bearer (mkRequest q v h) = auth.
Proof.
  assert (Hsend : forall h c0 w0,
             send_phase E q v h raise c0 w0 = (Ok data, c', w') ->
             sent w' = mkRequest q v h :: sent w0 /\
             output w' = response_record E q data
                           :: request_record E q v :: output w0 /\
             answers E (sent w0) (mkRequest q v h) data).
  { intros h c0 w0. unfold send_phase.
    destruct (classify E _) eqn:Hcl; try discriminate.
    intros H. inversion H; subst.
    apply classify_Success in Hcl. auto. }
  assert (Hno : _make_request E q v true false c w = (Ok data, c', w') ->
    exists h w0,
      sent w' = mkRequest q v h :: sent w0 /\
      output w' = response_record E q data :: request_record E q v :: output w0 /\
      answers E (sent w0) (mkRequest q v h) data /\
      bearer (mkRequest q v h) = true).
  { rewrite _make_request_auth.
    destruct (_check_auth E c w) as [[[b|e] c1] w1]; [|discriminate].
    intros H. apply Hsend in H. destruct H as (H1 & H2 & H3).
    exists (_headers E c1), w1. auto. }
  destruct auth.
  - destruct reauth; [|exact Hno].
    rewrite _make_request_auth.
    destruct (_check_auth E c w) as [[[b|e] c1] w1]; [|discriminate].
    unfold send_phase.
    destruct (classify E _) eqn:Hcl; try discriminate.
    + clear Hno. intros H.
      rewrite _make_request_auth in H.
      destruct (_check_auth E _ _) as [[[b2|e2] c2] w2]; [|discriminate].
      apply Hsend in H. destruct H as (H1 & H2 & H3).
      exists (_headers E c2), w2. auto.
    + intros H. inversion H; subst.
      apply classify_Success in Hcl.
      exists (_headers E c'), w1. auto.
  - rewrite _make_request_noauth. intros H. apply Hsend in H.
    destruct H as (H1 & H2 & H3). exists NoHeaders, w. auto.
Qed.

(** C1: when the first attempt of an authenticated call is answered with a
    token-expiry error, the access token is cleared and the call is made
    again once, with [reauth=False].  When the retry is answered with a
    token-expiry error as well, that error is raised to the caller.  In no
    case does the call send more than two requests carrying the bearer
    header, and whatever else it sends is a sign-in or a token refresh. *)
Theorem token_expiry_retried_once
  (q : string) (v : pyval) (c : Client E) (w : World) b c1 w1 errors :
  _check_auth E c w = (Ok b, c1, w1) ->
  reports_expiry E (sent w1) (mkRequest q v (_headers E c1)) errors ->
  _access_token (with_access_token c1 PNone) = PNone /\
  _make_request E q v true true c w
  = _make_request E q v true false
      (with_access_token c1 PNone)
      (sent_and_logged E (mkRequest q v (_headers E c1)) w1) /\
  (forall b2 c2 w2 errors2,
      _check_auth E (with_access_token c1 PNone)
        (sent_and_logged E (mkRequest q v (_headers E c1)) w1)
      = (Ok b2, c2, w2) ->
      reports_expiry E (sent w2) (mkRequest q v (_headers E c2)) errors2 ->
      _make_request E q v true true c w
      = (Raise (AuthTokenExpiredError errors2),
         with_access_token c2 PNone,
         sent_and_logged E (mkRequest q v (_headers E c2)) w2)) /\
  exists ns,
    sent (world_of (_make_request E q v true true c w)) = (ns ++ sent w)%list /\
    (attempts ns <= 2)%nat /\
    Forall (fun rq => session_request E rq \/
                      (rq_query rq = q /\ rq_variables rq = v)) ns.
Proof.
  intros Hauth Hexp. apply classify_Expired in Hexp.
  assert (Hfirst :
    _make_request E q v true true c w
    = _make_request E q v true false
        (with_access_token c1 PNone)
        (sent_and_logged E (mkRequest q v (_headers E c1)) w1)).
  { rewrite _make_request_auth at 1. rewrite Hauth. unfold send_phase at 1.
    rewrite Hexp. reflexivity. }
  split; [reflexivity|]. split; [exact Hfirst|]. split.
  - intros b2 c2 w2 errors2 Hauth2 Hexp2. apply classify_Expired in Hexp2.
    rewrite Hfirst. rewrite _make_request_auth. rewrite Hauth2.
    unfold send_phase. rewrite Hexp2. reflexivity.
  - pose proof (@_make_request_reauth_extends E (sent w) (output w)
                  (fun rq => session_request E rq \/
                             (rq_query rq = q /\ rq_variables rq = v))
                  ltac:(intros; left; assumption) 0%nat q v
                  ltac:(intros; right; split; reflexivity)
                  c w (extends_start _ _ _ _)) as H.
    unfold world_of.
    destruct (_make_request E q v true true c w) as [[r c'] w'].
    destruct H as (ns & no & H1 & H2 & H3 & H4 & H5).
    exists ns. auto.
Qed.

End Expiry.

Lemma token_expiry_retried_once_witness :
  _check_auth ExpiryScenario.E ExpiryScenario.c0 Sample.world0
  = (Ok true, ExpiryScenario.c0, Sample.world0) /\
  reports_expiry ExpiryScenario.E (sent Sample.world0)
    (mkRequest "query me" PNone (_headers ExpiryScenario.E ExpiryScenario.c0))
    ExpiryScenario.errors /\
  _make_request ExpiryScenario.E "query me" PNone true true
    ExpiryScenario.c0 Sample.world0
  = _make_request ExpiryScenario.E "query me" PNone true false
      (with_access_token ExpiryScenario.c0 PNone)
      ExpiryScenario.after_first_attempt /\
  result_of ExpiryScenario.call = Raise (AuthTokenExpiredError ExpiryScenario.errors) /\
  attempts (sent (world_of ExpiryScenario.call)) = 2%nat.
Proof.
  assert (H1 : _check_auth ExpiryScenario.E ExpiryScenario.c0 Sample.world0
               = (Ok true, ExpiryScenario.c0, Sample.world0))
    by (vm_compute; reflexivity).
  assert (H2 : reports_expiry ExpiryScenario.E (sent Sample.world0)
                 (mkRequest "query me" PNone
                    (_headers ExpiryScenario.E ExpiryScenario.c0))
                 ExpiryScenario.errors).
  { eexists. split; [vm_compute; reflexivity|]. repeat split. }
  split; [exact H1|]. split; [exact H2|].
  split.
  - exact (proj1 (proj2 (token_expiry_retried_once ExpiryScenario.E
                           "query me" PNone _ _ _ _ _ _ H1 H2))).
  - split; vm_compute; reflexivity.
Defined.

(* ===================================================================== *)
(** ** Redaction of credentials *)
(* ===================================================================== *)

Section Redaction.

Variable E : Env.


End Redaction.

(* ===================================================================== *)
(** ** The auth check *)
(* ===================================================================== *)

Section AuthCheck.

Variable E : Env.

Lemma _save_me_result me c w b c' w' :
  _save_me E me c w = (Ok b, c', w') ->
  b = truthy me /\
  _access_token c' = _access_token c /\
  _refresh_token c' = _refresh_token c.
Proof.
  intros H.
  pose proof (_save_me_frame E
                (fun c0 => _access_token c0 = _access_token c /\
                           _refresh_token c0 = _refresh_token c)
                ltac:(auto) ltac:(auto) me c w (conj eq_refl eq_refl)) as Hf.
  rewrite H in Hf. split; [|exact Hf].
  unfold _save_me in H. destruct (truthy me); cbn [negb] in H.
  - repeat (apply bind_Ok_inv in H; destruct H as (? & ? & ? & _ & H)).
    inversion H. reflexivity.
  - inversion H. reflexivity.
Qed.

(** A login that returns has installed the tokens of the sign-in response
    and answers whether the profile of that response was non-empty. *)
Lemma _login_result c w b c' w' :
  _login E c w = (Ok b, c', w') ->
  exists data result me c1 w1,
    _make_request E (SIGN_IN E) (login_variables c) false true c w
    = (Ok data, c1, w1) /\
    py_getitem data "authEmailSignIn" = Ok result /\
    py_getitem result "accessToken" = Ok (_access_token c') /\
    py_getitem result "refreshToken" = Ok (_refresh_token c') /\
    py_getitem result "me" = Ok me /\
    b = truthy me.
Proof.
  unfold _login, _login_with. intros H.
  do 4 step H.
  match goal with
  | H0 : _ \/ _ |- _ => destruct H0 as [H0 | (e & c2 & w2 & _ & _ & H0)]
  end.
  2:{ cbn in H0. discriminate. }
  do 6 step H.
  apply _save_me_result in H. destruct H as (Hb & Ha & Hr).
  cbn in Ha, Hr.
  repeat eexists; try eassumption; congruence.
Qed.

End AuthCheck.

(** C6 as stated fails: a sign-in that installs both tokens and returns an
    empty profile makes [_check_auth] answer [False] on a usable session. *)
Lemma check_auth_false_on_usable_session :
  result_of EmptyProfileScenario.call = Ok false /\
  usable (client_of EmptyProfileScenario.call).
Proof.
  split; [vm_compute; reflexivity|].
  split; vm_compute; discriminate.
Qed.

(* ===================================================================== *)
(** ** The feed watermark *)
(* ===================================================================== *)

Lemma option_Z_eqb_eq a b : option_Z_eqb a b = true <-> a = b.
Proof.
  destruct a, b; cbn; rewrite ?Z.eqb_eq; split; congruence.
Qed.

Lemma date_le_refl a : date_le a a.
Proof. destruct a; cbn; [lia | exact I]. Qed.

Lemma feed_frame (E : Env) (J : Client E -> Prop) first after last before :
  (forall c v, J c -> J (with_me c v)) ->
  (forall c m, J c -> J (with_feeders c m)) ->
  (forall c v, J c -> J (with_access_token c v)) ->
  (forall c v, J c -> J (with_refresh_token c v)) ->
  preserves (fun c _ => J c) (feed E first after last before).
Proof.
  intros H1 H2 H3 H4. unfold feed.
  pose proof (_make_request_frame E J H1 H2 H3 H4).
  repeat first [solve [auto] | pres_step].
Qed.

(** C2 (amended): the watermark is unset at construction.  After a call to
    [refresh_feed] it is either what it was, or the timestamp of the newest
    node of the page just fetched, be that later or earlier.  So it is not
    earlier than before the call whenever the newest node of the fetched
    page is not earlier than the watermark before the call. *)
Theorem refresh_feed_watermark
  (E : Env) (since : since_arg) (c : Client E) (w : World) r c' w' :
  refresh_feed E since c w = (r, c', w') ->
  (forall email password, _last_feed_date (__init__ E email password) = None) /\
  (_last_feed_date c' = _last_feed_date c \/
   exists fd c1 w1,
     feed E (PInt 20) PNone PNone PNone c w = (Ok fd, c1, w1) /\
     newest_created_at E fd = Ok (_last_feed_date c')) /\
  ((forall fd c1 w1 t,
       feed E (PInt 20) PNone PNone PNone c w = (Ok fd, c1, w1) ->
       newest_created_at E fd = Ok t ->
       date_le (_last_feed_date c) t) ->
   date_le (_last_feed_date c) (_last_feed_date c')).
Proof.
  intros Hrun. split; [reflexivity|].
  assert (Hcase :
    _last_feed_date c' = _last_feed_date c \/
    exists fd c1 w1,
      feed E (PInt 20) PNone PNone PNone c w = (Ok fd, c1, w1) /\
      newest_created_at E fd = Ok (_last_feed_date c')).
  { unfold refresh_feed in Hrun.
    assert (Hrest : forall s : option Z,
      (fd <- feed E (PInt 20) PNone PNone PNone ;;
       newest_date <- lift (newest_created_at E fd) ;;
       last <- getattr _last_feed_date ;;
       (if negb (option_Z_eqb newest_date last) then
          LOGGER DEBUG "Updating latest seen Feed timestamp: %s -> %s"
            [LDate last; LDate newest_date] ;;
          setattr with_last_feed_date newest_date
        else ret tt) ;;
       lift (filter_newer_than E fd s)) c w = (r, c', w') ->
      _last_feed_date c' = _last_feed_date c \/
      exists fd c1 w1,
        feed E (PInt 20) PNone PNone PNone c w = (Ok fd, c1, w1) /\
        newest_created_at E fd = Ok (_last_feed_date c')).
    { intros s. unfold bind at 1.
      pose proof (feed_frame E (fun c0 => _last_feed_date c0 = _last_feed_date c)
                    (PInt 20) PNone PNone PNone
                    ltac:(auto) ltac:(auto) ltac:(auto) ltac:(auto)
                    c w eq_refl) as Hframe.
      destruct (feed E (PInt 20) PNone PNone PNone c w) as [[[fd|e] c1] w1];
        [|intros H; inversion H; subst; auto].
      unfold bind, lift, getattr, LOGGER, setattr, ret.
      destruct (newest_created_at E fd) as [newest|e] eqn:Hnew;
        [|intros H; inversion H; subst; auto].
      destruct (option_Z_eqb newest (_last_feed_date c1)) eqn:Heq; cbn [negb].
      - intros H. left.
        destruct (filter_newer_than E fd s); inversion H; subst; exact Hframe.
      - intros H. right. exists fd, c1, w1. split; [reflexivity|].
        destruct (filter_newer_than E fd s); inversion H; subst;
          cbn [_last_feed_date with_last_feed_date]; exact Hnew. }
    destruct since as [| |t|s]; cbn in Hrun.
    - destruct (_last_feed_date c); cbn in Hrun; eapply Hrest; exact Hrun.
    - eapply Hrest; exact Hrun.
    - eapply Hrest; exact Hrun.
    - unfold bind at 1 in Hrun. unfold bind at 1 in Hrun.
      unfold lift at 1 in Hrun.
      destruct (parse_datetime E s) as [t|e]; cbn in Hrun.
      + eapply Hrest; exact Hrun.
      + inversion Hrun; subst. auto. }
  split; [exact Hcase|].
  intros Hnewer. destruct Hcase as [-> | [fd [c1 [w1 [Hfeed Hnew]]]]].
  - apply date_le_refl.
  - eapply Hnewer; eassumption.
Qed.

Lemma refresh_feed_watermark_witness :
  refresh_feed WatermarkScenario.E _NO_VALUE
    (__init__ WatermarkScenario.E "u@x.com" "pw") Sample.world0
  = (result_of WatermarkScenario.first_call,
     client_of WatermarkScenario.first_call,
     world_of WatermarkScenario.first_call) /\
  _last_feed_date (client_of WatermarkScenario.first_call) = Some 10 /\
  date_le (_last_feed_date (__init__ WatermarkScenario.E "u@x.com" "pw"))
          (_last_feed_date (client_of WatermarkScenario.first_call)).
Proof.
  assert (H : refresh_feed WatermarkScenario.E _NO_VALUE
    (__init__ WatermarkScenario.E "u@x.com" "pw") Sample.world0
  = (result_of WatermarkScenario.first_call,
     client_of WatermarkScenario.first_call,
     world_of WatermarkScenario.first_call)) by (vm_compute; reflexivity).
  split; [exact H|]. split; [vm_compute; reflexivity|].
  apply (proj2 (proj2 (refresh_feed_watermark _ _ _ _ _ _ _ H))).
  intros fd c1 w1 t _ _. exact I.
Defined.

(** C2 as stated fails: when the newest node of the fetched page is older
    than the watermark, the watermark moves back to it. *)
Lemma refresh_feed_watermark_moves_back :
  _last_feed_date (client_of WatermarkScenario.first_call) = Some 10 /\
  _last_feed_date (client_of WatermarkScenario.second_call) = Some 5 /\
  ~ date_le (_last_feed_date (client_of WatermarkScenario.first_call))
            (_last_feed_date (client_of WatermarkScenario.second_call)).
Proof.
  split; [vm_compute; reflexivity|]. split; [vm_compute; reflexivity|].
  vm_compute. intros H. apply H. reflexivity.
Qed.

(* ===================================================================== *)
(** ** Finishing a postcard *)
(* ===================================================================== *)

Section Finish.

Variable E : Env.

(** C4: for a report whose finishing strategy is [RECOGNIZED],
    [finish_postcard] sends, apart from the sign-in or token refresh the
    session may need, only the finish mutation, with [feedItemId] as given,
    [defaultCoverMedia] the cover media of the unlocked sightings in report
    order, [notSelectedMediaIds] empty and [reportToken] the token of the
    report.  When it returns, the last request sent is that mutation, and
    the result is true if and only if the [success] field of the remote's
    answer to it is true. *)
Theorem finish_postcard_recognized
  (feed_item_id : pyval) (p : PostcardSighting) (c : Client E) (w : World) :
  finishing_strategy (report p) = RECOGNIZED ->
  (exists ns,
      sent (world_of (finish_postcard E feed_item_id (ObjPostcardSighting p) c w))
      = (ns ++ sent w)%list /\
      Forall
        (fun rq =>
           session_request E rq \/
           (rq_query rq = FINISH_SIGHTING E /\
            rq_variables rq
            = PDict [("sightingReportPostcardFinishInput",
                      PDict [("feedItemId", feed_item_id);
                             ("defaultCoverMedia",
                              PList (map cover_media
                                       (filter is_unlocked
                                          (sightings (report p)))));
                             ("notSelectedMediaIds", PList []);
                             ("reportToken", token (report p))])]))
        ns) /\
  (forall b,
      result_of (finish_postcard E feed_item_id (ObjPostcardSighting p) c w)
      = Ok b ->
      exists tok history data fin success,
        sent (world_of (finish_postcard E feed_item_id
                          (ObjPostcardSighting p) c w))
        = mkRequest (FINISH_SIGHTING E)
            (PDict [("sightingReportPostcardFinishInput",
                     PDict [("feedItemId", feed_item_id);
                            ("defaultCoverMedia",
                             PList (map cover_media
                                      (filter is_unlocked
                                         (sightings (report p)))));
                            ("notSelectedMediaIds", PList []);
                            ("reportToken", token (report p))])])
            (Authorization_Bearer tok) :: history /\
        answers E history
          (mkRequest (FINISH_SIGHTING E)
             (finish_variables feed_item_id (report p))
             (Authorization_Bearer tok)) data /\
        py_getitem data "sightingReportPostcardFinish" = Ok fin /\
        py_getitem fin "success" = Ok success /\
        (b = true <-> truthy success = true)).
Proof.
  intros Hstrat. unfold finish_postcard. rewrite Hstrat. cbn [strategy_eqb negb].
  set (vars := finish_variables feed_item_id (report p)).
  change (PDict [("sightingReportPostcardFinishInput",
                  PDict [("feedItemId", feed_item_id);
                         ("defaultCoverMedia",
                          PList (map cover_media
                                   (filter is_unlocked (sightings (report p)))));
                         ("notSelectedMediaIds", PList []);
                         ("reportToken", token (report p))])]) with vars.
  pose proof (@_make_request_reauth_extends E (sent w) (output w)
                (fun rq => session_request E rq \/
                           (rq_query rq = FINISH_SIGHTING E /\
                            rq_variables rq = vars))
                ltac:(intros; left; assumption) 0%nat (FINISH_SIGHTING E) vars
                ltac:(intros; right; split; reflexivity)
                c w (extends_start _ _ _ _)) as Htrace.
  unfold bind at 1. unfold bind at 3. unfold bind at 5.
  destruct (_make_request E (FINISH_SIGHTING E) vars true true c w)
    as [[[data|e] c1] w1] eqn:Hrun.
  - assert (Hw : forall r,
               world_of ((fin <- lift (py_getitem data
                                         "sightingReportPostcardFinish") ;;
                          success <- lift (py_getitem fin "success") ;;
                          ret (truthy success)) c1 w1) = w1
               /\ (result_of ((fin <- lift (py_getitem data
                                         "sightingReportPostcardFinish") ;;
                          success <- lift (py_getitem fin "success") ;;
                          ret (truthy success)) c1 w1) = Ok r ->
                   exists fin success,
                     py_getitem data "sightingReportPostcardFinish" = Ok fin /\
                     py_getitem fin "success" = Ok success /\
                     r = truthy success)).
    { intros r. unfold bind, lift, ret.
      destruct (py_getitem data "sightingReportPostcardFinish") as [fin|e];
        [|split; [reflexivity | discriminate]].
      destruct (py_getitem fin "success") as [success|e] eqn:Hsuccess;
        [|split; [reflexivity | discriminate]].
      split; [reflexivity|]. cbn. intros H. inversion H.
      exists fin, success. auto. }
    split.
    + rewrite (proj1 (Hw true)).
      destruct Htrace as (ns & no & H1 & H2 & H3 & H4 & H5). eauto.
    + intros b Hb. rewrite (proj1 (Hw b)).
      destruct (proj2 (Hw b) Hb) as (fin & success & Hfin & Hsucc & ->).
      apply _make_request_Ok in Hrun.
      destruct Hrun as (h & w0 & Hs & _ & Hans & Hbearer).
      destruct h as [|tok]; [discriminate Hbearer|].
      exists tok, (sent w0), data, fin, success.
      repeat split; auto.
  - split.
    + destruct Htrace as (ns & no & H1 & H2 & H3 & H4 & H5). cbn. eauto.
    + cbn. discriminate.
Qed.

End Finish.

Lemma finish_postcard_recognized_witness :
  finishing_strategy (report FinishScenario.sighting) = RECOGNIZED /\
  result_of FinishScenario.call = Ok true /\
  map rq_variables (sent (world_of FinishScenario.call))
  = [PDict [("sightingReportPostcardFinishInput",
             PDict [("feedItemId", PStr "item-42");
                    ("defaultCoverMedia", PList [PStr "m1"]);
                    ("notSelectedMediaIds", PList []);
                    ("reportToken", PStr "tok")])]] /\
  exists tok history data fin success,
    sent (world_of FinishScenario.call)
    = mkRequest (FINISH_SIGHTING FinishScenario.E)
        (PDict [("sightingReportPostcardFinishInput",
                 PDict [("feedItemId", PStr "item-42");
                        ("defaultCoverMedia", PList [PStr "m1"]);
                        ("notSelectedMediaIds", PList []);
                        ("reportToken", PStr "tok")])])
        (Authorization_Bearer tok) :: history /\
    answers FinishScenario.E history
      (mkRequest (FINISH_SIGHTING FinishScenario.E)
         (finish_variables (PStr "item-42") (report FinishScenario.sighting))
         (Authorization_Bearer tok)) data /\
    py_getitem data "sightingReportPostcardFinish" = Ok fin /\
    py_getitem fin "success" = Ok success /\
    (true = true <-> truthy success = true).
Proof.
  split; [reflexivity|]. split; [vm_compute; reflexivity|].
  split; [vm_compute; reflexivity|].
  exact (proj2 (finish_postcard_recognized FinishScenario.E (PStr "item-42")
                  FinishScenario.sighting (Sample.active FinishScenario.E)
                  Sample.world0 eq_refl)
           true ltac:(vm_compute; reflexivity)).
Defined.

(* ===================================================================== *)
(** ** The sighting workflow *)
(* ===================================================================== *)

Lemma strategy_eqb_RECOGNIZED s :
  strategy_eqb s RECOGNIZED = true <-> s = RECOGNIZED.
Proof. destruct s; cbn; split; congruence. Qed.

(** C10: an argument of [sighting_from_postcard] that is neither a [str]
    nor a [FeedNode] leaves [postcard_id] unassigned: the call ends with an
    unbound-local (name) error before anything is sent, with the client and
    the world as they were; the error is none of the documented kinds. *)
Theorem sighting_from_postcard_unassigned_id
  (E : Env) (postcard : pyobj) (c : Client E) (w : World) :
  isinstance_str postcard = false ->
  isinstance_FeedNode postcard = false ->
  sighting_from_postcard E postcard c w
  = (Raise (UnboundLocalError "postcard_id"), c, w)
  /\ documented_error (UnboundLocalError "postcard_id") = false.
Proof.
  intros Hs Hn. split; [|reflexivity].
  destruct postcard as [v|n|p]; [| discriminate Hn | reflexivity].
  destruct v; try reflexivity. discriminate Hs.
Qed.

Lemma sighting_from_postcard_unassigned_id_witness :
  isinstance_str (Val (PInt 42)) = false /\
  isinstance_FeedNode (Val (PInt 42)) = false /\
  sighting_from_postcard (Sample.env []) (Val (PInt 42))
    (Sample.active (Sample.env [])) Sample.world0
  = (Raise (UnboundLocalError "postcard_id"),
     Sample.active (Sample.env []), Sample.world0).
Proof.
  split; [reflexivity|]. split; [reflexivity|].
  apply (sighting_from_postcard_unassigned_id (Sample.env []) (Val (PInt 42)));
    reflexivity.
Defined.

(** C5: when the sighting result is not a [PostcardSighting], or its
    report's finishing strategy is not [RECOGNIZED], [finish_postcard]
    returns [False]; nothing is sent, the client is unchanged, and the only
    trace is one warning in the diagnostic output. *)
Theorem finish_postcard_declines
  (E : Env) (feed_item_id : pyval) (sighting_result : pyobj)
  (c : Client E) (w : World) :
  (isinstance_PostcardSighting sighting_result = false \/
   exists p, sighting_result = ObjPostcardSighting p /\
             finishing_strategy (report p) <> RECOGNIZED) ->
  exists w',
    finish_postcard E feed_item_id sighting_result c w = (Ok false, c, w') /\
    sent w' = sent w /\
    ticks w' = ticks w /\
    exists rec, output w' = rec :: output w /\ lg_level rec = WARNING.
Proof.
  intros [Hno | [p [-> Hstrat]]].
  - destruct sighting_result as [v|n|p]; [| | discriminate Hno];
      (eexists; split; [reflexivity|]; repeat split; eexists; split; reflexivity).
  - cbn. destruct (strategy_eqb _ RECOGNIZED) eqn:Heq.
    + apply strategy_eqb_RECOGNIZED in Heq. contradiction.
    + cbn. eexists; split; [reflexivity|]. repeat split.
      eexists; split; reflexivity.
Qed.

Lemma finish_postcard_declines_witness :
  (isinstance_PostcardSighting
     (ObjPostcardSighting
        {| report := {| token := PStr "tok";
                        finishing_strategy := MANUAL_SELECTION;
                        sightings := [] |};
           postcard := None |}) = false \/
   exists p,
     ObjPostcardSighting
       {| report := {| token := PStr "tok";
                       finishing_strategy := MANUAL_SELECTION;
                       sightings := [] |};
          postcard := None |} = ObjPostcardSighting p /\
     finishing_strategy (report p) <> RECOGNIZED) /\
  exists w',
    finish_postcard (Sample.env []) (PStr "item-42")
      (ObjPostcardSighting
         {| report := {| token := PStr "tok";
                         finishing_strategy := MANUAL_SELECTION;
                         sightings := [] |};
            postcard := None |})
      (Sample.active (Sample.env [])) Sample.world0
    = (Ok false, Sample.active (Sample.env []), w') /\
    sent w' = sent Sample.world0 /\
    ticks w' = ticks Sample.world0 /\
    exists rec, output w' = rec :: output Sample.world0 /\ lg_level rec = WARNING.
Proof.
  assert (H : isinstance_PostcardSighting
     (ObjPostcardSighting
        {| report := {| token := PStr "tok";
                        finishing_strategy := MANUAL_SELECTION;
                        sightings := [] |};
           postcard := None |}) = false \/
   exists p,
     ObjPostcardSighting
       {| report := {| token := PStr "tok";
                       finishing_strategy := MANUAL_SELECTION;
                       sightings := [] |};
          postcard := None |} = ObjPostcardSighting p /\
     finishing_strategy (report p) <> RECOGNIZED).
  { right. eexists. split; [reflexivity|]. cbn. discriminate. }
  split; [exact H|].
  exact (finish_postcard_declines (Sample.env []) (PStr "item-42") _
           (Sample.active (Sample.env [])) Sample.world0 H).
Defined.

(* ===================================================================== *)
(** ** The entity cache *)
(* ===================================================================== *)

Section Cache.

Context {V : Type}.
Implicit Types (m : list (pyval * V)) (k : pyval) (v : V).

Lemma key_eqb_refl k : hashable k = true -> key_eqb k k = true.
Proof.
  destruct k; cbn [key_eqb hashable]; intros H; try discriminate;
    auto using Z.eqb_refl, String.eqb_refl, Bool.eqb_reflx.
Qed.

Lemma key_eqb_sym k k' : key_eqb k k' = key_eqb k' k.
Proof.
  destruct k, k'; cbn [key_eqb]; auto using Z.eqb_sym, String.eqb_sym.
  destruct b, b0; reflexivity.
Qed.

Lemma key_eqb_trans k1 k2 k3 :
  key_eqb k1 k2 = true -> key_eqb k2 k3 = true -> key_eqb k1 k3 = true.
Proof.
  destruct k1, k2, k3; cbn [key_eqb]; try discriminate;
    rewrite ?Z.eqb_eq, ?String.eqb_eq, ?Bool.eqb_true_iff;
    intros; subst; auto;
    repeat match goal with
      | b : bool |- _ => destruct b
      end; lia.
Qed.

Lemma cache_get_set_same m k v :
  hashable k = true -> cache_get (cache_set m k v) k = Some v.
Proof.
  intros Hk. induction m as [|[k0 v0] m IH]; cbn [cache_set cache_get].
  - rewrite key_eqb_refl; auto.
  - destruct (key_eqb k0 k) eqn:H0; cbn [cache_get]; rewrite H0; auto.
Qed.

Lemma cache_get_set_other m k v k' :
  key_eqb k k' = false -> cache_get (cache_set m k v) k' = cache_get m k'.
Proof.
  intros Hk. induction m as [|[k0 v0] m IH]; cbn [cache_set cache_get].
  - rewrite Hk. reflexivity.
  - destruct (key_eqb k0 k) eqn:H0; cbn [cache_get].
    + destruct (key_eqb k0 k') eqn:H1; [|reflexivity].
      rewrite key_eqb_sym in H0.
      rewrite (key_eqb_trans _ _ _ H0 H1) in Hk. discriminate.
    + rewrite IH. reflexivity.
Qed.

Lemma length_cache_set_seen m k v old :
  cache_get m k = Some old -> length (cache_set m k v) = length m.
Proof.
  induction m as [|[k0 v0] m IH]; cbn [cache_set cache_get]; [discriminate|].
  destruct (key_eqb k0 k); cbn [length]; auto.
Qed.

Lemma length_cache_set_unseen m k v :
  cache_get m k = None -> length (cache_set m k v) = S (length m).
Proof.
  induction m as [|[k0 v0] m IH]; cbn [cache_set cache_get]; [reflexivity|].
  destruct (key_eqb k0 k); cbn [length]; [discriminate | auto].
Qed.

Lemma distinct_keys_cache_set m k v :
  distinct_keys m -> distinct_keys (cache_set m k v).
Proof.
  induction 1 as [|k0 v0 m Hget Hm IH]; cbn [cache_set].
  - repeat constructor.
  - destruct (key_eqb k0 k) eqn:H0.
    + constructor; assumption.
    + constructor; [|exact IH].
      rewrite cache_get_set_other; [exact Hget|].
      rewrite key_eqb_sym. exact H0.
Qed.

End Cache.

Section MergeProfile.

Variable E : Env.

Lemma save_feeder_merges f c w :
  has_id f ->
  save_feeder E f c w
  = (Ok tt, with_feeders c (merge_feeder E (_feeders c) f), w).
Proof.
  intros [k [Hid Hk]]. unfold save_feeder, merge_feeder, bind, lift, getattr.
  rewrite Hid, Hk. cbn.
  destruct (cache_get (_feeders c) k); reflexivity.
Qed.

Lemma for_each_save_feeder fs : forall c w,
  Forall has_id fs ->
  for_each fs (save_feeder E) c w
  = (Ok tt, with_feeders c (merge_feeders E fs (_feeders c)), w).
Proof.
  induction fs as [|f fs IH]; intros c w Hfs.
  - destruct c; reflexivity.
  - inversion Hfs as [|? ? Hf Hfs']; subst.
    cbn [for_each]. unfold bind. rewrite save_feeder_merges by assumption.
    rewrite IH by assumption. reflexivity.
Qed.

Lemma merge_feeder_distinct cache f :
  distinct_keys cache -> distinct_keys (merge_feeder E cache f).
Proof.
  intros H. unfold merge_feeder.
  destruct (py_getitem f "id"); [|exact H].
  destruct (cache_get cache a); apply distinct_keys_cache_set, H.
Qed.

Lemma merge_feeders_distinct fs : forall cache,
  distinct_keys cache -> distinct_keys (merge_feeders E fs cache).
Proof.
  induction fs as [|f fs IH]; intros cache H; [exact H|].
  apply IH, merge_feeder_distinct, H.
Qed.

(** C8: [_save_me] on an empty or absent profile changes nothing and
    returns [False].  On a non-empty profile whose feeder records carry
    ids it stamps the profile, replaces the cached profile, merges every
    feeder record in turn and returns [True].  Merging a record whose id
    is cached updates that entry and keeps the size of the cache; a record
    with an unseen id adds one entry; the cache never holds two entries
    for one id. *)
Theorem save_me_merges (me : pyval) (fs : list pyval) (c : Client E) (w : World) :
  profile_feeders me = Ok fs ->
  Forall has_id fs ->
  (truthy me = false -> _save_me E me c w = (Ok false, c, w)) /\
  (truthy me = true -> isinstance_dict me = true ->
   _save_me E me c w
   = (Ok true,
      with_feeders (with_me c (stamped me (now E (ticks w))))
        (merge_feeders E fs (_feeders c)),
      tick w)) /\
  (forall cache f k old,
      py_getitem f "id" = Ok k -> hashable k = true ->
      cache_get cache k = Some old ->
      length (merge_feeder E cache f) = length cache /\
      cache_get (merge_feeder E cache f) k = Some (Feeder_update E old f)) /\
  (forall cache f k,
      py_getitem f "id" = Ok k -> hashable k = true ->
      cache_get cache k = None ->
      length (merge_feeder E cache f) = S (length cache) /\
      cache_get (merge_feeder E cache f) k = Some (Feeder_new E f)) /\
  (distinct_keys (_feeders c) ->
   distinct_keys (merge_feeders E fs (_feeders c))).
Proof.
  intros Hfs Hids. repeat split.
  - intros Hme. unfold _save_me. rewrite Hme. reflexivity.
  - intros Hme Hdict. unfold profile_feeders in Hfs. rewrite Hme in Hfs.
    destruct me as [ | | | | | |d]; try discriminate Hdict.
    unfold _save_me. rewrite Hme. cbn [negb].
    unfold bind, datetime_now, lift, setattr. cbn [py_setitem stamped].
    cbn [py_get] in Hfs |- *.
    assert (Hget : dict_get (dict_set d "__last_updated"
                               (PDatetime (now E (ticks w)))) "feeders"
                   = dict_get d "feeders").
    { clear. induction d as [|[k0 v0] d IH]; [reflexivity|].
      cbn [dict_set]. destruct (String.eqb k0 "__last_updated") eqn:H0.
      - apply String.eqb_eq in H0. subst k0. reflexivity.
      - cbn [dict_get]. destruct (String.eqb k0 "feeders"); auto. }
    rewrite Hget.
    destruct (dict_get d "feeders") as [x|]; cbn [rbind] in Hfs;
      rewrite Hfs; rewrite for_each_save_feeder by assumption; reflexivity.
  - unfold merge_feeder. rewrite H, H1.
    eapply length_cache_set_seen; eassumption.
  - unfold merge_feeder. rewrite H, H1.
    apply cache_get_set_same; assumption.
  - unfold merge_feeder. rewrite H, H1.
    apply length_cache_set_unseen; assumption.
  - unfold merge_feeder. rewrite H, H1.
    apply cache_get_set_same; assumption.
  - apply merge_feeders_distinct.
Qed.

End MergeProfile.

Lemma save_me_merges_witness :
  profile_feeders Sample.profile
  = Ok [PDict [("id", PStr "f1"); ("name", PStr "Garden")]] /\
  Forall has_id [PDict [("id", PStr "f1"); ("name", PStr "Garden")]] /\
  _save_me (Sample.env []) Sample.profile
    (with_feeders (Sample.active (Sample.env []))
       [(PStr "f1", PDict [("id", PStr "f1"); ("name", PStr "Feeder")])])
    Sample.world0
  = (Ok true,
     with_feeders
       (with_me (Sample.active (Sample.env []))
          (stamped Sample.profile 1000))
       [(PStr "f1", PDict [("id", PStr "f1"); ("name", PStr "Garden")])],
     tick Sample.world0).
Proof.
  assert (H1 : profile_feeders Sample.profile
               = Ok [PDict [("id", PStr "f1"); ("name", PStr "Garden")]])
    by reflexivity.
  assert (H2 : Forall has_id [PDict [("id", PStr "f1"); ("name", PStr "Garden")]]).
  { repeat constructor. exists (PStr "f1"). split; reflexivity. }
  split; [exact H1|]. split; [exact H2|].
  exact (proj1 (proj2 (save_me_merges (Sample.env []) Sample.profile _
           (with_feeders (Sample.active (Sample.env []))
              [(PStr "f1", PDict [("id", PStr "f1"); ("name", PStr "Feeder")])])
           Sample.world0 H1 H2)) eq_refl eq_refl).
Defined.

(* ===================================================================== *)
(** ** Collections *)
(* ===================================================================== *)

Lemma In_cache_set {V} (m : list (pyval * V)) k v k' v' :
  In (k', v') (cache_set m k v) -> In (k', v') m \/ v' = v.
Proof.
  induction m as [|[k0 v0] m IH]; cbn [cache_set].
  - intros [H|[]]. inversion H. auto.
  - destruct (key_eqb k0 k).
    + intros [H|H]; [inversion H; auto | left; right; exact H].
    + intros [H|H]; [left; left; exact H|].
      destruct (IH H); [left; right; assumption | auto].
Qed.

Lemma In_cache_update {V} (other m : list (pyval * V)) k v :
  In (k, v) (cache_update m other) ->
  In (k, v) m \/ exists k', In (k', v) other.
Proof.
  unfold cache_update. revert m.
  induction other as [|[k0 v0] other IH]; intros m; cbn [fold_left fst snd].
  - auto.
  - intros H. destruct (IH _ H) as [H1|[k' H1]].
    + destruct (In_cache_set _ _ _ _ _ H1) as [H2| ->]; [auto|].
      right. exists k0. left. reflexivity.
    + right. exists k'. right. exact H1.
Qed.

Lemma collections_of_type_tagged typename records : forall acc res,
  collections_of_type typename records acc = Ok res ->
  (forall k col, In (k, col) acc ->
     collection_typename col = Ok (PStr typename)) ->
  forall k col, In (k, col) res ->
    collection_typename col = Ok (PStr typename).
Proof.
  induction records as [|d records IH]; intros acc res Hres Hacc;
    cbn [collections_of_type] in Hres.
  - inversion Hres; subst. exact Hacc.
  - destruct (py_getitem d "__typename") as [t|e] eqn:Ht; cbn [rbind] in Hres;
      [|discriminate].
    destruct (eq_str t typename) eqn:Heq; [|eapply IH; eassumption].
    destruct (collection_id (mkCollection d)) as [i|e]; cbn [rbind] in Hres;
      [|discriminate].
    destruct (hashable i); [|discriminate].
    eapply IH; [eassumption|].
    intros k col Hin. destruct (In_cache_set _ _ _ _ _ Hin) as [H| ->]; [eauto|].
    unfold collection_typename. cbn [collection_record]. rewrite Ht.
    destruct t; try discriminate Heq. cbn in Heq.
    apply String.eqb_eq in Heq. subst. reflexivity.
Qed.

(** C7 (amended): [refresh_collections("bird")] adds to the cache only
    records whose type tag is [CollectionBird], and returns the whole
    cache: every entry of the returned mapping either carries the tag
    [CollectionBird] or was in the cache before the call. *)
Theorem refresh_collections_bird
  (E : Env) (c : Client E) (w : World) m c' w' :
  refresh_collections E "bird" c w = (Ok m, c', w') ->
  m = _collections c' /\
  forall k col, In (k, col) m ->
    collection_typename col = Ok (PStr "CollectionBird") \/
    In (k, col) (_collections c).
Proof.
  unfold refresh_collections. unfold bind at 1.
  pose proof (_make_request_frame E (fun c0 => _collections c0 = _collections c)
                ltac:(auto) ltac:(auto) ltac:(auto) ltac:(auto)
                (COLLECTIONS E) PNone true true c w eq_refl) as Hframe.
  destruct (_make_request E (COLLECTIONS E) PNone true true c w)
    as [[[data|e] c1] w1]; [|discriminate].
  unfold bind, lift, getattr, setattr.
  destruct (py_getitem data "me") as [me|e]; [|discriminate].
  destruct (py_getitem me "collections") as [rs|e]; [|discriminate].
  destruct (py_iter rs) as [records|e]; [|discriminate].
  destruct (collections_of_type _ records []) as [new|e] eqn:Hnew; [|discriminate].
  intros H. inversion H; subst. split; [reflexivity|].
  cbn [_collections with_collections]. intros k col Hin.
  destruct (In_cache_update _ _ _ _ Hin) as [H1|[k' H1]].
  - right. rewrite <- Hframe. exact H1.
  - left. eapply collections_of_type_tagged; [exact Hnew | | exact H1].
    intros ? ? [].
Qed.

Lemma refresh_collections_bird_witness :
  refresh_collections
    (Sample.env [sample_collections]) "bird"
    (Sample.active (Sample.env [sample_collections])) Sample.world0
  = (Ok [(PStr "c1",
          mkCollection (PDict [("id", PStr "c1");
                               ("__typename", PStr "CollectionBird")]))],
     with_collections (Sample.active (Sample.env [sample_collections]))
       [(PStr "c1",
         mkCollection (PDict [("id", PStr "c1");
                              ("__typename", PStr "CollectionBird")]))],
     snd (refresh_collections
            (Sample.env [sample_collections]) "bird"
            (Sample.active (Sample.env [sample_collections])) Sample.world0))
  /\
  forall k col,
    In (k, col)
      [(PStr "c1",
        mkCollection (PDict [("id", PStr "c1");
                             ("__typename", PStr "CollectionBird")]))] ->
    collection_typename col = Ok (PStr "CollectionBird") \/
    In (k, col) (_collections (Sample.active (Sample.env [sample_collections]))).
Proof.
  assert (H : refresh_collections
    (Sample.env [sample_collections]) "bird"
    (Sample.active (Sample.env [sample_collections])) Sample.world0
  = (Ok [(PStr "c1",
          mkCollection (PDict [("id", PStr "c1");
                               ("__typename", PStr "CollectionBird")]))],
     with_collections (Sample.active (Sample.env [sample_collections]))
       [(PStr "c1",
         mkCollection (PDict [("id", PStr "c1");
                              ("__typename", PStr "CollectionBird")]))],
     snd (refresh_collections
            (Sample.env [sample_collections]) "bird"
            (Sample.active (Sample.env [sample_collections])) Sample.world0)))
    by (vm_compute; reflexivity).
  split; [exact H|].
  exact (proj2 (refresh_collections_bird _ _ _ _ _ _ H)).
Defined.

(** C7 as stated fails: after [refresh_collections("place")] has cached a
    collection of places, [refresh_collections("bird")] returns it along
    with the birds. *)
Lemma refresh_collections_returns_cached_places :
  exists m,
    result_of CollectionsScenario.second_call = Ok m /\
    ~ only_bird_entries m.
Proof.
  eexists. split; [vm_compute; reflexivity|].
  intros H.
  specialize (H (PStr "c2")
                (mkCollection (PDict [("id", PStr "c2");
                                      ("__typename", PStr "CollectionPlace")]))).
  cbn in H. discriminate H. auto.
Qed.

(* ===================================================================== *)
(** ** Outcomes of one call *)
(* ===================================================================== *)

Section Outcomes.

Variable E : Env.

Lemma classify_answers history rq data :
  answers E history rq data ->
  classify E (execute_async E history rq) = Success data.
Proof.
  intros (response & Hex & Hdata & Herr & Hdict). rewrite Hex.
  destruct response as [ | | | | | |d]; try discriminate Hdata.
  cbn [py_get] in Hdata, Herr.
  destruct d as [|kv d]; [cbn in Hdata; inversion Hdata; subst; discriminate|].
  cbn [classify].
  destruct (dict_get (kv :: d) "errors"); rewrite Herr;
    (destruct (dict_get (kv :: d) "data") as [x|];
     inversion Hdata; subst; try discriminate Hdict;
     match goal with
     | |- context [match ?y with _ => _ end] =>
         destruct y; try discriminate Hdict; reflexivity
     end).
Qed.

Lemma classify_error history rq errors :
  reports_error E history rq errors ->
  classify E (execute_async E history rq) = Rejected errors.
Proof.
  intros (response & Hex & Htruthy & Hdict & Herrors & Hexp).
  rewrite Hex. destruct response as [ | | | | | |d]; try discriminate Hdict.
  destruct d as [|kv d]; [discriminate Htruthy|].
  cbn [classify]. cbn [py_get] in Herrors.
  destruct (dict_get (kv :: d) "errors"); inversion Herrors; subst;
    rewrite Hexp; reflexivity.
Qed.

Lemma classify_nothing history rq :
  answers_nothing E history rq ->
  classify E (execute_async E history rq) = NoResponse.
Proof.
  intros (response & Hex & H). rewrite Hex.
  destruct response as [ | | | | | |d]; try reflexivity.
  destruct d; [reflexivity|]. destruct H; discriminate.
Qed.

Lemma classify_without_data history rq response :
  answers_without_data E history rq response ->
  classify E (execute_async E history rq) = Unexpected response.
Proof.
  intros (Hex & Htruthy & Hdict & (errors & Herrors & Hnone) & (data & Hdata & Hnd)).
  rewrite Hex. destruct response as [ | | | | | |d]; try discriminate Hdict.
  destruct d as [|kv d]; [discriminate Htruthy|].
  cbn [classify]. cbn [py_get] in Herrors, Hdata.
  destruct (dict_get (kv :: d) "errors"); inversion Herrors; subst;
    rewrite Hnone;
    (destruct (dict_get (kv :: d) "data") as [x|]; inversion Hdata; subst;
     [match goal with
      | |- context [match ?y with _ => _ end] =>
          destruct y; try reflexivity; discriminate Hnd
      end
     | reflexivity]).
Qed.

(** A call whose exchange does not end in token expiry is the exchange. *)
Lemma _make_request_after_auth q v auth reauth c w c1 w1 h :
  after_auth E auth c w c1 w1 h ->
  (forall errors,
      classify E (execute_async E (sent w1) (mkRequest q v h)) <> Expired errors) ->
  _make_request E q v auth reauth c w = send_phase E q v h raise c1 w1.
Proof.
  unfold after_auth. destruct auth.
  - intros [[b Hauth] ->] Hne. rewrite _make_request_auth, Hauth.
    unfold send_phase.
    destruct (classify E _) eqn:Hcl; try reflexivity.
    exfalso. eapply Hne. reflexivity.
  - intros (-> & -> & ->) _. apply _make_request_noauth.
Qed.

Lemma _check_auth_usable c w :
  usable c -> _check_auth E c w = (Ok true, c, w).
Proof.
  intros [Ha Hr].
  assert (Ha' : is_None (_access_token c) = false)
    by (destruct (_access_token c) eqn:?; first [reflexivity | congruence]).
  assert (Hr' : is_None (_refresh_token c) = false)
    by (destruct (_refresh_token c) eqn:?; first [reflexivity | congruence]).
  unfold _check_auth, _check_auth_with, bind, getattr, ret,
    _needs_login, _needs_refresh.
  rewrite Hr', Ha', Hr'. reflexivity.
Qed.

End Outcomes.

Section CallOutcomes.

Variable E : Env.

(** X1: in a session that holds both tokens, an authenticated call whose
    request the remote answers with data sends that one request, with the
    stored access token as bearer, logs it and the response, returns the
    data and leaves the client as it was; the auth check sends nothing. *)
Theorem active_call_returns_data
  (q : string) (v : pyval) (reauth : bool) (c : Client E) (w : World) data :
  usable c ->
  answers E (sent w) (mkRequest q v (Authorization_Bearer (_access_token c)))
    data ->
  _make_request E q v true reauth c w
  = (Ok data, c,
     logged (response_record E q data)
       (sent_and_logged E
          (mkRequest q v (Authorization_Bearer (_access_token c))) w)).
Proof.
  intros Hus Hans. apply (classify_answers E) in Hans.
  rewrite (_make_request_after_auth E q v true reauth c w c w (_headers E c)).
  - unfold send_phase, _headers. rewrite Hans. reflexivity.
  - split; [|reflexivity]. exists true. apply _check_auth_usable, Hus.
  - intros errors. unfold _headers. rewrite Hans. discriminate.
Qed.

(** X2: an error of the remote other than token expiry is raised to the
    caller at once: the request is not sent again, and the client stays as
    the auth check left it, access token included. *)
Theorem remote_error_not_retried
  (q : string) (v : pyval) (auth reauth : bool) (c : Client E) (w : World)
  c1 w1 h errors :
  after_auth E auth c w c1 w1 h ->
  reports_error E (sent w1) (mkRequest q v h) errors ->
  _make_request E q v auth reauth c w
  = (Raise (GraphqlError errors), c1, sent_and_logged E (mkRequest q v h) w1).
Proof.
  intros Hauth Herr. apply (classify_error E) in Herr.
  rewrite (_make_request_after_auth E q v auth reauth c w c1 w1 h Hauth).
  - unfold send_phase. rewrite Herr. reflexivity.
  - intros e. rewrite Herr. discriminate.
Qed.

(** X3: when the executor hands back nothing, an empty mapping or
    something that is not a mapping, the call raises [NoResponseError]
    after the one request, without looking for errors or data. *)
Theorem empty_body_is_no_response
  (q : string) (v : pyval) (auth reauth : bool) (c : Client E) (w : World)
  c1 w1 h :
  after_auth E auth c w c1 w1 h ->
  answers_nothing E (sent w1) (mkRequest q v h) ->
  _make_request E q v auth reauth c w
  = (Raise NoResponseError, c1, sent_and_logged E (mkRequest q v h) w1).
Proof.
  intros Hauth Hno. apply (classify_nothing E) in Hno.
  rewrite (_make_request_after_auth E q v auth reauth c w c1 w1 h Hauth).
  - unfold send_phase. rewrite Hno. reflexivity.
  - intros e. rewrite Hno. discriminate.
Qed.

(** X4: a body free of errors whose data is missing or is not a mapping
    makes the call raise [UnexpectedResponseError] carrying the whole
    body; no response record is logged. *)
Theorem missing_data_is_unexpected
  (q : string) (v : pyval) (auth reauth : bool) (c : Client E) (w : World)
  c1 w1 h response :
  after_auth E auth c w c1 w1 h ->
  answers_without_data E (sent w1) (mkRequest q v h) response ->
  _make_request E q v auth reauth c w
  = (Raise (UnexpectedResponseError response), c1,
     sent_and_logged E (mkRequest q v h) w1).
Proof.
  intros Hauth Hno. apply (classify_without_data E) in Hno.
  rewrite (_make_request_after_auth E q v auth reauth c w c1 w1 h Hauth).
  - unfold send_phase. rewrite Hno. reflexivity.
  - intros e. rewrite Hno. discriminate.
Qed.

(** X5: [dump_schema] sends one request whatever the session: the schema
    query, without variables and without headers.  It never signs in or
    refreshes, and the one thing it can change in the client is to clear
    the access token, which it does exactly when it raises the token-expiry
    error. *)
Theorem dump_schema_one_bare_request (c : Client E) (w : World) :
  sent (world_of (dump_schema E c w))
  = mkRequest (DUMP_SCHEMA E) PNone NoHeaders :: sent w /\
  ((client_of (dump_schema E c w) = c /\
    forall errors,
      result_of (dump_schema E c w) <> Raise (AuthTokenExpiredError errors)) \/
   (client_of (dump_schema E c w) = with_access_token c PNone /\
    exists errors,
      result_of (dump_schema E c w) = Raise (AuthTokenExpiredError errors))).
Proof.
  unfold dump_schema. rewrite _make_request_noauth. unfold send_phase.
  destruct (classify E _); cbn; split; try reflexivity;
    try (left; split; [reflexivity | discriminate]).
  right. split; [reflexivity|]. eauto.
Qed.

End CallOutcomes.

Lemma active_call_returns_data_witness :
  usable (Sample.active FailureScenario.answering) /\
  answers FailureScenario.answering (sent Sample.world0)
    (mkRequest "query me" PNone (Authorization_Bearer (PStr "AT1")))
    (PDict [("me", Sample.profile)]) /\
  _make_request FailureScenario.answering "query me" PNone true true
    (Sample.active FailureScenario.answering) Sample.world0
  = (Ok (PDict [("me", Sample.profile)]),
     Sample.active FailureScenario.answering,
     logged (response_record FailureScenario.answering "query me"
               (PDict [("me", Sample.profile)]))
       (sent_and_logged FailureScenario.answering
          (mkRequest "query me" PNone (Authorization_Bearer (PStr "AT1")))
          Sample.world0)).
Proof.
  assert (H1 : usable (Sample.active FailureScenario.answering))
    by (split; vm_compute; discriminate).
  assert (H2 : answers FailureScenario.answering (sent Sample.world0)
                 (mkRequest "query me" PNone (Authorization_Bearer (PStr "AT1")))
                 (PDict [("me", Sample.profile)])).
  { eexists. split; [vm_compute; reflexivity|]. repeat split. }
  split; [exact H1|]. split; [exact H2|].
  exact (active_call_returns_data FailureScenario.answering "query me" PNone
           true (Sample.active FailureScenario.answering) Sample.world0 _
           H1 H2).
Defined.

Lemma remote_error_not_retried_witness :
  after_auth FailureScenario.rejecting true
    (Sample.active FailureScenario.rejecting) Sample.world0
    (Sample.active FailureScenario.rejecting) Sample.world0
    (Authorization_Bearer (PStr "AT1")) /\
  reports_error FailureScenario.rejecting (sent Sample.world0)
    (mkRequest "query me" PNone (Authorization_Bearer (PStr "AT1")))
    FailureScenario.errors /\
  _make_request FailureScenario.rejecting "query me" PNone true true
    (Sample.active FailureScenario.rejecting) Sample.world0
  = (Raise (GraphqlError FailureScenario.errors),
     Sample.active FailureScenario.rejecting,
     sent_and_logged FailureScenario.rejecting
       (mkRequest "query me" PNone (Authorization_Bearer (PStr "AT1")))
       Sample.world0).
Proof.
  assert (H1 : after_auth FailureScenario.rejecting true
                 (Sample.active FailureScenario.rejecting) Sample.world0
                 (Sample.active FailureScenario.rejecting) Sample.world0
                 (Authorization_Bearer (PStr "AT1"))).
  { split; [exists true; vm_compute; reflexivity | reflexivity]. }
  assert (H2 : reports_error FailureScenario.rejecting (sent Sample.world0)
                 (mkRequest "query me" PNone (Authorization_Bearer (PStr "AT1")))
                 FailureScenario.errors).
  { eexists. split; [vm_compute; reflexivity|]. repeat split. }
  split; [exact H1|]. split; [exact H2|].
  exact (remote_error_not_retried FailureScenario.rejecting "query me" PNone
           true true _ _ _ _ _ _ H1 H2).
Defined.

Lemma empty_body_is_no_response_witness :
  after_auth FailureScenario.silent false
    (__init__ FailureScenario.silent "u@x.com" "pw") Sample.world0
    (__init__ FailureScenario.silent "u@x.com" "pw") Sample.world0 NoHeaders /\
  answers_nothing FailureScenario.silent (sent Sample.world0)
    (mkRequest "query IntrospectionQuery" PNone NoHeaders) /\
  _make_request FailureScenario.silent "query IntrospectionQuery" PNone
    false true (__init__ FailureScenario.silent "u@x.com" "pw") Sample.world0
  = (Raise NoResponseError, __init__ FailureScenario.silent "u@x.com" "pw",
     sent_and_logged FailureScenario.silent
       (mkRequest "query IntrospectionQuery" PNone NoHeaders) Sample.world0).
Proof.
  assert (H1 : after_auth FailureScenario.silent false
    (__init__ FailureScenario.silent "u@x.com" "pw") Sample.world0
    (__init__ FailureScenario.silent "u@x.com" "pw") Sample.world0 NoHeaders)
    by (repeat split).
  assert (H2 : answers_nothing FailureScenario.silent (sent Sample.world0)
                 (mkRequest "query IntrospectionQuery" PNone NoHeaders)).
  { eexists. split; [vm_compute; reflexivity|]. left. reflexivity. }
  split; [exact H1|]. split; [exact H2|].
  exact (empty_body_is_no_response FailureScenario.silent
           "query IntrospectionQuery" PNone false true _ _ _ _ _ H1 H2).
Defined.

Lemma missing_data_is_unexpected_witness :
  after_auth FailureScenario.dataless false
    (__init__ FailureScenario.dataless "u@x.com" "pw") Sample.world0
    (__init__ FailureScenario.dataless "u@x.com" "pw") Sample.world0
    NoHeaders /\
  answers_without_data FailureScenario.dataless (sent Sample.world0)
    (mkRequest "query IntrospectionQuery" PNone NoHeaders)
    (PDict [("extensions", PDict [])]) /\
  _make_request FailureScenario.dataless "query IntrospectionQuery" PNone
    false true (__init__ FailureScenario.dataless "u@x.com" "pw") Sample.world0
  = (Raise (UnexpectedResponseError (PDict [("extensions", PDict [])])),
     __init__ FailureScenario.dataless "u@x.com" "pw",
     sent_and_logged FailureScenario.dataless
       (mkRequest "query IntrospectionQuery" PNone NoHeaders) Sample.world0).
Proof.
  assert (H1 : after_auth FailureScenario.dataless false
    (__init__ FailureScenario.dataless "u@x.com" "pw") Sample.world0
    (__init__ FailureScenario.dataless "u@x.com" "pw") Sample.world0 NoHeaders)
    by (repeat split).
  assert (H2 : answers_without_data FailureScenario.dataless (sent Sample.world0)
                 (mkRequest "query IntrospectionQuery" PNone NoHeaders)
                 (PDict [("extensions", PDict [])])).
  { split; [vm_compute; reflexivity|]. repeat split.
    - exists (PList []). split; reflexivity.
    - exists PNone. split; reflexivity. }
  split; [exact H1|]. split; [exact H2|].
  exact (missing_data_is_unexpected FailureScenario.dataless
           "query IntrospectionQuery" PNone false true _ _ _ _ _ _ H1 H2).
Defined.

(* ===================================================================== *)
(** ** Sign-in and token refresh *)
(* ===================================================================== *)

Section SessionFailures.

Variable E : Env.

Lemma has_credentials_truthy (c : Client E) :
  has_credentials c ->
  truthy (PStr (_email c)) && truthy (PStr (_password c)) = true.
Proof.
  intros [H1 H2]. cbn [truthy].
  apply String.eqb_neq in H1, H2. rewrite H1, H2. reflexivity.
Qed.

Lemma _check_auth_needs_login c w :
  _needs_login E c = true ->
  _check_auth E c w = _login E c (logged (mkLog DEBUG "Login required" []) w).
Proof.
  intros H. unfold _check_auth, _check_auth_with, bind, getattr.
  rewrite H. reflexivity.
Qed.

(** X6: a sign-in the remote rejects makes [_login] raise
    [AuthenticationFailedError] around the remote's error, after logging
    that error; the one request sent is the sign-in, and the client, tokens
    included, is as it was. *)
Theorem login_rejected_raises (c : Client E) (w : World) errors :
  has_credentials c ->
  reports_error E (sent w) (mkRequest (SIGN_IN E) (login_variables c) NoHeaders)
    errors ->
  _login E c w
  = (Raise (AuthenticationFailedError (GraphqlError errors)), c,
     logged (mkLog ERROR "Error logging in: %s" [LExn (GraphqlError errors)])
       (sent_and_logged E
          (mkRequest (SIGN_IN E) (login_variables c) NoHeaders) w)).
Proof.
  intros Hcred Herr. apply (classify_error E) in Herr.
  unfold _login, _login_with, bind, getattr, try_except.
  rewrite (has_credentials_truthy c Hcred). cbn [assert ret].
  rewrite _make_request_noauth. unfold send_phase.
  unfold login_variables in Herr. rewrite Herr. reflexivity.
Qed.

(** X7: with no refresh token and an empty email or password, every
    authenticated call fails the assertion of [_login]: it raises
    [AssertionError] before anything is sent and leaves the client as it
    was. *)
Theorem login_needs_credentials
  (q : string) (v : pyval) (reauth : bool) (c : Client E) (w : World) :
  _needs_login E c = true ->
  _email c = "" \/ _password c = "" ->
  _make_request E q v true reauth c w
  = (Raise AssertionError, c, logged (mkLog DEBUG "Login required" []) w).
Proof.
  intros Hnl Hempty. rewrite _make_request_auth.
  rewrite (_check_auth_needs_login c w Hnl).
  unfold _login, _login_with, bind, getattr.
  assert (H : truthy (PStr (_email c)) && truthy (PStr (_password c)) = false).
  { cbn [truthy]. destruct Hempty as [-> | ->]; cbn;
      rewrite ?andb_false_r; reflexivity. }
  rewrite H. reflexivity.
Qed.

Lemma truthy_not_None v : truthy v = true -> is_None v = false.
Proof. destruct v; cbn; congruence. Qed.

Lemma _check_auth_needs_refresh c w :
  _needs_login E c = false ->
  _access_token c = PNone ->
  _check_auth E c w
  = match _refresh_access_token E c
            (logged (mkLog DEBUG "Access token needs to be refreshed" []) w)
    with
    | (Ok _, c1, w1) => (Ok (negb (_needs_login E c1)), c1, w1)
    | (Raise e, c1, w1) => (Raise e, c1, w1)
    end.
Proof.
  intros Hnl Hacc. unfold _check_auth, _check_auth_with, bind, getattr.
  rewrite Hnl. unfold _needs_refresh. rewrite Hacc. cbn [is_None].
  unfold LOGGER at 1. fold (_refresh_access_token E). unfold logged.
  destruct (_refresh_access_token E c _) as [[[b|e] c1] w1]; reflexivity.
Qed.

(** X8: a token refresh the remote rejects makes the auth check raise
    [AuthenticationFailedError] and drops the refresh token, the rest of
    the client being kept: the next auth check needs a full login. *)
Theorem refresh_rejected_forces_login (c : Client E) (w : World) errors :
  truthy (_refresh_token c) = true ->
  _access_token c = PNone ->
  reports_error E (sent w)
    (mkRequest (REFRESH_AUTH_TOKEN E) (refresh_variables c) NoHeaders) errors ->
  _check_auth E c w
  = (Raise (AuthenticationFailedError (GraphqlError errors)),
     with_refresh_token c PNone,
     logged (mkLog ERROR "Error refreshing access token: %s"
               [LExn (GraphqlError errors)])
       (sent_and_logged E
          (mkRequest (REFRESH_AUTH_TOKEN E) (refresh_variables c) NoHeaders)
          (logged (mkLog DEBUG "Access token needs to be refreshed" []) w)))
  /\ _needs_login E (with_refresh_token c PNone) = true.
Proof.
  intros Htok Hacc Herr. split; [|reflexivity].
  apply (classify_error E) in Herr.
  rewrite _check_auth_needs_refresh;
    [| unfold _needs_login; apply truthy_not_None, Htok | exact Hacc].
  unfold _refresh_access_token, _refresh_access_token_with, bind, getattr,
    try_except.
  rewrite Htok. cbn [assert ret].
  rewrite _make_request_noauth. unfold send_phase.
  unfold refresh_variables in Herr. cbn [sent logged]. rewrite Herr.
  reflexivity.
Qed.

(** X9: a refresh token that is present and empty blocks the session:
    with no access token, every authenticated call fails the assertion of
    [_refresh_access_token], sending nothing and changing nothing, so the
    client never gets to log in again by itself. *)
Theorem empty_refresh_token_blocks_calls
  (q : string) (v : pyval) (reauth : bool) (c : Client E) (w : World) :
  _refresh_token c <> PNone ->
  truthy (_refresh_token c) = false ->
  _access_token c = PNone ->
  _make_request E q v true reauth c w
  = (Raise AssertionError, c,
     logged (mkLog DEBUG "Access token needs to be refreshed" []) w).
Proof.
  intros Hne Htok Hacc. rewrite _make_request_auth.
  rewrite _check_auth_needs_refresh;
    [| unfold _needs_login; destruct (_refresh_token c) eqn:?;
       first [reflexivity | congruence]
     | exact Hacc].
  unfold _refresh_access_token, _refresh_access_token_with, bind, getattr.
  rewrite Htok. reflexivity.
Qed.

(** X10: a token refresh the remote answers installs the pair of the
    answer, a token the answer lacks becoming [None], and the auth check
    then tells whether a refresh token is held. *)
Theorem token_refresh_installs_pair (c : Client E) (w : World) data pair :
  truthy (_refresh_token c) = true ->
  _access_token c = PNone ->
  answers E (sent w)
    (mkRequest (REFRESH_AUTH_TOKEN E) (refresh_variables c) NoHeaders) data ->
  py_getitem data "authRefreshToken" = Ok (PDict pair) ->
  _check_auth E c w
  = (Ok (negb (is_None (match dict_get pair "refreshToken" with
                        | Some tok => tok
                        | None => PNone
                        end))),
     with_refresh_token
       (with_access_token c
          (match dict_get pair "accessToken" with
           | Some tok => tok
           | None => PNone
           end))
       (match dict_get pair "refreshToken" with
        | Some tok => tok
        | None => PNone
        end),
     logged (mkLog INFO "Access token refreshed" [])
       (logged (response_record E (REFRESH_AUTH_TOKEN E) data)
          (sent_and_logged E
             (mkRequest (REFRESH_AUTH_TOKEN E) (refresh_variables c) NoHeaders)
             (logged (mkLog DEBUG "Access token needs to be refreshed" []) w)))).
Proof.
  intros Htok Hacc Hans Hpair. apply (classify_answers E) in Hans.
  rewrite _check_auth_needs_refresh;
    [| unfold _needs_login; apply truthy_not_None, Htok | exact Hacc].
  unfold _refresh_access_token, _refresh_access_token_with, bind, getattr,
    try_except.
  rewrite Htok. cbn [assert ret].
  rewrite _make_request_noauth. unfold send_phase.
  unfold refresh_variables in Hans. cbn [sent logged]. rewrite Hans.
  unfold lift, setattr, LOGGER. rewrite Hpair. cbn [py_get].
  destruct (dict_get pair "accessToken"), (dict_get pair "refreshToken");
    reflexivity.
Qed.

(** X11: a sign-in the remote answers with a token pair and a profile
    installs both tokens as they come and goes on to merge the profile:
    the login ends as [_save_me] does on that profile. *)
Theorem login_installs_pair
  (c : Client E) (w : World) data pair access refresh me :
  has_credentials c ->
  answers E (sent w) (mkRequest (SIGN_IN E) (login_variables c) NoHeaders) data ->
  py_getitem data "authEmailSignIn" = Ok pair ->
  py_getitem pair "accessToken" = Ok access ->
  py_getitem pair "refreshToken" = Ok refresh ->
  py_getitem pair "me" = Ok me ->
  _login E c w
  = _save_me E me
      (with_refresh_token (with_access_token c access) refresh)
      (logged (response_record E (SIGN_IN E) data)
         (sent_and_logged E
            (mkRequest (SIGN_IN E) (login_variables c) NoHeaders) w)).
Proof.
  intros Hcred Hans Hpair Ha Hr Hme. apply (classify_answers E) in Hans.
  unfold _login, _login_with, bind, getattr, try_except.
  rewrite (has_credentials_truthy c Hcred). cbn [assert ret].
  rewrite _make_request_noauth. unfold send_phase.
  unfold login_variables in Hans. rewrite Hans.
  unfold lift, setattr. rewrite Hpair, Ha, Hr, Hme.
  destruct (_save_me E me _ _) as [[[b|e] c1] w1]; reflexivity.
Qed.

(** X12: a sign-in answered with an access token and no ["refreshToken"]
    key raises [KeyError] after the access token is installed: the client
    is left with the new access token and its old refresh token. *)
Theorem login_without_refresh_token_key
  (c : Client E) (w : World) data pair access :
  has_credentials c ->
  answers E (sent w) (mkRequest (SIGN_IN E) (login_variables c) NoHeaders) data ->
  py_getitem data "authEmailSignIn" = Ok (PDict pair) ->
  dict_get pair "accessToken" = Some access ->
  dict_get pair "refreshToken" = None ->
  _login E c w
  = (Raise (KeyError "refreshToken"),
     with_access_token c access,
     logged (response_record E (SIGN_IN E) data)
       (sent_and_logged E
          (mkRequest (SIGN_IN E) (login_variables c) NoHeaders) w)).
Proof.
  intros Hcred Hans Hpair Ha Hr. apply (classify_answers E) in Hans.
  unfold _login, _login_with, bind, getattr, try_except.
  rewrite (has_credentials_truthy c Hcred). cbn [assert ret].
  rewrite _make_request_noauth. unfold send_phase.
  unfold login_variables in Hans. rewrite Hans.
  unfold lift, setattr. rewrite Hpair. cbn [py_getitem].
  rewrite Ha, Hr. reflexivity.
Qed.

End SessionFailures.

Lemma login_rejected_raises_witness :
  has_credentials (__init__ FailureScenario.rejecting "u@x.com" "pw") /\
  reports_error FailureScenario.rejecting (sent Sample.world0)
    (mkRequest (SIGN_IN FailureScenario.rejecting)
       (login_variables (__init__ FailureScenario.rejecting "u@x.com" "pw"))
       NoHeaders)
    FailureScenario.errors /\
  result_of (_login FailureScenario.rejecting
               (__init__ FailureScenario.rejecting "u@x.com" "pw")
               Sample.world0)
  = Raise (AuthenticationFailedError (GraphqlError FailureScenario.errors)).
Proof.
  assert (H1 : has_credentials (__init__ FailureScenario.rejecting "u@x.com" "pw"))
    by (split; discriminate).
  assert (H2 : reports_error FailureScenario.rejecting (sent Sample.world0)
    (mkRequest (SIGN_IN FailureScenario.rejecting)
       (login_variables (__init__ FailureScenario.rejecting "u@x.com" "pw"))
       NoHeaders)
    FailureScenario.errors).
  { eexists. split; [vm_compute; reflexivity|]. repeat split. }
  split; [exact H1|]. split; [exact H2|].
  rewrite (login_rejected_raises FailureScenario.rejecting _ _ _ H1 H2).
  reflexivity.
Defined.

Lemma login_needs_credentials_witness :
  _needs_login (Sample.env []) (__init__ (Sample.env []) "" "pw") = true /\
  (_email (__init__ (Sample.env []) "" "pw") = "" \/
   _password (__init__ (Sample.env []) "" "pw") = "") /\
  _make_request (Sample.env []) "query me" PNone true true
    (__init__ (Sample.env []) "" "pw") Sample.world0
  = (Raise AssertionError, __init__ (Sample.env []) "" "pw",
     logged (mkLog DEBUG "Login required" []) Sample.world0).
Proof.
  split; [reflexivity|]. split; [left; reflexivity|].
  apply (login_needs_credentials (Sample.env []) "query me" PNone true
           (__init__ (Sample.env []) "" "pw") Sample.world0);
    [reflexivity | left; reflexivity].
Defined.

Lemma refresh_rejected_forces_login_witness :
  truthy (_refresh_token (SessionScenario.expired FailureScenario.rejecting))
  = true /\
  _access_token (SessionScenario.expired FailureScenario.rejecting) = PNone /\
  reports_error FailureScenario.rejecting (sent Sample.world0)
    (mkRequest (REFRESH_AUTH_TOKEN FailureScenario.rejecting)
       (refresh_variables (SessionScenario.expired FailureScenario.rejecting))
       NoHeaders)
    FailureScenario.errors /\
  _refresh_token
    (client_of (_check_auth FailureScenario.rejecting
                  (SessionScenario.expired FailureScenario.rejecting)
                  Sample.world0))
  = PNone.
Proof.
  assert (H3 : reports_error FailureScenario.rejecting (sent Sample.world0)
    (mkRequest (REFRESH_AUTH_TOKEN FailureScenario.rejecting)
       (refresh_variables (SessionScenario.expired FailureScenario.rejecting))
       NoHeaders)
    FailureScenario.errors).
  { eexists. split; [vm_compute; reflexivity|]. repeat split. }
  split; [reflexivity|]. split; [reflexivity|]. split; [exact H3|].
  rewrite (proj1 (refresh_rejected_forces_login FailureScenario.rejecting
                    (SessionScenario.expired FailureScenario.rejecting)
                    Sample.world0 _ eq_refl eq_refl H3)).
  reflexivity.
Defined.

Lemma empty_refresh_token_blocks_calls_witness :
  _refresh_token (with_refresh_token (__init__ (Sample.env []) "u@x.com" "pw")
                    (PStr "")) <> PNone /\
  truthy (_refresh_token
            (with_refresh_token (__init__ (Sample.env []) "u@x.com" "pw")
               (PStr ""))) = false /\
  _access_token (with_refresh_token (__init__ (Sample.env []) "u@x.com" "pw")
                   (PStr "")) = PNone /\
  _make_request (Sample.env []) "query me" PNone true true
    (with_refresh_token (__init__ (Sample.env []) "u@x.com" "pw") (PStr ""))
    Sample.world0
  = (Raise AssertionError,
     with_refresh_token (__init__ (Sample.env []) "u@x.com" "pw") (PStr ""),
     logged (mkLog DEBUG "Access token needs to be refreshed" [])
       Sample.world0).
Proof.
  assert (H1 : _refresh_token
                 (with_refresh_token (__init__ (Sample.env []) "u@x.com" "pw")
                    (PStr "")) <> PNone) by (cbn; discriminate).
  split; [exact H1|]. split; [reflexivity|]. split; [reflexivity|].
  exact (empty_refresh_token_blocks_calls (Sample.env []) "query me" PNone true
           _ Sample.world0 H1 eq_refl eq_refl).
Defined.

Lemma token_refresh_installs_pair_witness :
  truthy (_refresh_token (SessionScenario.expired SessionScenario.refreshing))
  = true /\
  _access_token (SessionScenario.expired SessionScenario.refreshing) = PNone /\
  answers SessionScenario.refreshing (sent Sample.world0)
    (mkRequest (REFRESH_AUTH_TOKEN SessionScenario.refreshing)
       (refresh_variables (SessionScenario.expired SessionScenario.refreshing))
       NoHeaders)
    (PDict [("authRefreshToken",
             PDict [("accessToken", PStr "AT2"); ("refreshToken", PStr "RT2")])])
  /\
  result_of (_check_auth SessionScenario.refreshing
               (SessionScenario.expired SessionScenario.refreshing)
               Sample.world0) = Ok true /\
  _access_token
    (client_of (_check_auth SessionScenario.refreshing
                  (SessionScenario.expired SessionScenario.refreshing)
                  Sample.world0)) = PStr "AT2".
Proof.
  assert (H3 : answers SessionScenario.refreshing (sent Sample.world0)
    (mkRequest (REFRESH_AUTH_TOKEN SessionScenario.refreshing)
       (refresh_variables (SessionScenario.expired SessionScenario.refreshing))
       NoHeaders)
    (PDict [("authRefreshToken",
             PDict [("accessToken", PStr "AT2"); ("refreshToken", PStr "RT2")])])).
  { eexists. split; [vm_compute; reflexivity|]. repeat split. }
  split; [reflexivity|]. split; [reflexivity|]. split; [exact H3|].
  rewrite (token_refresh_installs_pair SessionScenario.refreshing
             (SessionScenario.expired SessionScenario.refreshing)
             Sample.world0 _ _ eq_refl eq_refl H3 eq_refl).
  split; reflexivity.
Defined.

Lemma login_installs_pair_witness :
  has_credentials (__init__ SessionScenario.signing_in "u@x.com" "pw") /\
  answers SessionScenario.signing_in (sent Sample.world0)
    (mkRequest (SIGN_IN SessionScenario.signing_in)
       (login_variables (__init__ SessionScenario.signing_in "u@x.com" "pw"))
       NoHeaders)
    (PDict [("authEmailSignIn",
             PDict [("accessToken", PStr "AT1");
                    ("refreshToken", PStr "RT1");
                    ("me", Sample.profile)])]) /\
  _login SessionScenario.signing_in
    (__init__ SessionScenario.signing_in "u@x.com" "pw") Sample.world0
  = _save_me SessionScenario.signing_in Sample.profile
      (with_refresh_token
         (with_access_token
            (__init__ SessionScenario.signing_in "u@x.com" "pw") (PStr "AT1"))
         (PStr "RT1"))
      (logged (response_record SessionScenario.signing_in
                 (SIGN_IN SessionScenario.signing_in)
                 (PDict [("authEmailSignIn",
                          PDict [("accessToken", PStr "AT1");
                                 ("refreshToken", PStr "RT1");
                                 ("me", Sample.profile)])]))
         (sent_and_logged SessionScenario.signing_in
            (mkRequest (SIGN_IN SessionScenario.signing_in)
               (login_variables
                  (__init__ SessionScenario.signing_in "u@x.com" "pw"))
               NoHeaders)
            Sample.world0)).
Proof.
  assert (H1 : has_credentials (__init__ SessionScenario.signing_in "u@x.com" "pw"))
    by (split; discriminate).
  assert (H2 : answers SessionScenario.signing_in (sent Sample.world0)
    (mkRequest (SIGN_IN SessionScenario.signing_in)
       (login_variables (__init__ SessionScenario.signing_in "u@x.com" "pw"))
       NoHeaders)
    (PDict [("authEmailSignIn",
             PDict [("accessToken", PStr "AT1");
                    ("refreshToken", PStr "RT1");
                    ("me", Sample.profile)])])).
  { eexists. split; [vm_compute; reflexivity|]. repeat split. }
  split; [exact H1|]. split; [exact H2|].
  exact (login_installs_pair SessionScenario.signing_in _ _ _ _ _ _ _
           H1 H2 eq_refl eq_refl eq_refl eq_refl).
Defined.

Lemma login_without_refresh_token_key_witness :
  has_credentials (__init__ SessionScenario.half_pair "u@x.com" "pw") /\
  answers SessionScenario.half_pair (sent Sample.world0)
    (mkRequest (SIGN_IN SessionScenario.half_pair)
       (login_variables (__init__ SessionScenario.half_pair "u@x.com" "pw"))
       NoHeaders)
    (PDict [("authEmailSignIn", PDict [("accessToken", PStr "AT1")])]) /\
  result_of (_login SessionScenario.half_pair
               (__init__ SessionScenario.half_pair "u@x.com" "pw")
               Sample.world0) = Raise (KeyError "refreshToken") /\
  _access_token
    (client_of (_login SessionScenario.half_pair
                  (__init__ SessionScenario.half_pair "u@x.com" "pw")
                  Sample.world0)) = PStr "AT1".
Proof.
  assert (H1 : has_credentials (__init__ SessionScenario.half_pair "u@x.com" "pw"))
    by (split; discriminate).
  assert (H2 : answers SessionScenario.half_pair (sent Sample.world0)
    (mkRequest (SIGN_IN SessionScenario.half_pair)
       (login_variables (__init__ SessionScenario.half_pair "u@x.com" "pw"))
       NoHeaders)
    (PDict [("authEmailSignIn", PDict [("accessToken", PStr "AT1")])])).
  { eexists. split; [vm_compute; reflexivity|]. repeat split. }
  split; [exact H1|]. split; [exact H2|].
  rewrite (login_without_refresh_token_key SessionScenario.half_pair _ _ _ _ _
             H1 H2 eq_refl eq_refl eq_refl).
  split; reflexivity.
Defined.

(* ===================================================================== *)
(** ** What the operations keep *)
(* ===================================================================== *)

Section Keeps.

Variable E : Env.
Variable J : Client E -> Prop.

Hypothesis J_access : forall c v, J c -> J (with_access_token c v).
Hypothesis J_refresh : forall c v, J c -> J (with_refresh_token c v).
Hypothesis J_me : forall c v, J c -> J (with_me c v).
Hypothesis J_feeder :
  forall c k x, J c -> J (with_feeders c (cache_set (_feeders c) k x)).

Lemma save_feeder_keeps f : preserves (fun c _ => J c) (save_feeder E f).
Proof.
  intros c w HJ. unfold save_feeder, bind, lift, getattr, setattr.
  destruct (py_getitem f "id") as [k|e]; [|exact HJ].
  destruct (hashable k); cbn; [|exact HJ].
  destruct (cache_get (_feeders c) k); apply J_feeder, HJ.
Qed.

Lemma _save_me_keeps me : preserves (fun c _ => J c) (_save_me E me).
Proof.
  unfold _save_me. pose proof save_feeder_keeps.
  repeat first [solve [auto] | pres_step]; intros; auto.
Qed.

Lemma send_phase_keeps q v h on_expired :
  (forall e, preserves (fun c _ => J c) (on_expired e)) ->
  preserves (fun c _ => J c) (send_phase E q v h on_expired).
Proof.
  intros Hexp c w HJ. unfold send_phase.
  destruct (classify E _); auto.
  apply Hexp. auto.
Qed.

Lemma _make_request_noauth_keeps q v r :
  preserves (fun c _ => J c) (_make_request E q v false r).
Proof.
  eapply preserves_meq; [intros c w; apply _make_request_noauth|].
  apply send_phase_keeps. intros e. apply preserves_raise.
Qed.

Lemma _login_keeps : preserves (fun c _ => J c) (_login E).
Proof.
  unfold _login, _login_with.
  pose proof _make_request_noauth_keeps. pose proof _save_me_keeps.
  repeat first [pres_step | solve [auto]]; intros; auto.
Qed.

Lemma _refresh_access_token_keeps :
  preserves (fun c _ => J c) (_refresh_access_token E).
Proof.
  unfold _refresh_access_token, _refresh_access_token_with.
  pose proof _make_request_noauth_keeps.
  repeat first [pres_step | solve [auto]]; intros; auto.
Qed.

Lemma _check_auth_keeps : preserves (fun c _ => J c) (_check_auth E).
Proof.
  unfold _check_auth, _check_auth_with.
  pose proof _login_keeps. pose proof _refresh_access_token_keeps.
  repeat first [solve [auto] | pres_step]; intros; auto.
Qed.

Lemma _make_request_keeps q v auth reauth :
  preserves (fun c _ => J c) (_make_request E q v auth reauth).
Proof.
  assert (Hno : forall q v, preserves (fun c _ => J c)
                              (_make_request E q v true false)).
  { intros q0 v0 c w HJ. rewrite _make_request_auth.
    pose proof (_check_auth_keeps c w HJ) as H.
    destruct (_check_auth E c w) as [[[ok|e] c1] w1]; [|exact H].
    apply send_phase_keeps; [|exact H]. intros e. apply preserves_raise. }
  destruct auth; [|apply _make_request_noauth_keeps].
  intros c w HJ. rewrite _make_request_auth.
  pose proof (_check_auth_keeps c w HJ) as H.
  destruct (_check_auth E c w) as [[[ok|e] c1] w1]; [|exact H].
  apply send_phase_keeps; [|exact H].
  intros e. destruct reauth; [apply Hno | apply preserves_raise].
Qed.

Lemma refresh_collections_keeps of_type :
  (forall c new, J c ->
     J (with_collections c (cache_update (_collections c) new))) ->
  preserves (fun c _ => J c) (refresh_collections E of_type).
Proof.
  intros Hcol c w HJ. unfold refresh_collections. unfold bind at 1.
  pose proof (_make_request_keeps (COLLECTIONS E) PNone true true c w HJ) as H.
  destruct (_make_request E (COLLECTIONS E) PNone true true c w)
    as [[[data|e] c1] w1]; [|exact H].
  unfold bind, lift, getattr, setattr.
  destruct (py_getitem data "me") as [me|e]; [|exact H].
  destruct (py_getitem me "collections") as [rs|e]; [|exact H].
  destruct (py_iter rs) as [records|e]; [|exact H].
  destruct (collections_of_type _ records []) as [new|e]; [|exact H].
  apply Hcol, H.
Qed.

(** Every operation but the two that own an attribute. *)
Lemma run_call_keeps call :
  ((forall c d, J c -> J (with_last_feed_date c d)) \/
   forall since, call <> Call_refresh_feed since) ->
  ((forall c new, J c ->
      J (with_collections c (cache_update (_collections c) new))) \/
   forall of_type, call <> Call_refresh_collections of_type) ->
  preserves (fun c _ => J c) (run_call E call).
Proof.
  intros Hwm Hcol.
  pose proof _make_request_keeps as Hmr.
  pose proof _save_me_keeps as Hsm.
  pose proof _check_auth_keeps as Hca.
  pose proof _login_keeps as Hlg.
  pose proof _refresh_access_token_keeps as Hrf.
  destruct call; cbn [run_call]; unfold ignore.
  all: try solve [
    unfold dump_schema, refresh, feed, feed_nodes, new_postcards,
      feed_nodes, feed, sighting_from_postcard, finish_postcard,
      collections, collection, feeders, _clear;
    repeat first [solve [auto] | pres_step]; intros; auto ].
  - destruct Hwm as [Hwm | Hwm]; [|exfalso; eapply Hwm; reflexivity].
    unfold refresh_feed, feed.
    repeat first [solve [auto] | pres_step]; intros; auto.
  - destruct Hcol as [Hcol | Hcol]; [|exfalso; eapply Hcol; reflexivity].
    apply preserves_bind; [|intro; apply preserves_ret].
    apply refresh_collections_keeps, Hcol.
Qed.

End Keeps.

Section CacheLookup.

Context {V : Type}.
Implicit Types (m : list (pyval * V)) (k : pyval) (v : V).

Lemma cache_get_equiv m k k' :
  key_eqb k k' = true -> cache_get m k = cache_get m k'.
Proof.
  intros Hk. induction m as [|[k0 v0] m IH]; cbn [cache_get]; [reflexivity|].
  destruct (key_eqb k0 k) eqn:H0, (key_eqb k0 k') eqn:H1; auto.
  - rewrite (key_eqb_trans _ _ _ H0 Hk) in H1. discriminate.
  - rewrite key_eqb_sym in Hk.
    rewrite (key_eqb_trans _ _ _ H1 Hk) in H0. discriminate.
Qed.

Lemma cache_get_set m k0 v k :
  cache_get (cache_set m k0 v) k
  = if key_eqb k0 k then Some v else cache_get m k.
Proof.
  destruct (key_eqb k0 k) eqn:Hk; [|apply cache_get_set_other, Hk].
  induction m as [|[k1 v1] m IH]; cbn [cache_set cache_get].
  - rewrite Hk. reflexivity.
  - destruct (key_eqb k1 k0) eqn:H1; cbn [cache_get].
    + rewrite (key_eqb_trans _ _ _ H1 Hk). reflexivity.
    + destruct (key_eqb k1 k) eqn:H2; [|exact IH].
      rewrite key_eqb_sym in Hk.
      rewrite (key_eqb_trans _ _ _ H2 Hk) in H1. discriminate.
Qed.

Lemma cache_set_keeps_keys m k0 v k :
  cache_get m k <> None -> cache_get (cache_set m k0 v) k <> None.
Proof.
  intros H. rewrite cache_get_set. destruct (key_eqb k0 k); [discriminate | exact H].
Qed.

Lemma cache_update_keeps_keys new : forall m k,
  cache_get m k <> None -> cache_get (cache_update m new) k <> None.
Proof.
  unfold cache_update.
  induction new as [|[k0 v0] new IH]; intros m k H; cbn [fold_left fst snd].
  - exact H.
  - apply IH, cache_set_keeps_keys, H.
Qed.

Lemma distinct_keys_cache_update new : forall m,
  distinct_keys m -> distinct_keys (cache_update m new).
Proof.
  unfold cache_update.
  induction new as [|[k0 v0] new IH]; intros m H; cbn [fold_left fst snd].
  - exact H.
  - apply IH, distinct_keys_cache_set, H.
Qed.

End CacheLookup.

Section Ownership.

Variable E : Env.

(** X13: no operation changes the credentials of the client; the feed
    watermark is changed by [refresh_feed] alone and the collections cache
    by [refresh_collections] alone, however the operation ends. *)
Theorem operations_own_their_attributes
  (call : api_call) (c : Client E) (w : World) :
  _email (client_of (run_call E call c w)) = _email c /\
  _password (client_of (run_call E call c w)) = _password c /\
  ((forall since, call <> Call_refresh_feed since) ->
   _last_feed_date (client_of (run_call E call c w)) = _last_feed_date c) /\
  ((forall of_type, call <> Call_refresh_collections of_type) ->
   _collections (client_of (run_call E call c w)) = _collections c).
Proof.
  unfold client_of.
  pose proof (run_call_keeps E
                (fun c0 => _email c0 = _email c /\ _password c0 = _password c)
                ltac:(auto) ltac:(auto) ltac:(auto) ltac:(auto) call
                (or_introl (fun _ _ H => H)) (or_introl (fun _ _ H => H))
                c w (conj eq_refl eq_refl)) as Hcred.
  assert (Hwm : (forall since, call <> Call_refresh_feed since) ->
                match run_call E call c w with
                | (_, c', _) => _last_feed_date c' = _last_feed_date c
                end).
  { intros Hne.
    exact (run_call_keeps E (fun c0 => _last_feed_date c0 = _last_feed_date c)
             ltac:(auto) ltac:(auto) ltac:(auto) ltac:(auto) call
             (or_intror Hne) (or_introl (fun _ _ H => H)) c w eq_refl). }
  assert (Hcol : (forall of_type, call <> Call_refresh_collections of_type) ->
                 match run_call E call c w with
                 | (_, c', _) => _collections c' = _collections c
                 end).
  { intros Hne.
    exact (run_call_keeps E (fun c0 => _collections c0 = _collections c)
             ltac:(auto) ltac:(auto) ltac:(auto) ltac:(auto) call
             (or_introl (fun _ _ H => H)) (or_intror Hne) c w eq_refl). }
  destruct (run_call E call c w) as [[r c'] w']. cbn.
  destruct Hcred. auto.
Qed.

(** X14: no operation removes an entry from the feeder cache or from the
    collections cache: an id that is cached before an operation is cached
    after it, however the operation ends. *)
Theorem caches_never_forget
  (call : api_call) (c : Client E) (w : World) (k : pyval) :
  (cache_get (_feeders c) k <> None ->
   cache_get (_feeders (client_of (run_call E call c w))) k <> None) /\
  (cache_get (_collections c) k <> None ->
   cache_get (_collections (client_of (run_call E call c w))) k <> None).
Proof.
  unfold client_of. split; intros H.
  - assert (Hset : forall (c0 : Client E) k0 x,
               cache_get (_feeders c0) k <> None ->
               cache_get (_feeders (with_feeders c0
                                      (cache_set (_feeders c0) k0 x))) k
               <> None).
    { intros c0 k0 x H0. cbn. apply cache_set_keeps_keys, H0. }
    pose proof (run_call_keeps E (fun c0 => cache_get (_feeders c0) k <> None)
                  ltac:(auto) ltac:(auto) ltac:(auto) Hset call
                  (or_introl (fun _ _ H => H)) (or_introl (fun _ _ H => H))
                  c w H) as Hk.
    destruct (run_call E call c w) as [[r c'] w']. exact Hk.
  - assert (Hupd : forall (c0 : Client E) new,
               cache_get (_collections c0) k <> None ->
               cache_get (_collections
                            (with_collections c0
                               (cache_update (_collections c0) new))) k
               <> None).
    { intros c0 new H0. cbn. apply cache_update_keeps_keys, H0. }
    pose proof (run_call_keeps E (fun c0 => cache_get (_collections c0) k <> None)
                  ltac:(auto) ltac:(auto) ltac:(auto) ltac:(auto)
                  call (or_introl (fun _ _ H => H)) (or_introl Hupd)
                  c w H) as Hk.
    destruct (run_call E call c w) as [[r c'] w']. exact Hk.
Qed.

(** X15: in every state a client can reach, the feeder cache and the
    collections cache hold at most one entry per id. *)
Theorem caches_hold_one_entry_per_id (c : Client E) (w : World) :
  reachable E c w ->
  distinct_keys (_feeders c) /\ distinct_keys (_collections c).
Proof.
  induction 1 as [email password w | c w call Hreach IH].
  - split; constructor.
  - assert (Hset : forall (c0 : Client E) k0 x,
               distinct_keys (_feeders c0) /\ distinct_keys (_collections c0) ->
               distinct_keys (_feeders (with_feeders c0
                                          (cache_set (_feeders c0) k0 x))) /\
               distinct_keys (_collections
                                (with_feeders c0
                                   (cache_set (_feeders c0) k0 x)))).
    { intros c0 k0 x [H1 H2]. split; cbn;
        [apply distinct_keys_cache_set|]; assumption. }
    assert (Hupd : forall (c0 : Client E) new,
               distinct_keys (_feeders c0) /\ distinct_keys (_collections c0) ->
               distinct_keys (_feeders
                                (with_collections c0
                                   (cache_update (_collections c0) new))) /\
               distinct_keys (_collections
                                (with_collections c0
                                   (cache_update (_collections c0) new)))).
    { intros c0 new [H1 H2]. split; cbn;
        [|apply distinct_keys_cache_update]; assumption. }
    pose proof (run_call_keeps E
                  (fun c0 => distinct_keys (_feeders c0) /\
                             distinct_keys (_collections c0))
                  ltac:(auto) ltac:(auto) ltac:(auto) Hset call
                  (or_introl (fun _ _ H => H)) (or_introl Hupd)
                  c w IH) as Hk.
    unfold client_of. destruct (run_call E call c w) as [[r c'] w']. exact Hk.
Qed.

End Ownership.

Lemma caches_hold_one_entry_per_id_witness :
  reachable PairedScenario.E
    (client_of PairedScenario.call) (world_of PairedScenario.call) /\
  distinct_keys (_feeders (client_of PairedScenario.call)) /\
  distinct_keys (_collections (client_of PairedScenario.call)).
Proof.
  assert (H : reachable PairedScenario.E
                (client_of PairedScenario.call) (world_of PairedScenario.call)).
  { apply reachable_call. apply reachable_init. }
  split; [exact H|].
  exact (caches_hold_one_entry_per_id PairedScenario.E _ _ H).
Defined.

(* ===================================================================== *)
(** ** Lookups after a merge *)
(* ===================================================================== *)

Section CollectionsLookup.

Lemma incoming_of_type_found typename records k : forall found,
  incoming_of_type typename records k found
  = match incoming_of_type typename records k None with
    | Some col => Some col
    | None => found
    end.
Proof.
  induction records as [|d records IH]; intros found; cbn [incoming_of_type].
  - reflexivity.
  - rewrite IH. symmetry. rewrite IH. symmetry.
    destruct (incoming_of_type typename records k None); [reflexivity|].
    destruct (py_getitem d "__typename"); [|reflexivity].
    destruct (py_getitem d "id"); [|reflexivity].
    destruct (eq_str a typename && key_eqb a0 k); reflexivity.
Qed.

Lemma collections_of_type_lookup typename records k : forall acc res,
  collections_of_type typename records acc = Ok res ->
  cache_get res k
  = match incoming_of_type typename records k None with
    | Some col => Some col
    | None => cache_get acc k
    end.
Proof.
  induction records as [|d records IH]; intros acc res Hres;
    cbn [collections_of_type incoming_of_type] in *.
  - inversion Hres. reflexivity.
  - rewrite incoming_of_type_found.
    destruct (py_getitem d "__typename") as [t|e]; cbn [rbind] in Hres;
      [|discriminate].
    destruct (eq_str t typename) eqn:Ht; cbn [andb].
    + unfold collection_id in Hres. cbn [collection_record] in Hres.
      destruct (py_getitem d "id") as [i|e]; cbn [rbind] in Hres; [|discriminate].
      destruct (hashable i); [|discriminate].
      rewrite (IH _ _ Hres). rewrite cache_get_set.
      destruct (incoming_of_type typename records k None); [reflexivity|].
      destruct (key_eqb i k); reflexivity.
    + rewrite (IH _ _ Hres).
      destruct (incoming_of_type typename records k None); [reflexivity|].
      destruct (py_getitem d "id"); reflexivity.
Qed.

Lemma collections_of_type_distinct typename records : forall acc res,
  collections_of_type typename records acc = Ok res ->
  distinct_keys acc -> distinct_keys res.
Proof.
  induction records as [|d records IH]; intros acc res Hres Hacc;
    cbn [collections_of_type] in Hres.
  - inversion Hres; subst. exact Hacc.
  - destruct (py_getitem d "__typename") as [t|e]; cbn [rbind] in Hres;
      [|discriminate].
    destruct (eq_str t typename); [|eapply IH; eassumption].
    destruct (collection_id (mkCollection d)) as [i|e]; cbn [rbind] in Hres;
      [|discriminate].
    destruct (hashable i); [|discriminate].
    eapply IH; [eassumption|]. apply distinct_keys_cache_set, Hacc.
Qed.

Lemma cache_get_update {V} (new : list (pyval * V)) : forall m k,
  distinct_keys new ->
  cache_get (cache_update m new) k
  = match cache_get new k with
    | Some v => Some v
    | None => cache_get m k
    end.
Proof.
  unfold cache_update.
  induction new as [|[k0 v0] new IH]; intros m k Hd; cbn [fold_left fst snd].
  - reflexivity.
  - inversion Hd as [|? ? ? Hget Hd']; subst.
    rewrite (IH _ _ Hd'). cbn [cache_get]. rewrite cache_get_set.
    destruct (key_eqb k0 k) eqn:Hk; [|reflexivity].
    rewrite <- (cache_get_equiv new _ _ Hk), Hget. reflexivity.
Qed.

Variable E : Env.

(** X16: [refresh_collections] merges all the incoming records or none:
    when it raises, be it in the pipeline or on a record without type tag
    or id, the collections cache is as it was before the call. *)
Theorem refresh_collections_all_or_nothing
  (of_type : string) (c : Client E) (w : World) e :
  result_of (refresh_collections E of_type c w) = Raise e ->
  _collections (client_of (refresh_collections E of_type c w)) = _collections c.
Proof.
  unfold result_of, client_of.
  destruct (refresh_collections E of_type c w) as [[r c'] w'] eqn:Hrun.
  cbn. intros ->. revert Hrun.
  unfold refresh_collections. unfold bind at 1.
  pose proof (_make_request_frame E (fun c0 => _collections c0 = _collections c)
                ltac:(auto) ltac:(auto) ltac:(auto) ltac:(auto)
                (COLLECTIONS E) PNone true true c w eq_refl) as Hframe.
  destruct (_make_request E (COLLECTIONS E) PNone true true c w)
    as [[[data|e0] c1] w1]; [|intros H; inversion H; subst; exact Hframe].
  unfold bind, lift, getattr, setattr.
  destruct (py_getitem data "me") as [me|e1];
    [|intros H; inversion H; subst; exact Hframe].
  destruct (py_getitem me "collections") as [rs|e1];
    [|intros H; inversion H; subst; exact Hframe].
  destruct (py_iter rs) as [records|e1];
    [|intros H; inversion H; subst; exact Hframe].
  destruct (collections_of_type _ records []) as [new|e1];
    [|intros H; inversion H; subst; exact Hframe].
  discriminate.
Qed.

(** X17: after a [refresh_collections] that returns, a lookup in the
    returned mapping finds the last incoming record of the wanted type with
    that id, and what the cache held before the call for every other
    id. *)
Theorem refresh_collections_lookup
  (of_type : string) (c : Client E) (w : World) m c' w' :
  refresh_collections E of_type c w = (Ok m, c', w') ->
  exists h w0 data me rs records,
    answers E (sent w0) (mkRequest (COLLECTIONS E) PNone h) data /\
    py_getitem data "me" = Ok me /\
    py_getitem me "collections" = Ok rs /\
    py_iter rs = Ok records /\
    forall k,
      cache_get m k
      = match incoming_of_type ("Collection" ++ capitalize E of_type)
                records k None with
        | Some col => Some col
        | None => cache_get (_collections c) k
        end.
Proof.
  unfold refresh_collections. unfold bind at 1.
  pose proof (_make_request_frame E (fun c0 => _collections c0 = _collections c)
                ltac:(auto) ltac:(auto) ltac:(auto) ltac:(auto)
                (COLLECTIONS E) PNone true true c w eq_refl) as Hframe.
  destruct (_make_request E (COLLECTIONS E) PNone true true c w)
    as [[[data|e0] c1] w1] eqn:Hrun; [|discriminate].
  apply _make_request_Ok in Hrun. destruct Hrun as (h & w0 & _ & _ & Hans & _).
  unfold bind, lift, getattr, setattr.
  destruct (py_getitem data "me") as [me|e1] eqn:Hme; [|discriminate].
  destruct (py_getitem me "collections") as [rs|e1] eqn:Hrs; [|discriminate].
  destruct (py_iter rs) as [records|e1] eqn:Hrecords; [|discriminate].
  destruct (collections_of_type _ records []) as [new|e1] eqn:Hnew;
    [|discriminate].
  intros H. inversion H; subst.
  exists h, w0, data, me, rs, records. repeat split; auto.
  intros k. cbn [_collections with_collections].
  rewrite cache_get_update
    by (eapply collections_of_type_distinct; [exact Hnew | constructor]).
  rewrite (collections_of_type_lookup _ _ k _ _ Hnew). cbn [cache_get].
  rewrite Hframe.
  destruct (incoming_of_type _ records k None); reflexivity.
Qed.

End CollectionsLookup.

Section ProfileLookup.

Variable E : Env.

Lemma dict_get_stamp (d : list (string * pyval)) v :
  dict_get (dict_set d "__last_updated" v) "feeders" = dict_get d "feeders".
Proof.
  induction d as [|[k0 v0] d IH]; [reflexivity|].
  cbn [dict_set]. destruct (String.eqb k0 "__last_updated") eqn:H0.
  - apply String.eqb_eq in H0. subst k0. reflexivity.
  - cbn [dict_get]. destruct (String.eqb k0 "feeders"); auto.
Qed.

(** [_save_me] on a non-empty mapping: stamp, store, then the loop. *)
Lemma _save_me_dict me fs c w :
  truthy me = true -> isinstance_dict me = true ->
  profile_feeders me = Ok fs ->
  _save_me E me c w
  = match for_each fs (save_feeder E)
            (with_me c (stamped me (now E (ticks w)))) (tick w) with
    | (Ok _, c1, w1) => (Ok true, c1, w1)
    | (Raise e, c1, w1) => (Raise e, c1, w1)
    end.
Proof.
  intros Hme Hdict Hfs. unfold profile_feeders in Hfs. rewrite Hme in Hfs.
  destruct me as [ | | | | | |d]; try discriminate Hdict.
  unfold _save_me. rewrite Hme. cbn [negb].
  unfold bind, datetime_now, lift, setattr. cbn [py_setitem stamped].
  cbn [py_get] in Hfs |- *. rewrite dict_get_stamp.
  destruct (dict_get d "feeders") as [x|]; cbn [rbind] in Hfs; rewrite Hfs;
    unfold tick;
    destruct (for_each fs (save_feeder E) _ _) as [[[u|e] c1] w1]; reflexivity.
Qed.

Lemma save_feeder_fails f e c w :
  feeder_id_error f = Some e -> save_feeder E f c w = (Raise e, c, w).
Proof.
  unfold feeder_id_error, save_feeder, bind, lift.
  destruct (py_getitem f "id") as [k|e0].
  - destruct (hashable k); [discriminate|]. intros H. inversion H. reflexivity.
  - intros H. inversion H. reflexivity.
Qed.

Lemma for_each_save_feeder_fails pre f post e : forall c w,
  Forall has_id pre ->
  feeder_id_error f = Some e ->
  for_each (pre ++ f :: post)%list (save_feeder E) c w
  = (Raise e, with_feeders c (merge_feeders E pre (_feeders c)), w).
Proof.
  induction pre as [|g pre IH]; intros c w Hpre Hf.
  - cbn [app for_each]. unfold bind. rewrite (save_feeder_fails _ _ _ _ Hf).
    destruct c; reflexivity.
  - inversion Hpre as [|? ? Hg Hpre']; subst.
    cbn [app for_each]. unfold bind. rewrite save_feeder_merges by assumption.
    rewrite IH by assumption. reflexivity.
Qed.

Lemma merge_feeder_lookup cache f k0 k :
  py_getitem f "id" = Ok k0 ->
  cache_get (merge_feeder E cache f) k
  = if key_eqb k0 k
    then match cache_get cache k0 with
         | Some old => Some (Feeder_update E old f)
         | None => Some (Feeder_new E f)
         end
    else cache_get cache k.
Proof.
  intros Hid. unfold merge_feeder. rewrite Hid.
  destruct (cache_get cache k0); rewrite cache_get_set;
    destruct (key_eqb k0 k); reflexivity.
Qed.

Lemma merge_feeders_keeps fs : forall cache k,
  cache_get cache k <> None -> cache_get (merge_feeders E fs cache) k <> None.
Proof.
  unfold merge_feeders.
  induction fs as [|f fs IH]; intros cache k H; cbn [fold_left]; [exact H|].
  apply IH. unfold merge_feeder.
  destruct (py_getitem f "id"); [|exact H].
  destruct (cache_get cache a); apply cache_set_keeps_keys, H.
Qed.

Lemma merge_feeders_caches fs : forall cache f k,
  In f fs -> py_getitem f "id" = Ok k -> hashable k = true ->
  cache_get (merge_feeders E fs cache) k <> None.
Proof.
  unfold merge_feeders.
  induction fs as [|g fs IH]; intros cache f k Hin Hid Hk; [destruct Hin|].
  cbn [fold_left]. destruct Hin as [-> | Hin].
  - apply (merge_feeders_keeps fs).
    rewrite (merge_feeder_lookup _ _ _ _ Hid), key_eqb_refl by assumption.
    destruct (cache_get cache k); discriminate.
  - eapply IH; eassumption.
Qed.

Lemma merge_feeders_others fs : forall cache k,
  (forall f k', In f fs -> py_getitem f "id" = Ok k' -> key_eqb k' k = false) ->
  cache_get (merge_feeders E fs cache) k = cache_get cache k.
Proof.
  unfold merge_feeders.
  induction fs as [|g fs IH]; intros cache k H; cbn [fold_left]; [reflexivity|].
  rewrite IH by (intros f k' Hin; apply H; right; exact Hin).
  unfold merge_feeder at 1.
  destruct (py_getitem g "id") as [k0|e] eqn:Hid; [|reflexivity].
  pose proof (H g k0 (or_introl eq_refl) Hid) as Hne.
  destruct (cache_get cache k0); rewrite cache_get_set, Hne; reflexivity.
Qed.

(** X18: after [_save_me] on a non-empty profile whose feeder records
    carry ids, every feeder of the profile is found in the cache under its
    id, and a lookup of an id that none of them carries finds what it found
    before. *)
Theorem save_me_caches_every_feeder
  (me : pyval) (fs : list pyval) (c : Client E) (w : World) :
  truthy me = true -> isinstance_dict me = true ->
  profile_feeders me = Ok fs ->
  Forall has_id fs ->
  (forall f k, In f fs -> py_getitem f "id" = Ok k ->
     cache_get (_feeders (client_of (_save_me E me c w))) k <> None) /\
  (forall k,
      (forall f k', In f fs -> py_getitem f "id" = Ok k' ->
                    key_eqb k' k = false) ->
      cache_get (_feeders (client_of (_save_me E me c w))) k
      = cache_get (_feeders c) k).
Proof.
  intros Hme Hdict Hfs Hids.
  rewrite (_save_me_dict me fs c w Hme Hdict Hfs).
  rewrite for_each_save_feeder by assumption.
  cbn [client_of fst snd _feeders with_feeders with_me]. split.
  - intros f k Hin Hid. eapply merge_feeders_caches; try eassumption.
    rewrite Forall_forall in Hids. destruct (Hids f Hin) as (k' & Hid' & Hk).
    congruence.
  - intros k H. apply merge_feeders_others, H.
Qed.

(** X19: [_save_me] on a value that is truthy and not a mapping raises
    [TypeError] on the stamp: the cached profile and the caches are
    untouched, only the clock has been read. *)
Theorem save_me_rejects_other_values (me : pyval) (c : Client E) (w : World) :
  truthy me = true -> isinstance_dict me = false ->
  _save_me E me c w = (Raise TypeError, c, tick w).
Proof.
  intros Hme Hdict. unfold _save_me. rewrite Hme. cbn [negb].
  unfold bind, datetime_now, lift.
  destruct me; try discriminate Hdict; reflexivity.
Qed.

(** X20: the merge of a profile is not undone by a bad record: when a
    feeder record has no id, or an unhashable one, [_save_me] raises at
    that record with the profile already replaced and the feeders before
    it merged; those after it are not looked at. *)
Theorem save_me_stops_at_bad_feeder
  (me : pyval) (pre post : list pyval) (f : pyval) (e : exn)
  (c : Client E) (w : World) :
  truthy me = true -> isinstance_dict me = true ->
  profile_feeders me = Ok (pre ++ f :: post)%list ->
  Forall has_id pre ->
  feeder_id_error f = Some e ->
  _save_me E me c w
  = (Raise e,
     with_feeders (with_me c (stamped me (now E (ticks w))))
       (merge_feeders E pre (_feeders c)),
     tick w).
Proof.
  intros Hme Hdict Hfs Hpre Hf.
  rewrite (_save_me_dict me _ c w Hme Hdict Hfs).
  rewrite (for_each_save_feeder_fails pre f post e _ _ Hpre Hf).
  reflexivity.
Qed.

End ProfileLookup.

Lemma refresh_collections_all_or_nothing_witness :
  result_of (refresh_collections MergeScenario.untagged "bird"
               (Sample.active MergeScenario.untagged) Sample.world0)
  = Raise (KeyError "__typename") /\
  _collections
    (client_of (refresh_collections MergeScenario.untagged "bird"
                  (Sample.active MergeScenario.untagged) Sample.world0))
  = _collections (Sample.active MergeScenario.untagged).
Proof.
  assert (H : result_of (refresh_collections MergeScenario.untagged "bird"
                           (Sample.active MergeScenario.untagged) Sample.world0)
              = Raise (KeyError "__typename")) by (vm_compute; reflexivity).
  split; [exact H|].
  exact (refresh_collections_all_or_nothing MergeScenario.untagged "bird"
           (Sample.active MergeScenario.untagged) Sample.world0 _ H).
Defined.

Lemma refresh_collections_lookup_witness :
  refresh_collections MergeScenario.collecting "bird"
    (Sample.active MergeScenario.collecting) Sample.world0
  = (result_of (refresh_collections MergeScenario.collecting "bird"
                  (Sample.active MergeScenario.collecting) Sample.world0),
     client_of (refresh_collections MergeScenario.collecting "bird"
                  (Sample.active MergeScenario.collecting) Sample.world0),
     world_of (refresh_collections MergeScenario.collecting "bird"
                 (Sample.active MergeScenario.collecting) Sample.world0)) /\
  result_of (refresh_collections MergeScenario.collecting "bird"
               (Sample.active MergeScenario.collecting) Sample.world0)
  = Ok [(PStr "c1",
         mkCollection (PDict [("id", PStr "c1");
                              ("__typename", PStr "CollectionBird")]))] /\
  exists h w0 data me rs records,
    answers MergeScenario.collecting (sent w0)
      (mkRequest (COLLECTIONS MergeScenario.collecting) PNone h) data /\
    py_getitem data "me" = Ok me /\
    py_getitem me "collections" = Ok rs /\
    py_iter rs = Ok records /\
    forall k,
      cache_get
        [(PStr "c1",
          mkCollection (PDict [("id", PStr "c1");
                               ("__typename", PStr "CollectionBird")]))] k
      = match incoming_of_type ("Collection" ++ capitalize MergeScenario.collecting "bird")
                records k None with
        | Some col => Some col
        | None =>
            cache_get (_collections (Sample.active MergeScenario.collecting)) k
        end.
Proof.
  split; [vm_compute; reflexivity|]. split; [vm_compute; reflexivity|].
  apply (refresh_collections_lookup MergeScenario.collecting "bird"
           (Sample.active MergeScenario.collecting) Sample.world0 _
           (client_of (refresh_collections MergeScenario.collecting "bird"
                         (Sample.active MergeScenario.collecting) Sample.world0))
           (world_of (refresh_collections MergeScenario.collecting "bird"
                        (Sample.active MergeScenario.collecting) Sample.world0))).
  vm_compute. reflexivity.
Defined.

Lemma save_me_caches_every_feeder_witness :
  truthy Sample.profile = true /\
  isinstance_dict Sample.profile = true /\
  profile_feeders Sample.profile = Ok [MergeScenario.garden] /\
  Forall has_id [MergeScenario.garden] /\
  cache_get (_feeders (client_of (_save_me (Sample.env []) Sample.profile
                                    (Sample.active (Sample.env []))
                                    Sample.world0)))
    (PStr "f1") <> None.
Proof.
  assert (H : Forall has_id [MergeScenario.garden]).
  { repeat constructor. exists (PStr "f1"). split; reflexivity. }
  split; [reflexivity|]. split; [reflexivity|]. split; [reflexivity|].
  split; [exact H|].
  exact (proj1 (save_me_caches_every_feeder (Sample.env []) Sample.profile
                  [MergeScenario.garden] (Sample.active (Sample.env []))
                  Sample.world0 eq_refl eq_refl eq_refl H)
           MergeScenario.garden (PStr "f1") (or_introl eq_refl) eq_refl).
Defined.

Lemma save_me_rejects_other_values_witness :
  truthy (PList [PInt 1]) = true /\
  isinstance_dict (PList [PInt 1]) = false /\
  _save_me (Sample.env []) (PList [PInt 1]) (Sample.active (Sample.env []))
    Sample.world0
  = (Raise TypeError, Sample.active (Sample.env []), tick Sample.world0).
Proof.
  split; [reflexivity|]. split; [reflexivity|].
  exact (save_me_rejects_other_values (Sample.env []) (PList [PInt 1])
           (Sample.active (Sample.env [])) Sample.world0 eq_refl eq_refl).
Defined.

Lemma save_me_stops_at_bad_feeder_witness :
  truthy MergeScenario.profile_with_bad_feeder = true /\
  isinstance_dict MergeScenario.profile_with_bad_feeder = true /\
  profile_feeders MergeScenario.profile_with_bad_feeder
  = Ok ([MergeScenario.garden] ++ PDict [("name", PStr "Porch")] :: [])%list /\
  Forall has_id [MergeScenario.garden] /\
  feeder_id_error (PDict [("name", PStr "Porch")]) = Some (KeyError "id") /\
  _save_me (Sample.env []) MergeScenario.profile_with_bad_feeder
    (Sample.active (Sample.env [])) Sample.world0
  = (Raise (KeyError "id"),
     with_feeders
       (with_me (Sample.active (Sample.env []))
          (stamped MergeScenario.profile_with_bad_feeder 1000))
       [(PStr "f1", MergeScenario.garden)],
     tick Sample.world0).
Proof.
  assert (H : Forall has_id [MergeScenario.garden]).
  { repeat constructor. exists (PStr "f1"). split; reflexivity. }
  split; [reflexivity|]. split; [reflexivity|]. split; [reflexivity|].
  split; [exact H|]. split; [reflexivity|].
  exact (save_me_stops_at_bad_feeder (Sample.env [])
           MergeScenario.profile_with_bad_feeder [MergeScenario.garden] []
           (PDict [("name", PStr "Porch")]) (KeyError "id")
           (Sample.active (Sample.env [])) Sample.world0
           eq_refl eq_refl eq_refl H eq_refl).
Defined.

(** ** The public methods *)

Section PublicMethods.

Variable E : Env.

(** X21: the recursion of [_make_request] is at most three frames deep:
    more frames give the same runs, and the method satisfies the equation
    of its body with the method itself as the recursive call. *)
Theorem make_request_recursion_is_bounded
  (n : nat) (q : string) (v : pyval) (auth reauth : bool)
  (c : Client E) (w : World) :
  _make_request_depth E (3 + n) q v auth reauth c w
  = _make_request E q v auth reauth c w /\
  _make_request E q v auth reauth c w
  = _make_request_body E (_make_request E) q v auth reauth c w.
Proof.
  split; [apply _make_request_depth_stable | apply _make_request_unfold].
Qed.

(** the requests of an authenticated call followed by steps that send nothing *)
Lemma call_then_extends {B} q v (k : pyval -> M E B) (c : Client E) w :
  (forall data c1 w1, sent (world_of (k data c1 w1)) = sent w1) ->
  exists ns,
    sent (world_of (bind (_make_request E q v true true) k c w))
    = (ns ++ sent w)%list /\
    (attempts ns <= 2)%nat /\
    Forall (fun rq => session_request E rq \/
                      (rq_query rq = q /\ rq_variables rq = v)) ns.
Proof.
  intros Hk.
  pose proof (@_make_request_reauth_extends E (sent w) (output w)
                (fun rq => session_request E rq \/
                           (rq_query rq = q /\ rq_variables rq = v))
                ltac:(intros; left; assumption) 0%nat q v
                ltac:(intros; right; split; reflexivity)
                c w (extends_start _ _ _ _)) as H.
  unfold bind.
  destruct (_make_request E q v true true c w) as [[[data|e] c1] w1];
    destruct H as (ns & no & H1 & H2 & H3 & H4 & H5); exists ns.
  - rewrite Hk. auto.
  - auto.
Qed.

(** X22: whatever [feed] sends is a session request (sign-in or token
    refresh) or the feed query, and at most two requests carry a bearer
    header; the variables of the feed query are [first] and, when it is
    truthy, [after], and nothing else: [last] and [before] are never
    forwarded. *)
Theorem feed_forwards_first_and_after
  (first after last before : pyval) (c : Client E) (w : World) :
  exists ns,
    sent (world_of (feed E first after last before c w)) = (ns ++ sent w)%list /\
    (attempts ns <= 2)%nat /\
    Forall (fun rq =>
              session_request E rq \/
              (rq_query rq = FEED E /\
               rq_variables rq
               = PDict (("first", first)
                          :: if truthy after then [("after", after)] else [])))
      ns.
Proof.
  unfold feed.
  replace (if truthy after
           then dict_set [("first", first)] "after" after
           else [("first", first)])
    with (("first", first) :: if truthy after then [("after", after)] else [])
    by (destruct (truthy after); reflexivity).
  apply call_then_extends. intros data c1 w1. unfold bind, lift, ret.
  destruct (py_getitem data "me") as [me|e]; [|reflexivity].
  destruct (py_getitem me "feed"); reflexivity.
Qed.

(** X23: [_clear] drops the tokens and the profile and nothing else: the
    caches and the watermark stay, nothing is sent or logged; from then on
    the [feeders] and [collections] properties answer with an empty mapping
    although the caches are still filled. *)
Theorem clear_hides_the_caches (c : Client E) (w w' : World) :
  world_of (_clear E c w) = w /\
  _access_token (client_of (_clear E c w)) = PNone /\
  _refresh_token (client_of (_clear E c w)) = PNone /\
  _me (client_of (_clear E c w)) = PNone /\
  _feeders (client_of (_clear E c w)) = _feeders c /\
  _collections (client_of (_clear E c w)) = _collections c /\
  _last_feed_date (client_of (_clear E c w)) = _last_feed_date c /\
  result_of (feeders E (client_of (_clear E c w)) w') = Ok [] /\
  result_of (collections E (client_of (_clear E c w)) w') = Ok [].
Proof. repeat split. Qed.

(** X24: [sighting_from_postcard] on a feed node that is not a new
    postcard raises [AssertionError] before anything is sent or logged. *)
Theorem sighting_from_postcard_checks_node_type
  (n : FeedNode) (c : Client E) (w : World) :
  node_type n <> NewPostcard ->
  sighting_from_postcard E (ObjFeedNode n) c w = (Raise AssertionError, c, w).
Proof.
  intros H. apply String.eqb_neq in H.
  unfold sighting_from_postcard, bind, assert. rewrite H. reflexivity.
Qed.

(** X25: whatever [sighting_from_postcard] sends for a string or a
    postcard node is a session request or the conversion mutation with the
    feed item id as its only variable, and at most two requests carry a
    bearer header; the sighting it returns is the one built from the
    answer, with the argument kept as its postcard. *)
Theorem sighting_from_postcard_sends_id
  (card : pyobj) (id : pyval) (c : Client E) (w : World) :
  postcard_id_of card = Some id ->
  (exists ns,
      sent (world_of (sighting_from_postcard E card c w))
      = (ns ++ sent w)%list /\
      (attempts ns <= 2)%nat /\
      Forall (fun rq =>
                session_request E rq \/
                (rq_query rq = POSTCARD_TO_SIGHTING E /\
                 rq_variables rq
                 = PDict [("sightingCreateFromPostcardInput",
                           PDict [("feedItemId", id)])]))
        ns) /\
  (forall p,
      result_of (sighting_from_postcard E card c w) = Ok p ->
      postcard p = ref_of card /\
      exists h w0 result data made,
        answers E (sent w0)
          (mkRequest (POSTCARD_TO_SIGHTING E)
             (PDict [("sightingCreateFromPostcardInput",
                      PDict [("feedItemId", id)])]) h) result /\
        py_getitem result "sightingCreateFromPostcard" = Ok data /\
        PostcardSighting_new E data = Ok made /\
        report p = report made).
Proof.
  intros Hid.
  assert (Hrun : sighting_from_postcard E card c w
                 = bind (_make_request E (POSTCARD_TO_SIGHTING E)
                           (PDict [("sightingCreateFromPostcardInput",
                                    PDict [("feedItemId", id)])]) true true)
                     (fun result =>
                        data <- lift (py_getitem result
                                        "sightingCreateFromPostcard") ;;
                        sighting <- lift (PostcardSighting_new E data) ;;
                        ret (with_postcard sighting (ref_of card))) c w).
  { unfold sighting_from_postcard, postcard_id_of in *.
    destruct card as [v|n|p]; try discriminate Hid.
    - destruct v; try discriminate Hid. inversion Hid; subst. reflexivity.
    - destruct (String.eqb (node_type n) NewPostcard) eqn:Hty;
        [|discriminate Hid].
      inversion Hid; subst. unfold bind at 1 2. unfold assert.
      rewrite ?Hty. reflexivity. }
  rewrite Hrun. split.
  - apply call_then_extends. intros result c1 w1. unfold bind, lift, ret.
    destruct (py_getitem result "sightingCreateFromPostcard") as [data|e];
      [|reflexivity].
    destruct (PostcardSighting_new E data); reflexivity.
  - intros p. unfold result_of, bind.
    destruct (_make_request E _ _ true true c w) as [[[result|e] c1] w1] eqn:Hmr;
      [|discriminate].
    apply _make_request_Ok in Hmr. destruct Hmr as (h & w0 & _ & _ & Hans & _).
    unfold lift, ret.
    destruct (py_getitem result "sightingCreateFromPostcard") as [data|e]
      eqn:Hdata; [|discriminate].
    destruct (PostcardSighting_new E data) as [made|e] eqn:Hmade;
      [|discriminate].
    cbn. intros H. inversion H; subst. split; [reflexivity|].
    exists h, w0, result, data, made. auto.
Qed.

End PublicMethods.

Section FeedRefresh.

Variable E : Env.

Lemma refresh_feed_resolved since s c w :
  resolve_since E c since = Ok s ->
  refresh_feed E since c w
  = (fd <- feed E (PInt 20) PNone PNone PNone ;;
     newest_date <- lift (newest_created_at E fd) ;;
     last <- getattr _last_feed_date ;;
     (if negb (option_Z_eqb newest_date last) then
        LOGGER DEBUG "Updating latest seen Feed timestamp: %s -> %s"
          [LDate last; LDate newest_date] ;;
        setattr with_last_feed_date newest_date
      else ret tt) ;;
     lift (filter_newer_than E fd s)) c w.
Proof.
  unfold refresh_feed, resolve_since. intros H.
  destruct since as [| |t|str].
  - inversion H; subst. unfold bind at 1 2 3. unfold getattr, ret.
    destruct (_last_feed_date c); reflexivity.
  - inversion H; subst. reflexivity.
  - inversion H; subst. reflexivity.
  - unfold bind at 1 2 3. unfold ret, lift.
    destruct (parse_datetime E str); [|discriminate].
    inversion H; subst. reflexivity.
Qed.

(** X26: the [since] of [refresh_feed] only filters: the client and the
    world after the call are those of a call without bound, and the nodes
    returned are the feed filtered by the bound resolved on entry, which for
    the default is the watermark before the call, not the one it sets. *)
Theorem refresh_feed_since_only_filters
  (since : since_arg) (s : option Z) (c : Client E) (w : World) :
  resolve_since E c since = Ok s ->
  client_of (refresh_feed E since c w)
  = client_of (refresh_feed E SinceNone c w) /\
  world_of (refresh_feed E since c w)
  = world_of (refresh_feed E SinceNone c w) /\
  forall fd c1 w1 newest,
    feed E (PInt 20) PNone PNone PNone c w = (Ok fd, c1, w1) ->
    newest_created_at E fd = Ok newest ->
    result_of (refresh_feed E since c w) = filter_newer_than E fd s.
Proof.
  intros Hs. rewrite (refresh_feed_resolved since s c w Hs).
  rewrite (refresh_feed_resolved SinceNone None c w eq_refl).
  unfold client_of, world_of, result_of, bind.
  destruct (feed E (PInt 20) PNone PNone PNone c w) as [[[fd|e] c1] w1].
  - unfold lift, getattr, setattr, LOGGER, ret.
    destruct (newest_created_at E fd) as [newest|e] eqn:Hn.
    + destruct (negb (option_Z_eqb newest (_last_feed_date c1))); cbn;
        (split; [reflexivity|]); (split; [reflexivity|]);
        intros ? ? ? ? H _; inversion H; subst; reflexivity.
    + cbn. split; [reflexivity|]. split; [reflexivity|].
      intros ? ? ? ? H1 H2; inversion H1; subst; congruence.
  - cbn. split; [reflexivity|]. split; [reflexivity|].
    intros ? ? ? ? H; discriminate H.
Qed.

(** X27: [refresh_feed] with a string that does not parse as a date
    raises the parse error before anything is sent, logged or changed. *)
Theorem refresh_feed_bad_since_sends_nothing
  (s : string) (e : exn) (c : Client E) (w : World) :
  parse_datetime E s = Raise e ->
  refresh_feed E (SinceStr s) c w = (Raise e, c, w).
Proof.
  intros H. unfold refresh_feed, bind, lift, ret. rewrite H. reflexivity.
Qed.

(** X28: in a session that holds both tokens, a [refresh] whose request
    the remote answers with a profile under [me] continues as [_save_me] on
    that profile, from the unchanged client, after one request and the
    three log records. *)
Theorem refresh_saves_returned_profile
  (c : Client E) (w : World) (data me : pyval) :
  usable c ->
  answers E (sent w) (mkRequest (ME E) PNone
                        (Authorization_Bearer (_access_token c))) data ->
  py_getitem data "me" = Ok me ->
  refresh E c w
  = _save_me E me c
      (logged (mkLog DEBUG "Feeder data refreshed successfully: %s" [LVal data])
         (logged (response_record E (ME E) data)
            (sent_and_logged E
               (mkRequest (ME E) PNone
                  (Authorization_Bearer (_access_token c))) w))).
Proof.
  intros Hus Hans Hme. apply (classify_answers E) in Hans.
  unfold refresh, bind at 1.
  rewrite (_make_request_after_auth E (ME E) PNone true true c w c w
             (_headers E c)).
  - unfold send_phase, _headers. rewrite Hans.
    unfold bind, LOGGER, lift, logged. cbn. rewrite Hme. reflexivity.
  - split; [|reflexivity]. exists true. apply _check_auth_usable, Hus.
  - intros errors. unfold _headers. rewrite Hans. discriminate.
Qed.

Lemma media_of_id_found edges k : forall found,
  media_of_id edges k found
  = match media_of_id edges k None with
    | Some node => Some node
    | None => found
    end.
Proof.
  induction edges as [|edge edges IH]; intros found; cbn [media_of_id].
  - reflexivity.
  - rewrite IH. symmetry. rewrite IH. symmetry.
    destruct (media_of_id edges k None); [reflexivity|].
    destruct (rbind _ _) as [node|]; [|reflexivity].
    destruct (py_getitem node "id") as [i|]; [|reflexivity].
    destruct (key_eqb i k); reflexivity.
Qed.

Lemma media_of_edges_lookup edges k : forall acc res,
  media_of_edges E edges acc = Ok res ->
  cache_get res k
  = match media_of_id edges k None with
    | Some node => Some (Media_new E node)
    | None => cache_get acc k
    end.
Proof.
  induction edges as [|edge edges IH]; intros acc res Hres;
    cbn [media_of_edges media_of_id] in *.
  - inversion Hres. reflexivity.
  - rewrite media_of_id_found.
    destruct (py_getitem edge "node") as [n|]; cbn [rbind] in *; [|discriminate].
    destruct (py_getitem n "media") as [node|]; cbn [rbind] in *; [|discriminate].
    destruct (py_getitem node "id") as [i|]; cbn [rbind] in *; [|discriminate].
    destruct (hashable i); [|discriminate].
    rewrite (IH _ _ Hres), cache_get_set.
    destruct (media_of_id edges k None); [reflexivity|].
    destruct (key_eqb i k); reflexivity.
Qed.

Lemma media_of_edges_distinct edges : forall acc res,
  media_of_edges E edges acc = Ok res ->
  distinct_keys acc -> distinct_keys res.
Proof.
  induction edges as [|edge edges IH]; intros acc res Hres Hacc;
    cbn [media_of_edges] in Hres.
  - inversion Hres; subst. exact Hacc.
  - destruct (py_getitem edge "node") as [n|]; cbn [rbind] in *; [|discriminate].
    destruct (py_getitem n "media") as [node|]; cbn [rbind] in *; [|discriminate].
    destruct (py_getitem node "id") as [i|]; cbn [rbind] in *; [|discriminate].
    destruct (hashable i); [|discriminate].
    eapply IH; [eassumption|]. apply distinct_keys_cache_set, Hacc.
Qed.

(** X29: the mapping returned by [collection] holds one entry per media
    id of the answer: a lookup finds the media built from the last edge
    with that id, and nothing for an id no edge carries. *)
Theorem collection_lookup
  (collection_id : pyval) (c : Client E) (w : World) m :
  result_of (collection E collection_id c w) = Ok m ->
  exists h w0 data edges,
    answers E (sent w0)
      (mkRequest (COLLECTIONS_MEDIA E)
         (PDict [("collectionId", collection_id)]) h) data /\
    media_edges data = Ok edges /\
    distinct_keys m /\
    forall k, cache_get m k
              = option_map (Media_new E) (media_of_id edges k None).
Proof.
  unfold result_of, collection, bind.
  destruct (_make_request E _ _ true true c w) as [[[data|e] c1] w1] eqn:Hmr;
    [|discriminate].
  apply _make_request_Ok in Hmr. destruct Hmr as (h & w0 & _ & _ & Hans & _).
  unfold lift.
  destruct (py_getitem data "collection") as [col|] eqn:Hcol; [|discriminate].
  destruct (py_getitem col "media") as [media|] eqn:Hmedia; [|discriminate].
  destruct (py_getitem media "edges") as [es|] eqn:Hes; [|discriminate].
  destruct (py_iter es) as [edges|] eqn:Hiter; [|discriminate].
  destruct (media_of_edges E edges []) as [res|] eqn:Hres; [|discriminate].
  cbn. intros H. inversion H; subst.
  exists h, w0, data, edges. split; [exact Hans|]. split.
  - unfold media_edges. rewrite Hcol. cbn [rbind]. rewrite Hmedia. cbn [rbind].
    rewrite Hes. cbn [rbind]. exact Hiter.
  - split; [eapply media_of_edges_distinct; [eassumption | constructor]|].
    intros k. rewrite (media_of_edges_lookup edges k _ _ Hres).
    destruct (media_of_id edges k None); reflexivity.
Qed.

End FeedRefresh.

Lemma sighting_from_postcard_checks_node_type_witness :
  node_type PublicScenario.feeder_node <> NewPostcard /\
  sighting_from_postcard PublicScenario.converting
    (ObjFeedNode PublicScenario.feeder_node)
    (Sample.active PublicScenario.converting) Sample.world0
  = (Raise AssertionError, Sample.active PublicScenario.converting,
     Sample.world0).
Proof.
  assert (H : node_type PublicScenario.feeder_node <> NewPostcard)
    by (vm_compute; discriminate).
  split; [exact H|].
  exact (sighting_from_postcard_checks_node_type PublicScenario.converting
           PublicScenario.feeder_node
           (Sample.active PublicScenario.converting) Sample.world0 H).
Defined.

Lemma sighting_from_postcard_sends_id_witness :
  postcard_id_of (Val (PStr "item-42")) = Some (PStr "item-42") /\
  forall p,
    result_of (sighting_from_postcard PublicScenario.converting
                 (Val (PStr "item-42"))
                 (Sample.active PublicScenario.converting) Sample.world0)
    = Ok p ->
    postcard p = Some (RefValue (PStr "item-42")).
Proof.
  split; [reflexivity|]. intros p Hp.
  exact (proj1 (proj2 (sighting_from_postcard_sends_id
                         PublicScenario.converting (Val (PStr "item-42"))
                         (PStr "item-42")
                         (Sample.active PublicScenario.converting)
                         Sample.world0 eq_refl) p Hp)).
Defined.

Lemma refresh_feed_since_only_filters_witness :
  resolve_since PublicScenario.paging (Sample.active PublicScenario.paging)
    (SinceStr "12")
  = Ok (Some 12) /\
  client_of (refresh_feed PublicScenario.paging (SinceStr "12")
               (Sample.active PublicScenario.paging) Sample.world0)
  = client_of (refresh_feed PublicScenario.paging SinceNone
                 (Sample.active PublicScenario.paging) Sample.world0).
Proof.
  split; [reflexivity|].
  exact (proj1 (refresh_feed_since_only_filters PublicScenario.paging
                  (SinceStr "12") (Some 12)
                  (Sample.active PublicScenario.paging) Sample.world0
                  eq_refl)).
Defined.

Lemma refresh_feed_bad_since_sends_nothing_witness :
  parse_datetime PublicScenario.paging "yesterday" = Raise TypeError /\
  refresh_feed PublicScenario.paging (SinceStr "yesterday")
    (Sample.active PublicScenario.paging) Sample.world0
  = (Raise TypeError, Sample.active PublicScenario.paging, Sample.world0).
Proof.
  split; [reflexivity|].
  exact (refresh_feed_bad_since_sends_nothing PublicScenario.paging
           "yesterday" TypeError (Sample.active PublicScenario.paging)
           Sample.world0 eq_refl).
Defined.

Lemma refresh_saves_returned_profile_witness :
  usable (Sample.active FailureScenario.answering) /\
  answers FailureScenario.answering (sent Sample.world0)
    (mkRequest "query me" PNone (Authorization_Bearer (PStr "AT1")))
    (PDict [("me", Sample.profile)]) /\
  py_getitem (PDict [("me", Sample.profile)]) "me" = Ok Sample.profile /\
  refresh FailureScenario.answering (Sample.active FailureScenario.answering)
    Sample.world0
  = _save_me FailureScenario.answering Sample.profile
      (Sample.active FailureScenario.answering)
      (logged (mkLog DEBUG "Feeder data refreshed successfully: %s"
                 [LVal (PDict [("me", Sample.profile)])])
         (logged (response_record FailureScenario.answering "query me"
                    (PDict [("me", Sample.profile)]))
            (sent_and_logged FailureScenario.answering
               (mkRequest "query me" PNone
                  (Authorization_Bearer (PStr "AT1")))
               Sample.world0))).
Proof.
  assert (H1 : usable (Sample.active FailureScenario.answering))
    by (split; vm_compute; discriminate).
  assert (H2 : answers FailureScenario.answering (sent Sample.world0)
                 (mkRequest "query me" PNone (Authorization_Bearer (PStr "AT1")))
                 (PDict [("me", Sample.profile)])).
  { eexists. split; [vm_compute; reflexivity|]. repeat split. }
  split; [exact H1|]. split; [exact H2|]. split; [reflexivity|].
  exact (refresh_saves_returned_profile FailureScenario.answering
           (Sample.active FailureScenario.answering) Sample.world0
           (PDict [("me", Sample.profile)]) Sample.profile H1 H2 eq_refl).
Defined.

Lemma collection_lookup_witness :
  result_of (collection PublicScenario.showing (PStr "c1")
               (Sample.active PublicScenario.showing) Sample.world0)
  = Ok [(PStr "m1", PDict [("id", PStr "m1")]);
        (PStr "m2", PDict [("id", PStr "m2")])] /\
  exists h w0 data edges,
    answers PublicScenario.showing (sent w0)
      (mkRequest "query collectionsMedia"
         (PDict [("collectionId", PStr "c1")]) h) data /\
    media_edges data = Ok edges /\
    distinct_keys [(PStr "m1", PDict [("id", PStr "m1")]);
                   (PStr "m2", PDict [("id", PStr "m2")])] /\
    forall k,
      cache_get [(PStr "m1", PDict [("id", PStr "m1")]);
                 (PStr "m2", PDict [("id", PStr "m2")])] k
      = option_map (Media_new PublicScenario.showing)
          (media_of_id edges k None).
Proof.
  split; [reflexivity|].
  exact (collection_lookup PublicScenario.showing (PStr "c1")
           (Sample.active PublicScenario.showing) Sample.world0 _ eq_refl).
Defined.

Lemma operations_own_their_attributes_witness :
  (forall since, Call_refresh_collections "bird" <> Call_refresh_feed since) /\
  _last_feed_date
    (client_of (run_call MergeScenario.collecting
                  (Call_refresh_collections "bird")
                  (Sample.active MergeScenario.collecting) Sample.world0))
  = _last_feed_date (Sample.active MergeScenario.collecting).
Proof.
  assert (H : forall since,
             Call_refresh_collections "bird" <> Call_refresh_feed since)
    by (intros since; discriminate).
  split; [exact H|].
  exact (proj1 (proj2 (proj2
           (operations_own_their_attributes MergeScenario.collecting
              (Call_refresh_collections "bird")
              (Sample.active MergeScenario.collecting) Sample.world0))) H).
Defined.

Lemma caches_never_forget_witness :
  cache_get
    (_feeders (with_feeders (Sample.active FailureScenario.answering)
                 [(PStr "f0", PDict [("id", PStr "f0")])]))
    (PStr "f0") <> None /\
  cache_get
    (_feeders
       (client_of
          (run_call FailureScenario.answering Call_refresh
             (with_feeders (Sample.active FailureScenario.answering)
                [(PStr "f0", PDict [("id", PStr "f0")])])
             Sample.world0)))
    (PStr "f0") <> None.
Proof.
  assert (H : cache_get
                (_feeders (with_feeders (Sample.active FailureScenario.answering)
                             [(PStr "f0", PDict [("id", PStr "f0")])]))
                (PStr "f0") <> None)
    by (vm_compute; discriminate).
  split; [exact H|].
  exact (proj1 (caches_never_forget FailureScenario.answering Call_refresh
                  (with_feeders (Sample.active FailureScenario.answering)
                     [(PStr "f0", PDict [("id", PStr "f0")])])
                  Sample.world0 (PStr "f0")) H).
Defined.

(* ===================================================================== *)
(** ** The auth check and the diagnostic output *)
(* ===================================================================== *)

Section AuthCheckResult.

Variable E : Env.

Lemma _save_me_sends_nothing me (c : Client E) w :
  sent (world_of (_save_me E me c w)) = sent w.
Proof.
  assert (H : preserves (fun (_ : Client E) w' => sent w' = sent w)
                (_save_me E me)).
  { unfold _save_me, save_feeder. repeat pres_step; intros; auto. }
  specialize (H c w eq_refl). unfold world_of.
  destruct (_save_me E me c w) as [[r c'] w']. exact H.
Qed.

(** A login with credentials sends the sign-in, whatever its outcome. *)
Lemma _login_sends (c : Client E) w :
  has_credentials c ->
  sent (world_of (_login E c w))
  = mkRequest (SIGN_IN E) (login_variables c) NoHeaders :: sent w.
Proof.
  intros Hcred. unfold world_of, _login, _login_with.
  unfold bind at 1. unfold getattr at 1.
  unfold bind at 1. unfold getattr at 1.
  unfold bind at 1. unfold assert.
  rewrite (has_credentials_truthy E c Hcred). cbn [ret].
  unfold bind at 1. unfold try_except. rewrite _make_request_noauth.
  unfold send_phase, login_variables.
  destruct (classify E _); cbn [isinstance_GraphqlError raise];
    try reflexivity.
  - destruct (expired_is_GraphqlError E); reflexivity.
  - unfold bind, lift, setattr.
    destruct (py_getitem data "authEmailSignIn") as [pair|e]; [|reflexivity].
    destruct (py_getitem pair "accessToken") as [access|e]; [|reflexivity].
    destruct (py_getitem pair "refreshToken") as [refresh|e]; [|reflexivity].
    destruct (py_getitem pair "me") as [me|e]; [|reflexivity].
    apply (_save_me_sends_nothing me).
Qed.

(** A token refresh with a non-empty refresh token sends the token-refresh
    mutation, whatever its outcome. *)
Lemma _refresh_access_token_sends (c : Client E) w :
  truthy (_refresh_token c) = true ->
  sent (world_of (_refresh_access_token E c w))
  = mkRequest (REFRESH_AUTH_TOKEN E) (refresh_variables c) NoHeaders :: sent w.
Proof.
  intros Htok. unfold world_of, _refresh_access_token, _refresh_access_token_with.
  unfold bind at 1. unfold getattr at 1.
  unfold bind at 1. unfold assert. rewrite Htok. cbn [ret].
  unfold bind at 1. unfold try_except. rewrite _make_request_noauth.
  unfold send_phase, refresh_variables.
  destruct (classify E _); cbn [isinstance_GraphqlError raise];
    try reflexivity.
  - destruct (expired_is_GraphqlError E); reflexivity.
  - unfold bind, lift, setattr, getattr, LOGGER, ret.
    destruct (py_getitem data "authRefreshToken") as [pair|e]; [|reflexivity].
    destruct (py_get pair "accessToken" PNone) as [access|e]; [|reflexivity].
    destruct (py_get pair "refreshToken" PNone) as [refresh|e]; reflexivity.
Qed.

(** C6 (amended): what [_check_auth] does in each state of the session.
    When no refresh token is present it logs that a login is required and
    runs the login: with credentials the sign-in is sent, and when the
    check returns its result is the login's, true if and only if the
    profile record of the sign-in response is non-empty, the tokens of that
    response being installed either way.  When a refresh token is present
    and the access token is absent it runs the token refresh, which sends
    the token-refresh mutation when the refresh token is non-empty, and
    then answers whether a refresh token is held.  When both are present
    it does nothing and answers true.  Whenever no login was needed, its
    result is true if and only if a refresh token is present afterwards. *)
Theorem check_auth_result (c : Client E) (w : World) :
  (_needs_login E c = true ->
   _check_auth E c w
   = _login E c (logged (mkLog DEBUG "Login required" []) w) /\
   (has_credentials c ->
    sent (world_of (_check_auth E c w))
    = mkRequest (SIGN_IN E) (login_variables c) NoHeaders :: sent w) /\
   forall b c' w',
     _check_auth E c w = (Ok b, c', w') ->
     exists data result me c1 w1,
       _make_request E (SIGN_IN E) (login_variables c) false true c
         (logged (mkLog DEBUG "Login required" []) w)
       = (Ok data, c1, w1) /\
       py_getitem data "authEmailSignIn" = Ok result /\
       py_getitem result "accessToken" = Ok (_access_token c') /\
       py_getitem result "refreshToken" = Ok (_refresh_token c') /\
       py_getitem result "me" = Ok me /\
       (b = true <-> truthy me = true)) /\
  (_needs_login E c = false -> _needs_refresh E c = true ->
   _check_auth E c w
   = match _refresh_access_token E c
             (logged (mkLog DEBUG "Access token needs to be refreshed" []) w)
     with
     | (Ok _, c1, w1) => (Ok (negb (_needs_login E c1)), c1, w1)
     | (Raise e, c1, w1) => (Raise e, c1, w1)
     end /\
   (truthy (_refresh_token c) = true ->
    sent (world_of (_check_auth E c w))
    = mkRequest (REFRESH_AUTH_TOKEN E) (refresh_variables c) NoHeaders
        :: sent w)) /\
  (_needs_login E c = false -> _needs_refresh E c = false ->
   _check_auth E c w = (Ok true, c, w)) /\
  (_needs_login E c = false ->
   forall b c' w',
     _check_auth E c w = (Ok b, c', w') ->
     (b = true <-> _refresh_token c' <> PNone)).
Proof.
  split; [|split; [|split]].
  - intros Hnl.
    pose proof (_check_auth_needs_login E c w Hnl) as Heq.
    split; [exact Heq|]. split.
    + intros Hcred. rewrite Heq, (_login_sends c _ Hcred). reflexivity.
    + intros b c' w' H. rewrite Heq in H. apply _login_result in H.
      destruct H as (data & result & me & c2 & w2 & H1 & H2 & H3 & H4 & H5 & H6).
      exists data, result, me, c2, w2. subst b. repeat split; auto.
  - intros Hnl Hnr.
    assert (Hacc : _access_token c = PNone).
    { unfold _needs_refresh in Hnr. destruct (_access_token c);
        first [reflexivity | discriminate]. }
    pose proof (_check_auth_needs_refresh E c w Hnl Hacc) as Heq.
    split; [exact Heq|].
    intros Htok. rewrite Heq.
    pose proof (_refresh_access_token_sends c
                  (logged (mkLog DEBUG "Access token needs to be refreshed" [])
                     w) Htok) as Hs.
    cbn [logged sent] in Hs. rewrite <- Hs. unfold world_of.
    destruct (_refresh_access_token E c _) as [[[b|e] c1] w1]; reflexivity.
  - intros Hnl Hnr.
    unfold _check_auth, _check_auth_with, bind, getattr, ret.
    rewrite Hnl, Hnr, Hnl. reflexivity.
  - intros Hnl b c' w' H.
    unfold _check_auth, _check_auth_with in H. step H.
    rewrite Hnl in H. do 3 step H. cbv [ret] in H. inversion H; subst.
    unfold _needs_login. destruct (_refresh_token c'); cbn;
      split; congruence.
Qed.

End AuthCheckResult.

Lemma check_auth_result_witness :
  _needs_login EmptyProfileScenario.E
    (__init__ EmptyProfileScenario.E "u@x.com" "pw") = true /\
  has_credentials (__init__ EmptyProfileScenario.E "u@x.com" "pw") /\
  _check_auth EmptyProfileScenario.E
    (__init__ EmptyProfileScenario.E "u@x.com" "pw") Sample.world0
  = (Ok false, client_of EmptyProfileScenario.call,
     world_of EmptyProfileScenario.call) /\
  sent (world_of EmptyProfileScenario.call)
  = [mkRequest "mutation authEmailSignIn"
       (PDict [("emailSignInInput",
                PDict [("email", PStr "u@x.com"); ("password", PStr "pw")])])
       NoHeaders] /\
  exists me,
    py_getitem (PDict [("accessToken", PStr "AT1");
                       ("refreshToken", PStr "RT1");
                       ("me", PDict [])]) "me" = Ok me /\
    (false = true <-> truthy me = true).
Proof.
  assert (Hnl : _needs_login EmptyProfileScenario.E
                  (__init__ EmptyProfileScenario.E "u@x.com" "pw") = true)
    by reflexivity.
  assert (Hcred : has_credentials
                    (__init__ EmptyProfileScenario.E "u@x.com" "pw"))
    by (split; vm_compute; discriminate).
  assert (H : _check_auth EmptyProfileScenario.E
    (__init__ EmptyProfileScenario.E "u@x.com" "pw") Sample.world0
  = (Ok false, client_of EmptyProfileScenario.call,
     world_of EmptyProfileScenario.call)) by (vm_compute; reflexivity).
  split; [exact Hnl|]. split; [exact Hcred|]. split; [exact H|].
  destruct (proj1 (check_auth_result EmptyProfileScenario.E _ Sample.world0) Hnl)
    as (_ & Hsent & Hres).
  split; [exact (Hsent Hcred)|].
  destruct (Hres _ _ _ H)
    as (data & result & me & c1 & w1 & H1 & H2 & H3 & H4 & H5 & H6).
  exists me. split; [|exact H6].
  vm_compute in H1. inversion H1; subst. vm_compute in H2.
  inversion H2; subst. exact H5.
Defined.

Section LoggedRecords.

Variable E : Env.
Variable S : list Request.
Variable O : list log_record.












End LoggedRecords.

Section Redacted.

Variable E : Env.




End Redacted.
